(** * ShadowTrade: policy enforcement and encrypted conditional execution

    A shallow embedding of the TypeScript core of the repository:
    the strategy schema ([src/schemas]), the limit enforcer
    ([src/validation]), the risk re-checker ([src/risk]), the encrypted
    intent handler ([src/encryption]), the x402 payment client
    ([src/payment]), the economic reasoning engine ([src/economic]), the
    trade executor, the receipt logger, the workflow orchestrator and the
    trading dashboard.

    Conventions of the embedding.
    - A JavaScript [number] is an exact rational ([Q]); comparisons are the
      boolean comparisons of [Q], which are exact on doubles as well.
      [NaN] and the infinities are outside the model, and so is rounding:
      sums and differences are the exact ones.  They are the numbers the
      code computes wherever no operation rounds, in particular on safe
      integers whose results are safe integers ([Js.sums_exactly],
      [Accounting.exact_books]); a theorem that decides a branch on a sum,
      or equates the result of several operations, assumes that domain.
    - A JavaScript string is a Rocq [string] (its UTF-8 bytes).
    - Message arrays ([errors], [violations], [clamped]) hold structured
      values; a [*_message] function renders the text the code pushes.
    - Objects that the code shares by reference (ledger entries, trade
      requests) live in an explicit store and are named by locations.
    - Randomness, clocks and remote peers are explicit inputs. *)

From Stdlib Require Import QArith ZArith String Ascii List Strings.Byte Lqa Lia.
From Stdlib Require Import DecimalString Qround Qabs.
From stdpp Require Import gmap strings list.

#[local] Set Warnings "-register-all".

(** ** JavaScript numbers *)

Module Js.

(** [a > b] *)
Definition gt (a b : Q) : bool := negb (Qle_bool a b).

(** [a >= b] *)
Definition ge (a b : Q) : bool := Qle_bool b a.

(** [a <= b] *)
Definition le (a b : Q) : bool := Qle_bool a b.

(** [Number.isInteger(a)] *)
Definition isInteger (a : Q) : bool :=
  (Qnum a mod Zpos (Qden a) =? 0)%Z.

(** [Number.MAX_SAFE_INTEGER], 2^53 - 1 *)
Definition MAX_SAFE_INTEGER : Q := 9007199254740991.

(** [Number.isSafeInteger(a)] *)
Definition isSafeInteger (a : Q) : bool :=
  isInteger a && le (Qabs a) MAX_SAFE_INTEGER.

(** [xs.reduce((sum, x) => sum + f(x), 0)], with exact additions *)
Definition sumBy {A : Type} (f : A -> Q) (xs : list A) : Q :=
  fold_left (fun sum x => (sum + f x)%Q) xs 0%Q.

(** The lists on which no addition of that [reduce] rounds: the summands
    are non-negative safe integers and their total is a safe integer, so
    that every partial sum is an integer below 2^53 and the double the code
    holds is the exact sum. *)
Definition sums_exactly {A : Type} (f : A -> Q) (xs : list A) : bool :=
  forallb (fun x => isSafeInteger (f x) && ge (f x) 0) xs
  && le (sumBy f xs) MAX_SAFE_INTEGER.

(** [xs.includes(x)] on an array of strings *)
Definition includes (xs : list string) (x : string) : bool :=
  existsb (String.eqb x) xs.

(** The one-character string holding a double quote. *)
Definition dquote : string := String (ascii_of_nat 34) EmptyString.

(** [xs.join(sep)] *)
Fixpoint join (sep : string) (xs : list string) : string :=
  match xs with
  | [] => EmptyString
  | [x] => x
  | x :: rest => x +:+ sep +:+ join sep rest
  end.

End Js.

(** ** Untyped values: what [unknown] ranges over *)

Inductive json : Type :=
  | JNull
  | JBool (b : bool)
  | JNum (q : Q)
  | JStr (s : string)
  | JArr (items : list json)
  | JObj (fields : list (string * json)).

(** Property read [obj.k]; [None] is [undefined]. *)
Fixpoint prop (k : string) (fields : list (string * json)) : option json :=
  match fields with
  | [] => None
  | (k', v) :: rest => if String.eqb k k' then Some v else prop k rest
  end.

(** ** The strategy schema ([src/schemas/index.ts]) *)

Module Schemas.

Inductive ConditionType :=
  | price_below | price_above | funding_below | funding_above
  | volatility_above.

(** [action.type] is kept as the string it is at run time: [execute]
    compares it, on values that [JSON.parse(...) as StrategyDSL] did not
    check against the schema. *)
Definition ActionType : Set := string.

Definition swap : ActionType := "swap".

Inductive Direction := buy | sell.

Inductive ApprovalMode := approval_auto | approval_manual.

Definition ConditionTypeEnum : list (string * ConditionType) :=
  [("price_below", price_below); ("price_above", price_above);
   ("funding_below", funding_below); ("funding_above", funding_above);
   ("volatility_above", volatility_above)].

Definition ActionTypeEnum : list (string * ActionType) := [("swap", swap)].

Definition DirectionEnum : list (string * Direction) :=
  [("buy", buy); ("sell", sell)].

Definition ApprovalModeEnum : list (string * ApprovalMode) :=
  [("auto", approval_auto); ("manual", approval_manual)].

Definition ConditionType_name (t : ConditionType) : string :=
  match t with
  | price_below => "price_below"
  | price_above => "price_above"
  | funding_below => "funding_below"
  | funding_above => "funding_above"
  | volatility_above => "volatility_above"
  end.

Definition ActionType_name (t : ActionType) : string := t.

Definition Direction_name (d : Direction) : string :=
  match d with buy => "buy" | sell => "sell" end.

Definition ApprovalMode_name (m : ApprovalMode) : string :=
  match m with approval_auto => "auto" | approval_manual => "manual" end.

Record Condition := {
  cond_type : ConditionType;
  value : Q
}.

Record Action := {
  action_type : ActionType;
  amount_usdc : Q;
  direction : Direction
}.

Record Controls := {
  max_slippage_bps : Q;
  approval_mode : ApprovalMode;
  expires_in_minutes : Q
}.

Record StrategyDSL := {
  pair : string;
  conditions : list Condition;
  actions : list Action;
  controls : Controls
}.

(** *** Issues reported by the schema library *)

Inductive IssueCode :=
  | invalid_type | invalid_value | too_small | too_big.

Inductive PathElem := Key (k : string) | Index (i : nat).

Record Issue := {
  code : IssueCode;
  path : list PathElem
}.

Inductive SafeParseResult (A : Type) :=
  | Success (data : A)
  | Failure (issues : list Issue).
Arguments Success {A} data.
Arguments Failure {A} issues.

(** Issues of sibling fields are collected, not short-circuited. *)
Definition both {A B C : Type} (f : A -> B -> C)
    (ra : SafeParseResult A) (rb : SafeParseResult B) : SafeParseResult C :=
  match ra, rb with
  | Success a, Success b => Success (f a b)
  | Success _, Failure j => Failure j
  | Failure i, Success _ => Failure i
  | Failure i, Failure j => Failure (i ++ j)
  end.

Definition issue (c : IssueCode) (p : list PathElem) : Issue :=
  {| code := c; path := p |}.

(** What a check says of a number: it passes, or it raises an issue and
    says whether the checks after it still run ([continue]). *)
Inductive Verdict :=
  | Pass
  | Fail (code : IssueCode) (continue : bool).

Definition Refinement : Type := Q -> Verdict.

(** [.positive()] *)
Definition z_positive : Refinement :=
  fun q => if Js.gt q 0 then Pass else Fail too_small true.

(** [.int()]: a number that is not an integer is an [invalid_type] that
    stops the later checks; an integer outside the safe range is too big
    or too small. *)
Definition z_int : Refinement :=
  fun q =>
    if negb (Js.isInteger q) then Fail invalid_type false
    else if negb (Js.isSafeInteger q) then
      if Js.gt q 0 then Fail too_big true else Fail too_small true
    else Pass.

(** [.min(n)] *)
Definition z_min (n : Q) : Refinement :=
  fun q => if Js.ge q n then Pass else Fail too_small true.

(** [.max(n)] *)
Definition z_max (n : Q) : Refinement :=
  fun q => if Js.le q n then Pass else Fail too_big true.

(** The issues the checks raise, in order, up to the first that stops the
    run. *)
Fixpoint failed (checks : list Refinement) (p : list PathElem) (q : Q)
    : list Issue :=
  match checks with
  | [] => []
  | c :: rest =>
      match c q with
      | Pass => failed rest p q
      | Fail code true => issue code p :: failed rest p q
      | Fail code false => [issue code p]
      end
  end.

(** [z.number()] followed by refinements *)
Definition z_number (checks : list Refinement) (p : list PathElem)
    (v : option json) : SafeParseResult Q :=
  match v with
  | Some (JNum q) =>
      match failed checks p q with
      | [] => Success q
      | issues => Failure issues
      end
  | _ => Failure [issue invalid_type p]
  end.

(** [z.string().min(1)] *)
Definition z_string_min1 (p : list PathElem) (v : option json)
    : SafeParseResult string :=
  match v with
  | Some (JStr s) =>
      if (1 <=? String.length s)%nat then Success s
      else Failure [issue too_small p]
  | _ => Failure [issue invalid_type p]
  end.

Fixpoint option_of {A : Type} (options : list (string * A)) (s : string)
    : option A :=
  match options with
  | [] => None
  | (name, a) :: rest => if String.eqb s name then Some a else option_of rest s
  end.

(** [z.enum([...])] *)
Definition z_enum {A : Type} (options : list (string * A))
    (p : list PathElem) (v : option json) : SafeParseResult A :=
  match v with
  | Some (JStr s) =>
      match option_of options s with
      | Some a => Success a
      | None => Failure [issue invalid_value p]
      end
  | _ => Failure [issue invalid_value p]
  end.

(** Elements of an array, each parsed at its index. *)
Fixpoint z_items {A : Type}
    (elem : list PathElem -> option json -> SafeParseResult A)
    (p : list PathElem) (i : nat) (items : list json)
    : SafeParseResult (list A) :=
  match items with
  | [] => Success []
  | x :: rest =>
      both cons (elem (p ++ [Index i]) (Some x)) (z_items elem p (S i) rest)
  end.

(** [z.array(elem).min(1)] *)
Definition z_array_min1 {A : Type}
    (elem : list PathElem -> option json -> SafeParseResult A)
    (p : list PathElem) (v : option json) : SafeParseResult (list A) :=
  match v with
  | Some (JArr items) =>
      both (fun xs _ => xs)
        (z_items elem p 0 items)
        (if (1 <=? length items)%nat then Success tt
         else Failure [issue too_small p])
  | _ => Failure [issue invalid_type p]
  end.

Definition ConditionSchema (p : list PathElem) (v : option json)
    : SafeParseResult Condition :=
  match v with
  | Some (JObj o) =>
      both Build_Condition
        (z_enum ConditionTypeEnum (p ++ [Key "type"]) (prop "type" o))
        (z_number [z_positive] (p ++ [Key "value"]) (prop "value" o))
  | _ => Failure [issue invalid_type p]
  end.

Definition ActionSchema (p : list PathElem) (v : option json)
    : SafeParseResult Action :=
  match v with
  | Some (JObj o) =>
      both (fun f d => f d)
        (both Build_Action
           (z_enum ActionTypeEnum (p ++ [Key "type"]) (prop "type" o))
           (z_number [z_positive] (p ++ [Key "amount_usdc"])
              (prop "amount_usdc" o)))
        (z_enum DirectionEnum (p ++ [Key "direction"]) (prop "direction" o))
  | _ => Failure [issue invalid_type p]
  end.

Definition ControlsSchema (p : list PathElem) (v : option json)
    : SafeParseResult Controls :=
  match v with
  | Some (JObj o) =>
      both (fun f e => f e)
        (both Build_Controls
           (z_number [z_int; z_min 1; z_max 500] (p ++ [Key "max_slippage_bps"])
              (prop "max_slippage_bps" o))
           (z_enum ApprovalModeEnum (p ++ [Key "approval_mode"])
              (prop "approval_mode" o)))
        (z_number [z_int; z_positive] (p ++ [Key "expires_in_minutes"])
           (prop "expires_in_minutes" o))
  | _ => Failure [issue invalid_type p]
  end.

(** [StrategyDSLSchema.safeParse] *)
Definition safeParse (v : json) : SafeParseResult StrategyDSL :=
  match v with
  | JObj o =>
      both (fun f c => f c)
        (both (fun f a => f a)
           (both Build_StrategyDSL
              (z_string_min1 [Key "pair"] (prop "pair" o))
              (z_array_min1 ConditionSchema [Key "conditions"]
                 (prop "conditions" o)))
           (z_array_min1 ActionSchema [Key "actions"] (prop "actions" o)))
        (ControlsSchema [Key "controls"] (prop "controls" o))
  | _ => Failure [issue invalid_type []]
  end.

(** A typed strategy seen as an untyped value again (what a caller hands
    to a function that takes [unknown]). *)
Definition Condition_json (c : Condition) : json :=
  JObj [("type", JStr (ConditionType_name (cond_type c)));
        ("value", JNum (value c))].

Definition Action_json (a : Action) : json :=
  JObj [("type", JStr (ActionType_name (action_type a)));
        ("amount_usdc", JNum (amount_usdc a));
        ("direction", JStr (Direction_name (direction a)))].

Definition Controls_json (c : Controls) : json :=
  JObj [("max_slippage_bps", JNum (max_slippage_bps c));
        ("approval_mode", JStr (ApprovalMode_name (approval_mode c)));
        ("expires_in_minutes", JNum (expires_in_minutes c))].

Definition StrategyDSL_json (s : StrategyDSL) : json :=
  JObj [("pair", JStr (pair s));
        ("conditions", JArr (map Condition_json (conditions s)));
        ("actions", JArr (map Action_json (actions s)));
        ("controls", Controls_json (controls s))].

(** A strategy is well formed when it conforms to the schema. *)
Definition well_formed (s : StrategyDSL) : Prop :=
  safeParse (StrategyDSL_json s) = Success s.

End Schemas.

(** ** Built-ins of the runtime the code calls but does not define *)

Class NodeRuntime := {
  (** [String(n)] / template interpolation of a number *)
  Number_toString : Q -> string;
  (** [n.toFixed(digits)] *)
  Number_toFixed : Q -> nat -> string;
  (** [new Date(ms).toISOString()] *)
  toISOString : Q -> string;
  (** the [message] the schema library attaches to an issue *)
  issue_message : Schemas.Issue -> string;
  (** [JSON.stringify] and [JSON.parse(...) as StrategyDSL]; [None] when
      [JSON.parse] throws *)
  JSON_stringify : Schemas.StrategyDSL -> string;
  JSON_parse : string -> option Schemas.StrategyDSL;
  (** [crypto.createHash("sha256").update(s).digest("hex")] *)
  sha256_hex : string -> string;
  (** AES-256-GCM: [seal key iv plaintext] is the ciphertext and the
      authentication tag; [open key iv tag ciphertext] is [None] when
      [decipher.final()] throws *)
  gcm_seal : list byte -> list byte -> list byte -> list byte * list byte;
  gcm_open : list byte -> list byte -> list byte -> list byte
             -> option (list byte)
}.

(** What the code relies on from the cipher and from JSON: decryption under
    the sealing key returns the plaintext, and a well-formed strategy
    survives serialisation. *)
Class NodeRuntimeLaws (R : NodeRuntime) : Prop := {
  gcm_open_seal : forall key iv plaintext,
    gcm_open key iv (snd (gcm_seal key iv plaintext))
             (fst (gcm_seal key iv plaintext)) = Some plaintext;
  JSON_parse_stringify : forall s,
    Schemas.well_formed s -> JSON_parse (JSON_stringify s) = Some s
}.


(** ** The limit enforcer ([src/validation/index.ts]) *)

Module Validation.
Import Schemas.

Record ValidationLimits := {
  allowed_pairs : list string;
  max_spend_usdc : Q;
  max_slippage_bps : Q
}.

Inductive ValidationError :=
  | SchemaIssue (i : Issue)
  | PairNotInAllowlist (pair : string) (allowed : list string)
  | ActionExceedsCap (amount cap : Q)
  | ExpiryNotPositive.

Inductive ClampNote :=
  | SlippageClamped (from to : Q).

Record ValidationResult := {
  valid : bool;
  strategy : option StrategyDSL;
  errors : list ValidationError;
  clamped : list ClampNote
}.

(** [strategy.controls = { ...strategy.controls, max_slippage_bps: v }] *)
Definition with_max_slippage_bps (s : StrategyDSL) (v : Q) : StrategyDSL :=
  {| pair := pair s;
     conditions := conditions s;
     actions := actions s;
     controls :=
       {| Schemas.max_slippage_bps := v;
          approval_mode := approval_mode (controls s);
          expires_in_minutes := expires_in_minutes (controls s) |} |}.

Definition validateStrategy (dsl : json) (limits : ValidationLimits)
    : ValidationResult :=
  let errors : list ValidationError := [] in
  let clamped : list ClampNote := [] in
  (* 1. Schema validation *)
  match safeParse dsl with
  | Failure issues =>
      {| valid := false; strategy := None;
         errors := map SchemaIssue issues; clamped := [] |}
  | Success data =>
      let strategy := data in
      (* 2. Pair allowlist *)
      let errors :=
        if negb (Js.includes (allowed_pairs limits) (pair strategy))
        then errors ++ [PairNotInAllowlist (pair strategy)
                          (allowed_pairs limits)]
        else errors in
      (* 3. Slippage: clamp if above hard max *)
      let '(strategy, clamped) :=
        if Js.gt (Schemas.max_slippage_bps (controls strategy))
                 (max_slippage_bps limits)
        then (with_max_slippage_bps strategy (max_slippage_bps limits),
              clamped ++ [SlippageClamped
                            (Schemas.max_slippage_bps (controls strategy))
                            (max_slippage_bps limits)])
        else (strategy, clamped) in
      (* 4. Spend: reject if any action exceeds hard cap *)
      let errors :=
        fold_left
          (fun errors action =>
             if Js.gt (amount_usdc action) (max_spend_usdc limits)
             then errors ++ [ActionExceedsCap (amount_usdc action)
                               (max_spend_usdc limits)]
             else errors)
          (actions strategy) errors in
      (* 5. Expiry required *)
      let errors :=
        if Js.le (expires_in_minutes (controls strategy)) 0
        then errors ++ [ExpiryNotPositive]
        else errors in
      if (0 <? length errors)%nat
      then {| valid := false; strategy := None;
              errors := errors; clamped := clamped |}
      else {| valid := true; strategy := Some strategy;
              errors := []; clamped := clamped |}
  end.

(** *** The result described by parts, for the proofs *)

(** The spend errors of a list of actions, in order. *)
Definition spend_errors (cap : Q) (acts : list Action)
    : list ValidationError :=
  flat_map
    (fun a => if Js.gt (amount_usdc a) cap
              then [ActionExceedsCap (amount_usdc a) cap] else [])
    acts.

(** The strategy a successful validation returns. *)
Definition clamp (data : StrategyDSL) (limits : ValidationLimits)
    : StrategyDSL :=
  if Js.gt (Schemas.max_slippage_bps (controls data))
           (max_slippage_bps limits)
  then with_max_slippage_bps data (max_slippage_bps limits)
  else data.

(** What [validateStrategy] returns once the schema has accepted the value:
    the three kinds of error are gathered independently of one another and
    of the clamp. *)
Definition policy_errors (data : StrategyDSL) (limits : ValidationLimits)
    : list ValidationError :=
  (if negb (Js.includes (allowed_pairs limits) (pair data))
   then [PairNotInAllowlist (pair data) (allowed_pairs limits)] else [])
  ++ spend_errors (max_spend_usdc limits) (actions data)
  ++ (if Js.le (expires_in_minutes (controls data)) 0
      then [ExpiryNotPositive] else []).

Definition clamp_notes (data : StrategyDSL) (limits : ValidationLimits)
    : list ClampNote :=
  if Js.gt (Schemas.max_slippage_bps (controls data))
           (max_slippage_bps limits)
  then [SlippageClamped (Schemas.max_slippage_bps (controls data))
          (max_slippage_bps limits)]
  else [].

Section Messages.
Context `{NodeRuntime}.

Definition error_message (e : ValidationError) : string :=
  match e with
  | SchemaIssue i => issue_message i
  | PairNotInAllowlist pair allowed =>
      "Pair " +:+ Js.dquote +:+ pair +:+ Js.dquote
        +:+ " is not in the allowlist: ["
        +:+ Js.join ", " allowed +:+ "]"
  | ActionExceedsCap amount cap =>
      "Action amount " +:+ Number_toString amount
        +:+ " USDC exceeds hard cap of " +:+ Number_toString cap
        +:+ " USDC"
  | ExpiryNotPositive => "Expiry must be a positive number of minutes"
  end.

Definition clamp_message (c : ClampNote) : string :=
  match c with
  | SlippageClamped from to =>
      "max_slippage_bps clamped from " +:+ Number_toString from
        +:+ " to " +:+ Number_toString to
  end.
End Messages.

End Validation.

(** ** The risk re-checker ([src/risk/index.ts]) *)

Module Risk.
Import Schemas.

Record RiskConfig := {
  max_spend_usdc : Q;
  max_slippage_bps : Q;
  allowed_pairs : list string;
  max_expires_minutes : Q
}.

Inductive Violation :=
  | PairViolation (pair : string)
  | SpendViolation (totalSpend cap : Q)
  | SlippageViolation (slippage cap : Q)
  | ExpiryViolation (expiry cap : Q).

Record RiskCheckResult := {
  passed : bool;
  violations : list Violation
}.

(** [checkRisk(strategy, config)].  [totalSpend] is the exact sum: the
    number the code computes wherever no addition of the [reduce] rounds
    ([Js.sums_exactly]). *)
Definition checkRisk (strategy : StrategyDSL) (config : RiskConfig)
    : RiskCheckResult :=
  let violations : list Violation := [] in
  (* Pair allowlist *)
  let violations :=
    if negb (Js.includes (allowed_pairs config) (pair strategy))
    then violations ++ [PairViolation (pair strategy)]
    else violations in
  (* Spend cap *)
  let totalSpend := Js.sumBy amount_usdc (actions strategy) in
  let violations :=
    if Js.gt totalSpend (max_spend_usdc config)
    then violations ++ [SpendViolation totalSpend (max_spend_usdc config)]
    else violations in
  (* Slippage *)
  let violations :=
    if Js.gt (Schemas.max_slippage_bps (controls strategy))
             (max_slippage_bps config)
    then violations ++ [SlippageViolation
                          (Schemas.max_slippage_bps (controls strategy))
                          (max_slippage_bps config)]
    else violations in
  (* Expiry *)
  let violations :=
    if Js.gt (expires_in_minutes (controls strategy))
             (max_expires_minutes config)
    then violations ++ [ExpiryViolation
                          (expires_in_minutes (controls strategy))
                          (max_expires_minutes config)]
    else violations in
  {| passed := (length violations =? 0)%nat; violations := violations |}.

(** Whether a violation is the expiry one. *)
Definition is_expiry_violation (v : Violation) : bool :=
  match v with
  | ExpiryViolation _ _ => true
  | _ => false
  end.

Section Messages.
Context `{NodeRuntime}.

Definition violation_message (v : Violation) : string :=
  match v with
  | PairViolation pair =>
      "Pair " +:+ Js.dquote +:+ pair +:+ Js.dquote +:+ " not in allowlist"
  | SpendViolation totalSpend cap =>
      "Total spend " +:+ Number_toString totalSpend
        +:+ " USDC exceeds cap of " +:+ Number_toString cap +:+ " USDC"
  | SlippageViolation slippage cap =>
      "Slippage " +:+ Number_toString slippage
        +:+ " bps exceeds max of " +:+ Number_toString cap +:+ " bps"
  | ExpiryViolation expiry cap =>
      "Expiry " +:+ Number_toString expiry
        +:+ " min exceeds max of " +:+ Number_toString cap +:+ " min"
  end.
End Messages.

End Risk.

(** ** Calls that may throw (or promises that may reject) *)

Inductive Outcome (A : Type) :=
  | Returned (a : A)
  | Thrown (message : string).
Arguments Returned {A} a.
Arguments Thrown {A} message.

(** ** The encrypted intent handler ([src/encryption/index.ts]) *)

Module Encryption.
Import Schemas.

Definition KEY_LENGTH : nat := 32.
Definition IV_LENGTH : nat := 16.

Record PublicMetadata := {
  meta_intent_id : string;
  budget_cap_usdc : Q;
  meta_pair : string;
  expires_at : string;
  authorization_hash : string
}.

Record EncryptedIntent := {
  intent_id : string;
  encrypted_payload : string;
  iv : string;
  auth_tag : string;
  public_metadata : PublicMetadata;
  created_at : string
}.

(** *** Hex encoding of buffers *)

Definition hex_digit (n : N) : ascii :=
  match n with
  | 0 => "0" | 1 => "1" | 2 => "2" | 3 => "3" | 4 => "4" | 5 => "5"
  | 6 => "6" | 7 => "7" | 8 => "8" | 9 => "9" | 10 => "a" | 11 => "b"
  | 12 => "c" | 13 => "d" | 14 => "e" | _ => "f"
  end%N%char.

Definition hex_value (c : ascii) : option N :=
  let n := N_of_ascii c in
  if ((48 <=? n) && (n <=? 57))%N then Some (n - 48)%N
  else if ((97 <=? n) && (n <=? 102))%N then Some (n - 87)%N
  else if ((65 <=? n) && (n <=? 70))%N then Some (n - 55)%N
  else None.

(** [buf.toString("hex")] *)
Fixpoint toString_hex (buf : list byte) : string :=
  match buf with
  | [] => EmptyString
  | b :: rest =>
      String (hex_digit (Byte.to_N b / 16))
        (String (hex_digit (Byte.to_N b mod 16)) (toString_hex rest))
  end.

(** The byte two hex digits stand for. *)
Definition hex_pair (c1 c2 : ascii) : option byte :=
  match hex_value c1, hex_value c2 with
  | Some hi, Some lo => Byte.of_N (16 * hi + lo)
  | _, _ => None
  end.

(** [Buffer.from(s, "hex")]: decoding stops at the first pair that is not
    two hex digits. *)
Fixpoint Buffer_from_hex (s : string) : list byte :=
  match s with
  | String c1 (String c2 rest) =>
      match hex_pair c1 c2 with
      | Some b => b :: Buffer_from_hex rest
      | None => []
      end
  | _ => []
  end.

(** *** The handler *)

Record BiteIntentHandler := {
  key : list byte
}.

(** The values [encrypt] draws from outside: [uuidv4()],
    [crypto.randomBytes(IV_LENGTH)] and the two clock readings. *)
Record Entropy := {
  uuid : string;
  iv_bytes : list byte;
  now : Q;
  created : Q
}.

(** The largest time value of a [Date], in milliseconds either side of
    the epoch. *)
Definition MAX_TIME : Q := 8640000000000000.

(** Whether [new Date(t)] is a valid date; [toISOString] throws a
    [RangeError] on an invalid one. *)
Definition valid_time (t : Q) : bool := Js.le (Qabs t) MAX_TIME.

(** [Date.now() + strategy.controls.expires_in_minutes * 60_000] *)
Definition expires_ms (e : Entropy) (strategy : StrategyDSL) : Q :=
  (now e + expires_in_minutes (controls strategy) * 60000)%Q.

Section WithRuntime.
Context `{NodeRuntime}.

Definition encrypt (this : BiteIntentHandler) (strategy : StrategyDSL)
    (e : Entropy) : Outcome EncryptedIntent :=
  let intentId := uuid e in
  let iv := iv_bytes e in
  (* createCipheriv rejects a key that is not KEY_LENGTH bytes *)
  if negb (length (key this) =? KEY_LENGTH)%nat
  then Thrown "Invalid key length"
  else
    let plaintext := JSON_stringify strategy in
    let sealed := gcm_seal (key this) iv (list_byte_of_string plaintext) in
    let encrypted := fst sealed in
    let authTag := snd sealed in
    (* new Date(...).toISOString() rejects a time outside the Date range *)
    if negb (valid_time (expires_ms e strategy))
    then Thrown "Invalid time value"
    else
    let expiresAt := toISOString (expires_ms e strategy) in
    let totalSpend := Js.sumBy amount_usdc (actions strategy) in
    let authorizationHash :=
      sha256_hex (intentId +:+ toString_hex encrypted) in
    Returned
      {| intent_id := intentId;
         encrypted_payload := toString_hex encrypted;
         iv := toString_hex iv;
         auth_tag := toString_hex authTag;
         public_metadata :=
           {| meta_intent_id := intentId;
              budget_cap_usdc := totalSpend;
              meta_pair := pair strategy;
              expires_at := expiresAt;
              authorization_hash := authorizationHash |};
         created_at := toISOString (created e) |}.

Definition decrypt (this : BiteIntentHandler) (intent : EncryptedIntent)
    : Outcome StrategyDSL :=
  let iv := Buffer_from_hex (iv intent) in
  let authTag := Buffer_from_hex (auth_tag intent) in
  let encrypted := Buffer_from_hex (encrypted_payload intent) in
  if negb (length (key this) =? KEY_LENGTH)%nat
  then Thrown "Invalid key length"
  else
    match gcm_open (key this) iv authTag encrypted with
    | None => Thrown "Unsupported state or unable to authenticate data"
    | Some decrypted =>
        match JSON_parse (string_of_list_byte decrypted) with
        | Some strategy => Returned strategy
        | None => Thrown "Unexpected token in JSON"
        end
    end.

End WithRuntime.

End Encryption.

(** ** Objects and arrays held by reference *)

Module Store.
Section Cells.
Context {A : Type}.

(** A location holds either an object with fields [A] or an array of
    references to such objects. *)
Inductive cell :=
  | Obj (v : A)
  | Arr (elems : list nat).

(** Allocation returns the next unused location. *)
Definition alloc (st : list cell) (c : cell) : nat * list cell :=
  (length st, st ++ [c]).

(** [r.field] reads *)
Definition get (st : list cell) (r : nat) : option A :=
  match st !! r with
  | Some (Obj v) => Some v
  | _ => None
  end.

(** The references an array holds. *)
Definition elems_of (st : list cell) (a : nat) : list nat :=
  match st !! a with
  | Some (Arr es) => es
  | _ => []
  end.

(** [r.field = ...]: the object at [r] becomes [f] of itself. *)
Definition update (st : list cell) (r : nat) (f : A -> A) : list cell :=
  match st !! r with
  | Some (Obj v) => <[r := Obj (f v)]> st
  | _ => st
  end.

(** Any in-place change of the array at [a]. *)
Definition set_elems (st : list cell) (a : nat) (es : list nat) : list cell :=
  match st !! a with
  | Some (Arr _) => <[a := Arr es]> st
  | _ => st
  end.

(** [a.push(r)] *)
Definition push (st : list cell) (a r : nat) : list cell :=
  set_elems st a (elems_of st a ++ [r]).

(** [[...a]] *)
Definition spread (st : list cell) (a : nat) : nat * list cell :=
  alloc st (Arr (elems_of st a)).

(** The objects an array refers to, read through the store. *)
Definition contents (st : list cell) (a : nat) : list A :=
  omap (get st) (elems_of st a).

(** The array at [a] exists and refers to objects only. *)
Definition is_array (st : list cell) (a : nat) : Prop :=
  exists es, st !! a = Some (Arr es).

Definition array_ok (st : list cell) (a : nat) : Prop :=
  is_array st a /\ Forall (fun r => is_Some (get st r)) (elems_of st a).

(** The array at [a] is well formed and refers only to objects made
    before [fresh]. *)
Definition owned (st : list cell) (a fresh : nat) : Prop :=
  array_ok st a /\ Forall (fun r => r < fresh) (elems_of st a).

(** What code outside the owner can do with references it holds. *)
Inductive CallerOp :=
  | ArrayWrite (a : nat) (es : list nat)
  | FieldWrite (r : nat) (f : A -> A)
  | NewObject (v : A).

Definition caller_step (st : list cell) (op : CallerOp) : list cell :=
  match op with
  | ArrayWrite a es => set_elems st a es
  | FieldWrite r f => update st r f
  | NewObject v => snd (alloc st (Obj v))
  end.

Definition caller_run (st : list cell) (ops : list CallerOp) : list cell :=
  fold_left caller_step ops st.

(** An operation acts on the value handed out: on the array [a] itself or
    on an object the array refers to. *)
Definition on_returned_value (st : list cell) (a : nat) (op : CallerOp) : Prop :=
  match op with
  | ArrayWrite a' _ => a' = a
  | FieldWrite r _ => In r (elems_of st a)
  | NewObject _ => True
  end.

(** An operation stays on the array [a] handed out and on objects the
    caller made itself (those at or after [fresh]). *)
Definition on_returned_array (a fresh : nat) (op : CallerOp) : Prop :=
  match op with
  | ArrayWrite a' _ => a' = a
  | FieldWrite r _ => fresh <= r
  | NewObject _ => True
  end.
End Cells.
Arguments cell A : clear implicits.
Arguments CallerOp A : clear implicits.

(** A store of objects with fields [A]. *)
Abbreviation store A := (list (cell A)).
End Store.

(** ** The x402 payment client ([src/payment/x402-client.ts]) *)

Module Payment.

Inductive PaymentStatus := success | failed.

Record PaymentRecord := {
  tool : string;
  cost_usdc : Q;
  tx_hash : string;
  timestamp : string;
  status : PaymentStatus
}.

Definition is_success (r : PaymentRecord) : bool :=
  match status r with success => true | failed => false end.

(** [record.status = s] *)
Definition with_status (s : PaymentStatus) (r : PaymentRecord)
    : PaymentRecord :=
  {| tool := tool r; cost_usdc := cost_usdc r; tx_hash := tx_hash r;
     timestamp := timestamp r; status := s |}.

(** The client: its private [records] array, and the store the array and
    the records live in. *)
Record X402PaymentClient := {
  records : nat;
  heap : Store.store PaymentRecord
}.

(** [new X402PaymentClient()] in a given store *)
Definition new (st : Store.store PaymentRecord) : X402PaymentClient :=
  let '(a, st) := Store.alloc st (Store.Arr []) in
  {| records := a; heap := st |}.

Definition with_heap (this : X402PaymentClient)
    (st : Store.store PaymentRecord) : X402PaymentClient :=
  {| records := records this; heap := st |}.

(** An HTTP response: its status code and what [json()] resolves to. *)
Record Response := {
  http_status : nat;
  json_body : Outcome json
}.

Definition ok (r : Response) : bool :=
  ((200 <=? http_status r) && (http_status r <=? 299))%nat.

(** What one call of [fetchWithPayment] meets outside: the first
    response, the response to the retry carrying the payment header, and
    the clock. *)
Record World := {
  first_fetch : Outcome Response;
  retry_fetch : string -> Outcome Response;
  clock : Q
}.

Section WithRuntime.
Context `{NodeRuntime}.

Definition status_text (r : Response) : string :=
  Number_toString (inject_Z (Z.of_nat (http_status r))).

Definition fetchWithPayment (this : X402PaymentClient)
    (toolUrl : string) (signPayment : Q -> Outcome string)
    (toolCostUsdc : Q) (w : World)
    : Outcome json * X402PaymentClient :=
  (* First attempt: expect 402 *)
  match first_fetch w with
  | Thrown e => (Thrown e, this)
  | Returned firstResponse =>
      if (http_status firstResponse =? 402)%nat then
        (* Sign payment *)
        match signPayment toolCostUsdc with
        | Thrown e => (Thrown e, this)
        | Returned txHash =>
            let '(record, st) :=
              Store.alloc (heap this)
                (Store.Obj
                   {| tool := toolUrl;
                      cost_usdc := toolCostUsdc;
                      tx_hash := txHash;
                      timestamp := toISOString (clock w);
                      status := success |}) in
            (* Retry with payment proof *)
            match retry_fetch w txHash with
            | Thrown e => (Thrown e, with_heap this st)
            | Returned retryResponse =>
                if negb (ok retryResponse) then
                  let st := Store.update st record (with_status failed) in
                  let st := Store.push st (records this) record in
                  (Thrown ("Paid tool retry failed: HTTP "
                             +:+ status_text retryResponse),
                   with_heap this st)
                else
                  let st := Store.push st (records this) record in
                  (json_body retryResponse, with_heap this st)
            end
        end
      else if negb (ok firstResponse) then
        (Thrown ("Tool request failed: HTTP "
                   +:+ status_text firstResponse), this)
      else (json_body firstResponse, this)
  end.
End WithRuntime.

(** [getPaymentRecords()]: the location of a new array. *)
Definition getPaymentRecords (this : X402PaymentClient)
    : nat * X402PaymentClient :=
  let '(copy, st) := Store.spread (heap this) (records this) in
  (copy, with_heap this st).

(** [getTotalSpent()] *)
Definition getTotalSpent (this : X402PaymentClient) : Q :=
  Js.sumBy cost_usdc
    (List.filter is_success (Store.contents (heap this) (records this))).

(** The records a caller finds in an array it was handed. *)
Definition read (this : X402PaymentClient) (a : nat) : list PaymentRecord :=
  Store.contents (heap this) a.

(** The ledger as the client itself reads it. *)
Definition ledger (this : X402PaymentClient) : list PaymentRecord :=
  Store.contents (heap this) (records this).

Definition well_formed (this : X402PaymentClient) : Prop :=
  Store.array_ok (heap this) (records this).

(** Code outside the client acting on the shared store. *)
Definition outside (this : X402PaymentClient)
    (ops : list (Store.CallerOp PaymentRecord)) : X402PaymentClient :=
  with_heap this (Store.caller_run (heap this) ops).

(** The specification's reading of total spend: add the cost of each
    record whose status is [success]. *)
Fixpoint sum_of_successful (rs : list PaymentRecord) : Q :=
  match rs with
  | [] => 0
  | r :: rest =>
      match status r with
      | success => cost_usdc r + sum_of_successful rest
      | failed => sum_of_successful rest
      end
  end%Q.

(** *** Histories: the calls made on a client since it was created *)

Section Histories.
Context `{NodeRuntime}.

Inductive Call :=
  | CallFetchWithPayment (toolUrl : string)
      (signPayment : Q -> Outcome string) (toolCostUsdc : Q) (w : World)
  | CallGetPaymentRecords.

Definition perform (this : X402PaymentClient) (c : Call)
    : X402PaymentClient :=
  match c with
  | CallFetchWithPayment toolUrl signPayment toolCostUsdc w =>
      snd (fetchWithPayment this toolUrl signPayment toolCostUsdc w)
  | CallGetPaymentRecords => snd (getPaymentRecords this)
  end.

Definition after (calls : list Call) : X402PaymentClient :=
  fold_left perform calls (new []).
End Histories.

End Payment.

(** ** The economic reasoning engine ([src/economic/reasoning-engine.ts]) *)

Module Economic.

Inductive Decision := proceed | skip.

Record ReasonCode := {
  tool : string;
  cost_usdc : Q;
  budget_remaining_usdc : Q;
  decision : Decision;
  reason : string
}.

Record EconomicReasoningEngine := {
  budgetRemaining : Q;
  reasonCodes : nat;
  heap : Store.store ReasonCode
}.

(** [new EconomicReasoningEngine(initialBudget)] in a given store *)
Definition new (initialBudget : Q) (st : Store.store ReasonCode)
    : EconomicReasoningEngine :=
  let '(a, st) := Store.alloc st (Store.Arr []) in
  {| budgetRemaining := initialBudget; reasonCodes := a; heap := st |}.

Section WithRuntime.
Context `{NodeRuntime}.

Definition shouldPurchase (this : EconomicReasoningEngine)
    (toolName : string) (costUsdc : Q)
    : bool * EconomicReasoningEngine :=
  let canAfford := Js.ge (budgetRemaining this) costUsdc in
  let decision := if canAfford then proceed else skip in
  let reason :=
    if canAfford
    then toolName +:+ " costs $" +:+ Number_toFixed costUsdc 2
           +:+ ". Budget remaining $"
           +:+ Number_toFixed (budgetRemaining this) 2
           +:+ ". Proceeding."
    else toolName +:+ " costs $" +:+ Number_toFixed costUsdc 2
           +:+ ". Budget remaining $"
           +:+ Number_toFixed (budgetRemaining this) 2
           +:+ ". Skipping." in
  let '(code, st) :=
    Store.alloc (heap this)
      (Store.Obj
         {| tool := toolName;
            cost_usdc := costUsdc;
            budget_remaining_usdc := budgetRemaining this;
            decision := decision;
            reason := reason |}) in
  let st := Store.push st (reasonCodes this) code in
  (canAfford,
   {| budgetRemaining := budgetRemaining this;
      reasonCodes := reasonCodes this;
      heap := st |}).
(** The reason code a decision appends. *)
Definition decision_code (this : EconomicReasoningEngine)
    (toolName : string) (costUsdc : Q) : ReasonCode :=
  let canAfford := Js.ge (budgetRemaining this) costUsdc in
  {| tool := toolName;
     cost_usdc := costUsdc;
     budget_remaining_usdc := budgetRemaining this;
     decision := if canAfford then proceed else skip;
     reason :=
       if canAfford
       then toolName +:+ " costs $" +:+ Number_toFixed costUsdc 2
              +:+ ". Budget remaining $"
              +:+ Number_toFixed (budgetRemaining this) 2
              +:+ ". Proceeding."
       else toolName +:+ " costs $" +:+ Number_toFixed costUsdc 2
              +:+ ". Budget remaining $"
              +:+ Number_toFixed (budgetRemaining this) 2
              +:+ ". Skipping." |}.

End WithRuntime.

(** [recordSpend(amount)].  The difference is the exact one: the number
    the code holds wherever the subtraction does not round
    ([Accounting.exact_books]). *)
Definition recordSpend (this : EconomicReasoningEngine) (amount : Q)
    : EconomicReasoningEngine :=
  {| budgetRemaining := (budgetRemaining this - amount)%Q;
     reasonCodes := reasonCodes this;
     heap := heap this |}.

(** [getBudgetRemaining()] *)
Definition getBudgetRemaining (this : EconomicReasoningEngine) : Q :=
  budgetRemaining this.

(** [getReasonCodes()]: the location of a new array. *)
Definition getReasonCodes (this : EconomicReasoningEngine)
    : nat * EconomicReasoningEngine :=
  let '(copy, st) := Store.spread (heap this) (reasonCodes this) in
  (copy,
   {| budgetRemaining := budgetRemaining this;
      reasonCodes := reasonCodes this;
      heap := st |}).

Definition read (this : EconomicReasoningEngine) (a : nat)
    : list ReasonCode :=
  Store.contents (heap this) a.

Definition ledger (this : EconomicReasoningEngine) : list ReasonCode :=
  Store.contents (heap this) (reasonCodes this).

Definition well_formed (this : EconomicReasoningEngine) : Prop :=
  Store.array_ok (heap this) (reasonCodes this).

Definition outside (this : EconomicReasoningEngine)
    (ops : list (Store.CallerOp ReasonCode)) : EconomicReasoningEngine :=
  {| budgetRemaining := budgetRemaining this;
     reasonCodes := reasonCodes this;
     heap := Store.caller_run (heap this) ops |}.

(** *** Histories: the calls made on an engine since it was created *)

Section Histories.
Context `{NodeRuntime}.

Inductive Call :=
  | CallShouldPurchase (toolName : string) (costUsdc : Q)
  | CallRecordSpend (amount : Q)
  | CallGetReasonCodes.

Definition perform (this : EconomicReasoningEngine) (c : Call)
    : EconomicReasoningEngine :=
  match c with
  | CallShouldPurchase toolName costUsdc =>
      snd (shouldPurchase this toolName costUsdc)
  | CallRecordSpend amount => recordSpend this amount
  | CallGetReasonCodes => snd (getReasonCodes this)
  end.

Definition after (initialBudget : Q) (calls : list Call)
    : EconomicReasoningEngine :=
  fold_left perform calls (new initialBudget []).
End Histories.

End Economic.

(** ** The trade executor ([src/execution/trade-executor.ts]) *)

Module Execution.
Import Schemas.

Record ExecutionResult := {
  success : bool;
  tx_hash : option string;
  error : option string
}.

Record TradeExecutor := {
  simulate : bool
}.

(** [new TradeExecutor(options)]: [options?.simulate ?? true] *)
Definition new (options : option (option bool)) : TradeExecutor :=
  {| simulate :=
       match options with
       | Some (Some b) => b
       | _ => true
       end |}.

Section WithRuntime.
Context `{NodeRuntime}.

(** [salt] is [crypto.randomBytes(16)]. *)
Definition execute (this : TradeExecutor) (strategy : StrategyDSL)
    (salt : list byte) : ExecutionResult :=
  if (length (actions strategy) =? 0)%nat then
    {| success := false; tx_hash := None;
       error := Some "No actions to execute" |}
  else
    match
      List.find
        (fun action =>
           negb (String.eqb (ActionType_name (action_type action)) "swap"))
        (actions strategy)
    with
    | Some action =>
        {| success := false; tx_hash := None;
           error := Some ("Unsupported action type: "
                            +:+ ActionType_name (action_type action)) |}
    | None =>
        if simulate this then
          let txHash :=
            "0x" +:+ sha256_hex (JSON_stringify strategy
                                   +:+ Encryption.toString_hex salt) in
          {| success := true; tx_hash := Some txHash; error := None |}
        else
          {| success := false; tx_hash := None;
             error := Some "Real execution not yet implemented" |}
    end.
End WithRuntime.

End Execution.

(** ** The parser adapter ([src/parser/parser-adapter.ts]) *)

Module Parser.

Record ParserMetadata := {
  model : string;
  confidence : Q
}.

Record ParserOutput := {
  strategy_dsl : json;
  explanation : string;
  risk_notes : list string;
  parser_metadata : ParserMetadata
}.

Record ParserContext := {
  allowed_pairs : list string;
  max_spend_usdc_hard : Q;
  max_slippage_bps_hard : Q
}.

Record ParserInput := {
  user_prompt : string;
  context : ParserContext
}.

Record ParserConfig := {
  endpoint : string;
  timeout_ms : option Q
}.

Definition DEFAULT_TIMEOUT_MS : Q := 10000.

Record ParserAdapter := {
  adapter_endpoint : string;
  timeoutMs : Q
}.

Definition new (config : ParserConfig) : ParserAdapter :=
  {| adapter_endpoint := endpoint config;
     timeoutMs := match timeout_ms config with
                  | Some t => t
                  | None => DEFAULT_TIMEOUT_MS
                  end |}.

Record Response := {
  http_status : nat;
  statusText : string;
  json_body : Outcome ParserOutput
}.

Definition ok (r : Response) : bool :=
  ((200 <=? http_status r) && (http_status r <=? 299))%nat.

(** How the request to the endpoint ends. *)
Inductive Fetch :=
  | Responded (r : Response)
  | Aborted
  | Rejected (message : string).

Section WithRuntime.
Context `{NodeRuntime}.

Definition parse (this : ParserAdapter) (input : ParserInput)
    (fetch : Fetch) : Outcome ParserOutput :=
  match fetch with
  | Aborted =>
      Thrown ("Parser timed out after "
                +:+ Number_toString (timeoutMs this) +:+ "ms")
  | Rejected e => Thrown e
  | Responded response =>
      if negb (ok response) then
        Thrown ("Parser returned HTTP "
                  +:+ Number_toString
                        (inject_Z (Z.of_nat (http_status response)))
                  +:+ ": " +:+ statusText response)
      else
        match json_body response with
        | Thrown e => Thrown e
        | Returned body =>
            (* Validate the DSL portion: parser is untrusted *)
            match Schemas.safeParse (strategy_dsl body) with
            | Schemas.Failure issues =>
                Thrown (Js.join "; " (map issue_message issues))
            | Schemas.Success _ => Returned body
            end
        end
  end.
End WithRuntime.

End Parser.

(** ** The receipt logger ([src/receipt/receipt-logger.ts]) *)

Module Receipt.

Inductive ReceiptStatus := executed | aborted | expired.

Record ParserSummary := {
  explanation : string;
  risk_notes : list string;
  parser_metadata : Parser.ParserMetadata
}.

Record ExecutionReceipt := {
  intent_id : string;
  raw_user_prompt : string;
  parser_output : ParserSummary;
  validated_strategy : json;
  encrypted_intent_hash : string;
  payments : list Payment.PaymentRecord;
  reason_codes : list Economic.ReasonCode;
  conditions_met : bool;
  execution_tx_hash : option string;
  total_spend_usdc : Q;
  status : ReceiptStatus;
  timestamp : string
}.

Record Params := {
  intentId : string;
  rawPrompt : string;
  parserOutput : Parser.ParserOutput;
  validatedStrategy : json;
  encryptedIntentPayload : string;
  params_payments : list Payment.PaymentRecord;
  reasonCodes : list Economic.ReasonCode;
  conditionsMet : bool;
  executionTxHash : option string;
  totalSpendUsdc : Q;
  params_status : ReceiptStatus
}.

Section WithRuntime.
Context `{NodeRuntime}.

(** [clock] is the reading of [new Date()]. *)
Definition buildReceipt (params : Params) (clock : Q) : ExecutionReceipt :=
  {| intent_id := intentId params;
     raw_user_prompt := rawPrompt params;
     parser_output :=
       {| explanation := Parser.explanation (parserOutput params);
          risk_notes := Parser.risk_notes (parserOutput params);
          parser_metadata := Parser.parser_metadata (parserOutput params) |};
     validated_strategy := validatedStrategy params;
     encrypted_intent_hash := sha256_hex (encryptedIntentPayload params);
     payments := params_payments params;
     reason_codes := reasonCodes params;
     conditions_met := conditionsMet params;
     execution_tx_hash := executionTxHash params;
     total_spend_usdc := totalSpendUsdc params;
     status := params_status params;
     timestamp := toISOString clock |}.
End WithRuntime.

End Receipt.

(** ** The workflow orchestrator ([src/workflow/agent-workflow.ts]) *)

Module Workflow.
Import Schemas.

Record WorkflowConfig := {
  parser_endpoint : string;
  parser_timeout_ms : option Q;
  allowed_pairs : list string;
  max_spend_usdc_hard : Q;
  max_slippage_bps_hard : Q;
  budget_usdc : Q;
  polling_interval_ms : option Q;
  polling_timeout_ms : option Q
}.

(** [{ ...config, parser_endpoint: e }] *)
Definition with_parser_endpoint (config : WorkflowConfig) (e : string)
    : WorkflowConfig :=
  {| parser_endpoint := e;
     parser_timeout_ms := parser_timeout_ms config;
     allowed_pairs := allowed_pairs config;
     max_spend_usdc_hard := max_spend_usdc_hard config;
     max_slippage_bps_hard := max_slippage_bps_hard config;
     budget_usdc := budget_usdc config;
     polling_interval_ms := polling_interval_ms config;
     polling_timeout_ms := polling_timeout_ms config |}.

(** [encryptedIntent] is [None] where the code returns [null]. *)
Record WorkflowResult := {
  receipt : Receipt.ExecutionReceipt;
  encryptedIntent : option Encryption.EncryptedIntent
}.

Record AgentWorkflow := {
  config : WorkflowConfig;
  parser : Parser.ParserAdapter;
  bite : Encryption.BiteIntentHandler;
  executor : Execution.TradeExecutor
}.

(** [new AgentWorkflow(config, encryptionKey)]; [randomKey] is the
    [crypto.randomBytes(KEY_LENGTH)] drawn when no key is given. *)
Definition new (config : WorkflowConfig)
    (encryptionKey : option (list byte)) (randomKey : list byte)
    : AgentWorkflow :=
  {| config := config;
     parser :=
       Parser.new {| Parser.endpoint := parser_endpoint config;
                     Parser.timeout_ms := parser_timeout_ms config |};
     bite :=
       {| Encryption.key := match encryptionKey with
                            | Some k => k
                            | None => randomKey
                            end |};
     executor := Execution.new (Some (Some true)) |}.

(** The collaborators a run calls, in the order it calls them. *)
Inductive Event :=
  | ParserCalled
  | ValidatorCalled
  | EncryptCalled
  | ConditionCheckerCalled (strategy : StrategyDSL)
  | DecryptCalled
  | RiskCheckCalled
  | ExecutorCalled
  | ReceiptBuilt (status : Receipt.ReceiptStatus).

(** A computation that logs the calls it makes and may throw. *)
Definition Run (A : Type) : Type := list Event -> Outcome A * list Event.

Definition ret {A : Type} (a : A) : Run A := fun log => (Returned a, log).

Definition bind {A B : Type} (m : Run A) (k : A -> Run B) : Run B :=
  fun log =>
    match m log with
    | (Returned a, log') => k a log'
    | (Thrown e, log') => (Thrown e, log')
    end.

(** Make a call: log it, then continue with what it returns or throw
    what it throws. *)
Definition call {A : Type} (e : Event) (result : Outcome A) : Run A :=
  fun log => (result, log ++ [e]).

Notation "'let*' x := m 'in' k" := (bind m (fun x => k))
  (at level 10, x name, m at level 200, k at level 200).

(** What one run meets outside. *)
Record World := {
  parser_fetch : Parser.Fetch;
  entropy : Encryption.Entropy;
  execution_salt : list byte;
  receipt_clock : Q
}.

Section WithRuntime.
Context `{NodeRuntime}.

Definition buildReceipt (params : Receipt.Params) (w : World)
    : Run Receipt.ExecutionReceipt :=
  call (ReceiptBuilt (Receipt.params_status params))
       (Returned (Receipt.buildReceipt params (receipt_clock w))).

Definition run (this : AgentWorkflow) (userPrompt : string)
    (conditionChecker : StrategyDSL -> Outcome bool) (w : World)
    : Run WorkflowResult :=
  (* 1. Parse strategy *)
  let* parserOutput :=
    call ParserCalled
      (Parser.parse (parser this)
         {| Parser.user_prompt := userPrompt;
            Parser.context :=
              {| Parser.allowed_pairs := allowed_pairs (config this);
                 Parser.max_spend_usdc_hard :=
                   max_spend_usdc_hard (config this);
                 Parser.max_slippage_bps_hard :=
                   max_slippage_bps_hard (config this) |} |}
         (parser_fetch w)) in
  (* 2. Validate and enforce hard limits *)
  let* validation :=
    call ValidatorCalled
      (Returned
         (Validation.validateStrategy (Parser.strategy_dsl parserOutput)
            {| Validation.allowed_pairs := allowed_pairs (config this);
               Validation.max_spend_usdc :=
                 max_spend_usdc_hard (config this);
               Validation.max_slippage_bps :=
                 max_slippage_bps_hard (config this) |})) in
  match Validation.valid validation, Validation.strategy validation with
  | true, Some strategy =>
      (* 3. Encrypt strategy *)
      let* encryptedIntent :=
        call EncryptCalled
          (Encryption.encrypt (bite this) strategy (entropy w)) in
      (* 4. Poll conditions *)
      let* conditionsMet :=
        call (ConditionCheckerCalled strategy)
             (conditionChecker strategy) in
      if negb conditionsMet then
        let* receipt :=
          buildReceipt
            {| Receipt.intentId := Encryption.intent_id encryptedIntent;
               Receipt.rawPrompt := userPrompt;
               Receipt.parserOutput := parserOutput;
               Receipt.validatedStrategy := StrategyDSL_json strategy;
               Receipt.encryptedIntentPayload :=
                 Encryption.encrypted_payload encryptedIntent;
               Receipt.params_payments := [];
               Receipt.reasonCodes := [];
               Receipt.conditionsMet := false;
               Receipt.executionTxHash := None;
               Receipt.totalSpendUsdc := 0;
               Receipt.params_status := Receipt.expired |} w in
        ret {| receipt := receipt;
               encryptedIntent := Some encryptedIntent |}
      else
        (* 5. Decrypt intent *)
        let* decrypted :=
          call DecryptCalled
            (Encryption.decrypt (bite this) encryptedIntent) in
        (* 6. Re-validate risk at execution time *)
        let* riskCheck :=
          call RiskCheckCalled
            (Returned
               (Risk.checkRisk decrypted
                  {| Risk.max_spend_usdc :=
                       max_spend_usdc_hard (config this);
                     Risk.max_slippage_bps :=
                       max_slippage_bps_hard (config this);
                     Risk.allowed_pairs := allowed_pairs (config this);
                     Risk.max_expires_minutes :=
                       expires_in_minutes (controls decrypted) |})) in
        if negb (Risk.passed riskCheck) then
          let* receipt :=
            buildReceipt
              {| Receipt.intentId := Encryption.intent_id encryptedIntent;
                 Receipt.rawPrompt := userPrompt;
                 Receipt.parserOutput := parserOutput;
                 Receipt.validatedStrategy := StrategyDSL_json strategy;
                 Receipt.encryptedIntentPayload :=
                   Encryption.encrypted_payload encryptedIntent;
                 Receipt.params_payments := [];
                 Receipt.reasonCodes := [];
                 Receipt.conditionsMet := true;
                 Receipt.executionTxHash := None;
                 Receipt.totalSpendUsdc := 0;
                 Receipt.params_status := Receipt.aborted |} w in
          ret {| receipt := receipt;
                 encryptedIntent := Some encryptedIntent |}
        else
          (* 7. Execute trade *)
          let* executionResult :=
            call ExecutorCalled
              (Returned
                 (Execution.execute (executor this) decrypted
                    (execution_salt w))) in
          let totalSpend := Js.sumBy amount_usdc (actions decrypted) in
          (* 8. Build receipt *)
          let* receipt :=
            buildReceipt
              {| Receipt.intentId := Encryption.intent_id encryptedIntent;
                 Receipt.rawPrompt := userPrompt;
                 Receipt.parserOutput := parserOutput;
                 Receipt.validatedStrategy := StrategyDSL_json strategy;
                 Receipt.encryptedIntentPayload :=
                   Encryption.encrypted_payload encryptedIntent;
                 Receipt.params_payments := [];
                 Receipt.reasonCodes := [];
                 Receipt.conditionsMet := true;
                 Receipt.executionTxHash :=
                   Execution.tx_hash executionResult;
                 Receipt.totalSpendUsdc := totalSpend;
                 Receipt.params_status :=
                   if Execution.success executionResult
                   then Receipt.executed else Receipt.aborted |} w in
          ret {| receipt := receipt;
                 encryptedIntent := Some encryptedIntent |}
  | _, _ =>
      let* receipt :=
        buildReceipt
          {| Receipt.intentId := "none";
             Receipt.rawPrompt := userPrompt;
             Receipt.parserOutput := parserOutput;
             Receipt.validatedStrategy := Parser.strategy_dsl parserOutput;
             Receipt.encryptedIntentPayload := EmptyString;
             Receipt.params_payments := [];
             Receipt.reasonCodes := [];
             Receipt.conditionsMet := false;
             Receipt.executionTxHash := None;
             Receipt.totalSpendUsdc := 0;
             Receipt.params_status := Receipt.aborted |} w in
      ret {| receipt := receipt; encryptedIntent := None |}
  end.
(** The receipt of a run that stops at validation. *)
Definition rejection_receipt (userPrompt : string)
    (parserOutput : Parser.ParserOutput) (w : World)
    : Receipt.ExecutionReceipt :=
  Receipt.buildReceipt
    {| Receipt.intentId := "none";
       Receipt.rawPrompt := userPrompt;
       Receipt.parserOutput := parserOutput;
       Receipt.validatedStrategy := Parser.strategy_dsl parserOutput;
       Receipt.encryptedIntentPayload := EmptyString;
       Receipt.params_payments := [];
       Receipt.reasonCodes := [];
       Receipt.conditionsMet := false;
       Receipt.executionTxHash := None;
       Receipt.totalSpendUsdc := 0;
       Receipt.params_status := Receipt.aborted |}
    (receipt_clock w).

End WithRuntime.

(** The request the orchestrator sends to the parser. *)
Definition parser_input (this : AgentWorkflow) (userPrompt : string)
    : Parser.ParserInput :=
  {| Parser.user_prompt := userPrompt;
     Parser.context :=
       {| Parser.allowed_pairs := allowed_pairs (config this);
          Parser.max_spend_usdc_hard := max_spend_usdc_hard (config this);
          Parser.max_slippage_bps_hard :=
            max_slippage_bps_hard (config this) |} |}.

(** The limits the orchestrator validates against. *)
Definition hard_limits (this : AgentWorkflow) : Validation.ValidationLimits :=
  {| Validation.allowed_pairs := allowed_pairs (config this);
     Validation.max_spend_usdc := max_spend_usdc_hard (config this);
     Validation.max_slippage_bps := max_slippage_bps_hard (config this) |}.

End Workflow.

(** ** The bot registry and the trading dashboard ([src/dashboard]) *)

Module Dashboard.

Record BotConfig := {
  name : string;
  endpoint : string;
  apiKey : option string;
  timeout_ms : option Q;
  enabled : bool
}.

Inductive TradeStatus := pending | monitoring | executed | failed | expired.

Record TradeRequest := {
  id : string;
  user_prompt : string;
  bot_name : string;
  submitted_at : string;
  status : TradeStatus;
  result : option Workflow.WorkflowResult
}.

(** [trade.status = s] *)
Definition with_status (s : TradeStatus) (t : TradeRequest) : TradeRequest :=
  {| id := id t; user_prompt := user_prompt t; bot_name := bot_name t;
     submitted_at := submitted_at t; status := s; result := result t |}.

(** [trade.result = r] *)
Definition with_result (r : Workflow.WorkflowResult) (t : TradeRequest)
    : TradeRequest :=
  {| id := id t; user_prompt := user_prompt t; bot_name := bot_name t;
     submitted_at := submitted_at t; status := status t;
     result := Some r |}.

(** A call of [startMonitoring] suspended at [await workflow.run(...)]:
    the trade object it holds and the arguments it was called with. *)
Record Monitoring := {
  trade : nat;
  tradeId : string;
  userPrompt : string;
  botEndpoint : string
}.

(** The dashboard: its fields, the store holding the trade objects, the
    suspended monitoring calls, and (as a record for the proofs) the
    collaborators each trade's workflow has called so far. *)
Record TradingDashboard := {
  config : Workflow.WorkflowConfig;
  bots : gmap string BotConfig;
  trades : gmap string nat;
  monitoringIntervals : gmap string nat;
  heap : Store.store TradeRequest;
  suspended : list Monitoring;
  called : list (nat * Workflow.Event)
}.

Definition new (config : Workflow.WorkflowConfig) : TradingDashboard :=
  {| config := config; bots := ∅; trades := ∅; monitoringIntervals := ∅;
     heap := []; suspended := []; called := [] |}.

(** [registerBot(config)] *)
Definition registerBot (this : TradingDashboard) (bot : BotConfig)
    : TradingDashboard :=
  {| config := config this;
     bots := <[name bot := bot]> (bots this);
     trades := trades this;
     monitoringIntervals := monitoringIntervals this;
     heap := heap this; suspended := suspended this;
     called := called this |}.

Definition with_heap (this : TradingDashboard)
    (st : Store.store TradeRequest) : TradingDashboard :=
  {| config := config this; bots := bots this; trades := trades this;
     monitoringIntervals := monitoringIntervals this;
     heap := st; suspended := suspended this; called := called this |}.

(** [stopMonitoring(tradeId)] *)
Definition stopMonitoring (this : TradingDashboard) (tradeId : string)
    : TradingDashboard :=
  match monitoringIntervals this !! tradeId with
  | Some interval =>
      {| config := config this; bots := bots this; trades := trades this;
         monitoringIntervals := delete tradeId (monitoringIntervals this);
         heap := heap this; suspended := suspended this;
         called := called this |}
  | None => this
  end.

(** [startMonitoring], up to its [await]. *)
Definition startMonitoring (this : TradingDashboard)
    (tradeId userPrompt botEndpoint : string) : TradingDashboard :=
  match trades this !! tradeId with
  | None => this
  | Some trade =>
      let st := Store.update (heap this) trade (with_status monitoring) in
      {| config := config this; bots := bots this; trades := trades this;
         monitoringIntervals := monitoringIntervals this;
         heap := st;
         suspended :=
           suspended this
             ++ [{| trade := trade; tradeId := tradeId;
                    userPrompt := userPrompt;
                    botEndpoint := botEndpoint |}];
         called := called this |}
  end.

Section WithRuntime.
Context `{NodeRuntime}.

(** [submitTrade(userPrompt, botName)]; [tradeId] is the identifier
    [generateTradeId()] draws and [clock] the reading of [new Date()].
    The result is the trade object's location. *)
Definition submitTrade (this : TradingDashboard)
    (userPrompt botName tradeId : string) (clock : Q)
    : Outcome nat * TradingDashboard :=
  match bots this !! botName with
  | None =>
      (Thrown ("Bot " +:+ Js.dquote +:+ botName +:+ Js.dquote
                 +:+ " not found"), this)
  | Some bot =>
      if negb (enabled bot) then
        (Thrown ("Bot " +:+ Js.dquote +:+ botName +:+ Js.dquote
                   +:+ " is disabled"), this)
      else
        let '(trade, st) :=
          Store.alloc (heap this)
            (Store.Obj
               {| id := tradeId; user_prompt := userPrompt;
                  bot_name := botName;
                  submitted_at := toISOString clock;
                  status := pending; result := None |}) in
        let this :=
          {| config := config this; bots := bots this;
             trades := <[tradeId := trade]> (trades this);
             monitoringIntervals := monitoringIntervals this;
             heap := st; suspended := suspended this;
             called := called this |} in
        (* Start monitoring in background *)
        let this := startMonitoring this tradeId userPrompt (endpoint bot) in
        (Returned trade, this)
  end.

(** [getTradeStatus(tradeId)] *)
Definition getTradeStatus (this : TradingDashboard) (tradeId : string)
    : option TradeRequest :=
  match trades this !! tradeId with
  | Some trade => Store.get (heap this) trade
  | None => None
  end.

(** [cancelTrade(tradeId)] *)
Definition cancelTrade (this : TradingDashboard) (tradeId : string)
    : bool * TradingDashboard :=
  match getTradeStatus this tradeId, trades this !! tradeId with
  | Some t, Some trade =>
      match status t with
      | pending | monitoring =>
          let this := stopMonitoring this tradeId in
          (true,
           with_heap this
             (Store.update (heap this) trade (with_status expired)))
      | _ => (false, this)
      end
  | _, _ => (false, this)
  end.

(** The rest of [startMonitoring]: the workflow runs and the trade
    object is updated with what it produced.  [randomKey] is the key the
    new workflow draws, [coin] the outcome of [Math.random() > 0.5]. *)
Definition resumeMonitoring (this : TradingDashboard) (m : Monitoring)
    (randomKey : list byte) (coin : bool) (w : Workflow.World)
    : TradingDashboard :=
  let workflowConfig :=
    Workflow.with_parser_endpoint (config this) (botEndpoint m) in
  let workflow := Workflow.new workflowConfig None randomKey in
  let conditionChecker := fun _ : Schemas.StrategyDSL => Returned coin in
  let '(outcome, log) :=
    Workflow.run workflow (userPrompt m) conditionChecker w [] in
  let this :=
    {| config := config this; bots := bots this; trades := trades this;
       monitoringIntervals := monitoringIntervals this;
       heap := heap this; suspended := suspended this;
       called := called this ++ map (fun e => (trade m, e)) log |} in
  match outcome with
  | Returned result =>
      let st := Store.update (heap this) (trade m) (with_result result) in
      let st :=
        match Receipt.status (Workflow.receipt result) with
        | Receipt.executed =>
            Store.update st (trade m) (with_status executed)
        | Receipt.aborted =>
            Store.update st (trade m) (with_status failed)
        | Receipt.expired =>
            Store.update st (trade m) (with_status expired)
        end in
      stopMonitoring (with_heap this st) (tradeId m)
  | Thrown _ =>
      let st := Store.update (heap this) (trade m) (with_status failed) in
      stopMonitoring (with_heap this st) (tradeId m)
  end.

(** Operations on a dashboard, in the order they take effect. *)
Inductive Op :=
  | Submit (userPrompt botName tradeId : string) (clock : Q)
  | Cancel (tradeId : string)
  | MonitoringCompletes (n : nat) (randomKey : list byte) (coin : bool)
      (w : Workflow.World).

Definition step (this : TradingDashboard) (op : Op) : TradingDashboard :=
  match op with
  | Submit userPrompt botName tradeId clock =>
      snd (submitTrade this userPrompt botName tradeId clock)
  | Cancel tradeId => snd (cancelTrade this tradeId)
  | MonitoringCompletes n randomKey coin w =>
      match suspended this !! n with
      | None => this
      | Some m =>
          resumeMonitoring
            {| config := config this; bots := bots this;
               trades := trades this;
               monitoringIntervals := monitoringIntervals this;
               heap := heap this;
               suspended := delete n (suspended this);
               called := called this |}
            m randomKey coin w
      end
  end.

Definition steps (this : TradingDashboard) (ops : list Op)
    : TradingDashboard :=
  fold_left step ops this.

Definition terminal (s : TradeStatus) : bool :=
  match s with
  | executed | failed | expired => true
  | pending | monitoring => false
  end.
End WithRuntime.

End Dashboard.


(** ** A runtime to run the definitions on

    A small stand-in for the Node runtime: numbers are printed as
    fractions, the hash frames its input, the cipher binds the key and the
    nonce in its tag without hiding the plaintext, and strategies are
    serialised through their enumeration.  It offers none of the secrecy of
    the real runtime; it shows that the laws of [NodeRuntimeLaws] can be met
    and lets the examples below compute. *)

Module Model.
Import Schemas.

Definition render_Z (z : Z) : string :=
  DecimalString.NilZero.string_of_int (Z.to_int z).

Definition render_Q (q : Q) : string :=
  let r := Qred q in
  if (Zpos (Qden r) =? 1)%Z then render_Z (Qnum r)
  else render_Z (Qnum r) +:+ "/" +:+ render_Z (Zpos (Qden r)).

Fixpoint zeros (n : nat) : string :=
  match n with
  | O => EmptyString
  | S m => String "0" (zeros m)
  end.

Definition render_fixed (q : Q) (digits : nat) : string :=
  let scale := (10 ^ Z.of_nat digits)%Z in
  let scaled := Qfloor (Qabs q * inject_Z scale + (1 # 2))%Q in
  let whole := render_Z (scaled / scale) in
  let frac := render_Z (scaled mod scale) in
  (if Js.gt 0 q then "-" else EmptyString)
    +:+ whole +:+ "."
    +:+ zeros (digits - String.length frac) +:+ frac.

Definition render_path_elem (e : PathElem) : string :=
  match e with
  | Key k => k
  | Index i => render_Z (Z.of_nat i)
  end.

Definition render_issue (i : Issue) : string :=
  (match code i with
   | invalid_type => "Invalid input"
   | invalid_value => "Invalid option"
   | too_small => "Too small"
   | too_big => "Too big"
   end) +:+ " at " +:+ Js.join "." (map render_path_elem (path i)).

#[local] Instance byte_dec : EqDecision byte := Byte.byte_eq_dec.

#[local] Instance Q_dec : EqDecision Q.
Proof. solve_decision. Defined.

#[local] Instance ConditionType_dec : EqDecision ConditionType.
Proof. solve_decision. Defined.

#[local] Instance ActionType_dec : EqDecision ActionType.
Proof. unfold ActionType. apply _. Defined.

#[local] Instance Direction_dec : EqDecision Direction.
Proof. solve_decision. Defined.

#[local] Instance ApprovalMode_dec : EqDecision ApprovalMode.
Proof. solve_decision. Defined.

#[local] Instance Condition_dec : EqDecision Condition.
Proof. solve_decision. Defined.

#[local] Instance Action_dec : EqDecision Action.
Proof. solve_decision. Defined.

#[local] Instance Controls_dec : EqDecision Controls.
Proof. solve_decision. Defined.

#[local] Instance StrategyDSL_dec : EqDecision StrategyDSL.
Proof. solve_decision. Defined.

(** A strategy flattened to numbers, strings and lists. *)
Definition Flat : Type :=
  string
  * list (nat * (Z * positive))
  * list (string * (Z * positive) * bool)
  * ((Z * positive) * bool * (Z * positive)).

Definition flat_Q (q : Q) : Z * positive := (Qnum q, Qden q).
Definition unflat_Q (p : Z * positive) : Q := Qmake (fst p) (snd p).

Definition flat_condition (c : Condition) : nat * (Z * positive) :=
  (match cond_type c with
   | price_below => 0 | price_above => 1 | funding_below => 2
   | funding_above => 3 | volatility_above => 4
   end%nat, flat_Q (value c)).

Definition unflat_condition (p : nat * (Z * positive)) : Condition :=
  {| cond_type := match fst p with
                  | 0 => price_below | 1 => price_above | 2 => funding_below
                  | 3 => funding_above | _ => volatility_above
                  end%nat;
     value := unflat_Q (snd p) |}.

Definition flat_action (a : Action) : string * (Z * positive) * bool :=
  (ActionType_name (action_type a), flat_Q (amount_usdc a),
   match direction a with buy => true | sell => false end).

Definition unflat_action (p : string * (Z * positive) * bool) : Action :=
  {| action_type := fst (fst p);
     amount_usdc := unflat_Q (snd (fst p));
     direction := if snd p then buy else sell |}.

Definition flat (s : StrategyDSL) : Flat :=
  (pair s, map flat_condition (conditions s), map flat_action (actions s),
   (flat_Q (max_slippage_bps (controls s)),
    match approval_mode (controls s) with
    | approval_auto => true | approval_manual => false
    end,
    flat_Q (expires_in_minutes (controls s)))).

Definition unflat (f : Flat) : StrategyDSL :=
  let '(p, cs, acts, (slip, mode, expiry)) := f in
  {| pair := p;
     conditions := map unflat_condition cs;
     actions := map unflat_action acts;
     controls :=
       {| max_slippage_bps := unflat_Q slip;
          approval_mode := if mode then approval_auto else approval_manual;
          expires_in_minutes := unflat_Q expiry |} |}.

Fixpoint bits (p : positive) : string :=
  match p with
  | xH => EmptyString
  | xO q => String "0" (bits q)
  | xI q => String "1" (bits q)
  end.

Fixpoint unbits (s : string) : positive :=
  match s with
  | EmptyString => xH
  | String c rest =>
      if Ascii.eqb c "1" then xI (unbits rest) else xO (unbits rest)
  end.

Definition stringify (s : StrategyDSL) : string := bits (encode (flat s)).

Definition parse (text : string) : option StrategyDSL :=
  unflat <$> decode (unbits text).

Definition seal (key iv plaintext : list byte) : list byte * list byte :=
  (plaintext, key ++ iv).

Definition open (key iv tag ciphertext : list byte) : option (list byte) :=
  if decide (tag = key ++ iv) then Some ciphertext else None.

Definition runtime : NodeRuntime :=
  {| Number_toString := render_Q;
     Number_toFixed := render_fixed;
     toISOString := fun ms => "t+" +:+ render_Q ms +:+ "ms";
     issue_message := render_issue;
     JSON_stringify := stringify;
     JSON_parse := parse;
     sha256_hex := fun s => "sha256(" +:+ s +:+ ")";
     gcm_seal := seal;
     gcm_open := open |}.

End Model.


(** ** Sample values, taken from the repository's tests *)

Module Samples.
Import Schemas.

Definition sampleStrategy : StrategyDSL :=
  {| pair := "ETH/USDC";
     conditions := [{| cond_type := price_below; value := 3000 |}];
     actions := [{| action_type := swap; amount_usdc := 100;
                    direction := buy |}];
     controls := {| max_slippage_bps := 50;
                    approval_mode := approval_auto;
                    expires_in_minutes := 60 |} |}.

(** Two actions of 300 USDC each: under a cap of 500 one by one, over it
    together. *)
Definition splitStrategy : StrategyDSL :=
  {| pair := "ETH/USDC";
     conditions := [{| cond_type := price_below; value := 3000 |}];
     actions := [{| action_type := swap; amount_usdc := 300;
                    direction := buy |};
                 {| action_type := swap; amount_usdc := 300;
                    direction := buy |}];
     controls := {| max_slippage_bps := 50;
                    approval_mode := approval_auto;
                    expires_in_minutes := 60 |} |}.

Definition defaultLimits : Validation.ValidationLimits :=
  {| Validation.allowed_pairs := ["ETH/USDC"; "BTC/USDC"];
     Validation.max_spend_usdc := 500;
     Validation.max_slippage_bps := 75 |}.

Definition defaultConfig : Risk.RiskConfig :=
  {| Risk.max_spend_usdc := 500;
     Risk.max_slippage_bps := 75;
     Risk.allowed_pairs := ["ETH/USDC"; "BTC/USDC"];
     Risk.max_expires_minutes := 1440 |}.

(** The sample strategy asking for 100 bps of slippage. *)
Definition wideStrategy : StrategyDSL :=
  {| pair := "ETH/USDC";
     conditions := [{| cond_type := price_below; value := 3000 |}];
     actions := [{| action_type := swap; amount_usdc := 100;
                    direction := buy |}];
     controls := {| max_slippage_bps := 100;
                    approval_mode := approval_auto;
                    expires_in_minutes := 60 |} |}.

(** The sample strategy on a pair outside the allowlist. *)
Definition dogeStrategy : StrategyDSL :=
  {| pair := "DOGE/USDC";
     conditions := [{| cond_type := price_below; value := 3000 |}];
     actions := [{| action_type := swap; amount_usdc := 100;
                    direction := buy |}];
     controls := {| max_slippage_bps := 50;
                    approval_mode := approval_auto;
                    expires_in_minutes := 60 |} |}.

(** The risk configuration the orchestrator builds for a strategy. *)
Definition recheckConfig (s : StrategyDSL) : Risk.RiskConfig :=
  {| Risk.max_spend_usdc := 500;
     Risk.max_slippage_bps := 75;
     Risk.allowed_pairs := ["ETH/USDC"; "BTC/USDC"];
     Risk.max_expires_minutes := expires_in_minutes (controls s) |}.

Definition sampleKey : list byte := replicate 32 "001"%byte.


Definition sampleEntropy : Encryption.Entropy :=
  {| Encryption.uuid := "3f2b8a0e-0000-4000-8000-000000000001";
     Encryption.iv_bytes := replicate 16 "007"%byte;
     Encryption.now := 1000;
     Encryption.created := 1001 |}.

(** Responses of a paid tool: the pay-wall, the paid answer, a failure. *)
Definition paymentRequired : Payment.Response :=
  {| Payment.http_status := 402;
     Payment.json_body := Returned (JStr "Payment Required") |}.

Definition priceQuote : Payment.Response :=
  {| Payment.http_status := 200;
     Payment.json_body := Returned (JObj [("price", JNum 3000)]) |}.

Definition serverError : Payment.Response :=
  {| Payment.http_status := 500;
     Payment.json_body := Returned (JStr "Server Error") |}.

Definition retrySucceeds : Payment.World :=
  {| Payment.first_fetch := Returned paymentRequired;
     Payment.retry_fetch := fun _ => Returned priceQuote;
     Payment.clock := 1000 |}.

Definition retryFails : Payment.World :=
  {| Payment.first_fetch := Returned paymentRequired;
     Payment.retry_fetch := fun _ => Returned serverError;
     Payment.clock := 2000 |}.

Definition signer (txHash : string) : Q -> Outcome string :=
  fun _ => Returned txHash.

(** A client that has paid 0.5 USDC once, successfully. *)
Definition paidClient : Payment.X402PaymentClient :=
  snd (@Payment.fetchWithPayment Model.runtime (Payment.new [])
         "https://api.example.com/a" (signer "0x1") (5 # 10) retrySucceeds).

(** An engine with a budget of 5 that has taken one decision. *)
Definition decidedEngine : Economic.EconomicReasoningEngine :=
  snd (@Economic.shouldPurchase Model.runtime (Economic.new 5 [])
         "price_feed" (15 # 10)).

Definition fakeRecord : Payment.PaymentRecord :=
  {| Payment.tool := "fake"; Payment.cost_usdc := 999;
     Payment.tx_hash := "0xfake"; Payment.timestamp := "now";
     Payment.status := Payment.success |}.

Definition fakeCode : Economic.ReasonCode :=
  {| Economic.tool := "fake"; Economic.cost_usdc := 999;
     Economic.budget_remaining_usdc := 0;
     Economic.decision := Economic.proceed; Economic.reason := "fake" |}.

(** [code.decision = d] *)
Definition with_decision (d : Economic.Decision) (c : Economic.ReasonCode)
    : Economic.ReasonCode :=
  {| Economic.tool := Economic.tool c;
     Economic.cost_usdc := Economic.cost_usdc c;
     Economic.budget_remaining_usdc := Economic.budget_remaining_usdc c;
     Economic.decision := d; Economic.reason := Economic.reason c |}.

Definition workflowConfig : Workflow.WorkflowConfig :=
  {| Workflow.parser_endpoint := "http://localhost:3000/parse";
     Workflow.parser_timeout_ms := Some 5000%Q;
     Workflow.allowed_pairs := ["ETH/USDC"];
     Workflow.max_spend_usdc_hard := 500;
     Workflow.max_slippage_bps_hard := 100;
     Workflow.budget_usdc := 1000;
     Workflow.polling_interval_ms := None;
     Workflow.polling_timeout_ms := None |}.

(** What the parser endpoint answers for a strategy. *)
Definition parserAnswers (s : StrategyDSL) : Parser.Fetch :=
  Parser.Responded
    {| Parser.http_status := 200;
       Parser.statusText := "OK";
       Parser.json_body :=
         Returned
           {| Parser.strategy_dsl := StrategyDSL_json s;
              Parser.explanation := "Buy ETH when price drops below $3000";
              Parser.risk_notes := ["Market volatility is high"];
              Parser.parser_metadata :=
                {| Parser.model := "claude-custom";
                   Parser.confidence := 85 # 100 |} |} |}.

Definition workflowWorld (s : StrategyDSL) : Workflow.World :=
  {| Workflow.parser_fetch := parserAnswers s;
     Workflow.entropy := sampleEntropy;
     Workflow.execution_salt := replicate 16 "009"%byte;
     Workflow.receipt_clock := 2000 |}.

Definition sampleWorkflow : Workflow.AgentWorkflow :=
  Workflow.new workflowConfig None sampleKey.

Definition alwaysMet : StrategyDSL -> Outcome bool := fun _ => Returned true.

Definition testBot : Dashboard.BotConfig :=
  {| Dashboard.name := "test-bot";
     Dashboard.endpoint := "http://example.com/parse";
     Dashboard.apiKey := None;
     Dashboard.timeout_ms := None;
     Dashboard.enabled := true |}.

(** A dashboard with one enabled bot. *)
Definition testDashboard : Dashboard.TradingDashboard :=
  Dashboard.registerBot (Dashboard.new workflowConfig) testBot.

End Samples.

(** ** The schema, read as a predicate on typed strategies *)

Module SchemaSpec.
Import Schemas.

(** [value: z.number().positive()] *)
Definition condition_ok (c : Condition) : bool := Js.gt (value c) 0.

(** [type: z.enum(["swap"])] and [amount_usdc: z.number().positive()] *)
Definition action_ok (a : Action) : bool :=
  String.eqb (action_type a) "swap" && Js.gt (amount_usdc a) 0.

(** [max_slippage_bps: z.number().int().min(1).max(500)] and
    [expires_in_minutes: z.number().int().positive()]; [int()] asks for a
    safe integer. *)
Definition controls_ok (c : Controls) : bool :=
  Js.isSafeInteger (max_slippage_bps c)
  && Js.ge (max_slippage_bps c) 1
  && Js.le (max_slippage_bps c) 500
  && Js.isSafeInteger (expires_in_minutes c)
  && Js.gt (expires_in_minutes c) 0.

(** [pair: z.string().min(1)], [conditions] and [actions] arrays with
    [min(1)], [controls]. *)
Definition conforms (s : StrategyDSL) : bool :=
  (1 <=? String.length (pair s))%nat
  && (1 <=? length (conditions s))%nat
  && forallb condition_ok (conditions s)
  && (1 <=? length (actions s))%nat
  && forallb action_ok (actions s)
  && controls_ok (controls s).

(** A rejection names at least one issue. *)
Definition names_an_issue {A : Type} (r : SafeParseResult A) : Prop :=
  match r with
  | Failure [] => False
  | _ => True
  end.

End SchemaSpec.

(** ** The bot registry ([src/dashboard/bot-manager.ts]) *)

Module BotManager.

(** A [Map<string, BotConfig>]: keys in insertion order, each once. *)
Definition BotMap : Type := list (string * Dashboard.BotConfig).

(** [map.get(k)] *)
Fixpoint map_get (k : string) (m : BotMap) : option Dashboard.BotConfig :=
  match m with
  | [] => None
  | (k', v) :: rest => if String.eqb k k' then Some v else map_get k rest
  end.

(** [map.set(k, v)]: an existing key keeps its place. *)
Fixpoint map_set (k : string) (v : Dashboard.BotConfig) (m : BotMap)
    : BotMap :=
  match m with
  | [] => [(k, v)]
  | (k', v') :: rest =>
      if String.eqb k k' then (k, v) :: rest
      else (k', v') :: map_set k v rest
  end.

(** [map.delete(k)]: whether the key was there, and the map without it. *)
Fixpoint map_delete (k : string) (m : BotMap) : bool * BotMap :=
  match m with
  | [] => (false, [])
  | (k', v') :: rest =>
      if String.eqb k k' then (true, rest)
      else let '(found, rest') := map_delete k rest in
           (found, (k', v') :: rest')
  end.

(** [Array.from(map.values())] *)
Definition map_values (m : BotMap) : list Dashboard.BotConfig := map snd m.

Record BotManager := {
  bots : BotMap
}.

Definition new : BotManager := {| bots := [] |}.

(** [registerBot(config)] *)
Definition registerBot (this : BotManager) (config : Dashboard.BotConfig)
    : BotManager :=
  {| bots := map_set (Dashboard.name config) config (bots this) |}.

(** [removeBot(name)] *)
Definition removeBot (this : BotManager) (name : string)
    : bool * BotManager :=
  let '(found, m) := map_delete name (bots this) in
  (found, {| bots := m |}).

(** [getBot(name)] *)
Definition getBot (this : BotManager) (name : string)
    : option Dashboard.BotConfig :=
  map_get name (bots this).

(** [listBots()] *)
Definition listBots (this : BotManager) : list Dashboard.BotConfig :=
  map_values (bots this).

Inductive HealthState := connected | disconnected | error.

Record BotHealthStatus := {
  bot_name : string;
  endpoint : string;
  status : HealthState;
  last_check : string;
  response_time_ms : option Q;
  error_message : option string
}.

(** How the health request ends: a response, or a rejection (a network
    error or the abort after the timeout) with its message. *)
Inductive HealthFetch :=
  | Responded (ok : bool) (http_status : nat) (statusText : string)
  | Rejected (message : string).

(** What one health check meets outside: the clock before the request,
    the request's outcome given the endpoint, the [Authorization] header
    (if any) and the timeout, the clock after it, and the clock when the
    report is stamped. *)
Record HealthWorld := {
  startTime : Q;
  fetch : string -> option string -> Q -> HealthFetch;
  endTime : Q;
  stamp : Q
}.

Section WithRuntime.
Context `{NodeRuntime}.

(** [bot.apiKey ? { Authorization: `Bearer ${bot.apiKey}` } : {}]: an
    empty key is falsy. *)
Definition authorization (bot : Dashboard.BotConfig) : option string :=
  match Dashboard.apiKey bot with
  | Some k => if String.eqb k EmptyString then None
              else Some ("Bearer " +:+ k)
  | None => None
  end.

(** [checkBotHealth(name)] *)
Definition checkBotHealth (this : BotManager) (name : string)
    (w : HealthWorld) : BotHealthStatus :=
  match map_get name (bots this) with
  | None =>
      {| bot_name := name;
         endpoint := EmptyString;
         status := error;
         last_check := toISOString (stamp w);
         response_time_ms := None;
         error_message := Some "Bot not found" |}
  | Some bot =>
      let timeout := match Dashboard.timeout_ms bot with
                     | Some t => t
                     | None => 5000%Q
                     end in
      match fetch w (Dashboard.endpoint bot) (authorization bot) timeout with
      | Responded ok http_status statusText =>
          let responseTime := (endTime w - startTime w)%Q in
          if ok then
            {| bot_name := name;
               endpoint := Dashboard.endpoint bot;
               status := connected;
               last_check := toISOString (stamp w);
               response_time_ms := Some responseTime;
               error_message := None |}
          else
            {| bot_name := name;
               endpoint := Dashboard.endpoint bot;
               status := error;
               last_check := toISOString (stamp w);
               response_time_ms := Some responseTime;
               error_message :=
                 Some ("HTTP "
                         +:+ Number_toString
                               (inject_Z (Z.of_nat http_status))
                         +:+ ": " +:+ statusText) |}
      | Rejected message =>
          let responseTime := (endTime w - startTime w)%Q in
          {| bot_name := name;
             endpoint := Dashboard.endpoint bot;
             status := disconnected;
             last_check := toISOString (stamp w);
             response_time_ms := Some responseTime;
             error_message := Some message |}
      end
  end.

(** [checkAllBotsHealth()]; [worlds] gives what the check of each bot
    meets. *)
Definition checkAllBotsHealth (this : BotManager)
    (worlds : string -> HealthWorld) : list BotHealthStatus :=
  map (fun bot =>
         checkBotHealth this (Dashboard.name bot)
           (worlds (Dashboard.name bot)))
      (listBots this).
End WithRuntime.

(** *** Histories: the calls made on a registry since it was created *)

Inductive Call :=
  | CallRegisterBot (config : Dashboard.BotConfig)
  | CallRemoveBot (name : string).

Definition perform (this : BotManager) (c : Call) : BotManager :=
  match c with
  | CallRegisterBot config => registerBot this config
  | CallRemoveBot name => snd (removeBot this name)
  end.

Definition after (calls : list Call) : BotManager :=
  fold_left perform calls new.

(** Each key is the name of the bot stored under it, and no key occurs
    twice. *)
Definition well_formed (this : BotManager) : Prop :=
  NoDup (map fst (bots this)) /\
  Forall (fun kv => Dashboard.name (snd kv) = fst kv) (bots this).

End BotManager.

(** ** Bookkeeping over histories *)

Module Accounting.

(** The amounts debited by the [recordSpend] calls of a history. *)
Fixpoint debited (calls : list Economic.Call) : Q :=
  match calls with
  | [] => 0
  | Economic.CallRecordSpend amount :: rest => amount + debited rest
  | _ :: rest => debited rest
  end%Q.

(** The number of [shouldPurchase] calls of a history. *)
Fixpoint decisions (calls : list Economic.Call) : nat :=
  match calls with
  | [] => 0
  | Economic.CallShouldPurchase _ _ :: rest => S (decisions rest)
  | _ :: rest => decisions rest
  end.

(** Whether every debit of a history is a safe integer. *)
Fixpoint debits_safe (calls : list Economic.Call) : bool :=
  match calls with
  | [] => true
  | Economic.CallRecordSpend amount :: rest =>
      Js.isSafeInteger amount && debits_safe rest
  | _ :: rest => debits_safe rest
  end.

(** The magnitudes debited by a history, added up. *)
Fixpoint debits_bound (calls : list Economic.Call) : Q :=
  match calls with
  | [] => 0
  | Economic.CallRecordSpend amount :: rest =>
      Qabs amount + debits_bound rest
  | _ :: rest => debits_bound rest
  end%Q.

(** The books on which no subtraction of [recordSpend] rounds: the initial
    budget and the debits are safe integers, and the budget's magnitude and
    the debits' together stay within the safe range, so that every budget
    the engine ever holds is a safe integer and the double it holds is the
    exact difference. *)
Definition exact_books (initialBudget : Q) (calls : list Economic.Call)
    : bool :=
  Js.isSafeInteger initialBudget
  && debits_safe calls
  && Js.le (Qabs initialBudget + debits_bound calls) Js.MAX_SAFE_INTEGER.

(** A reason code's decision agrees with the cost and the budget it
    records. *)
Definition code_consistent (c : Economic.ReasonCode) : Prop :=
  Economic.decision c
  = if Js.ge (Economic.budget_remaining_usdc c) (Economic.cost_usdc c)
    then Economic.proceed else Economic.skip.

End Accounting.

(** ** Further sample values *)

Module Scenarios.
Import Schemas.

(** The sample strategy as a parser might send it: with a property the
    schema does not know. *)
Definition annotatedStrategy : json :=
  JObj [("comment", JStr "generated by the parser");
        ("pair", JStr "ETH/USDC");
        ("conditions",
         JArr [JObj [("type", JStr "price_below"); ("value", JNum 3000)]]);
        ("actions",
         JArr [JObj [("type", JStr "swap"); ("amount_usdc", JNum 100);
                     ("direction", JStr "buy")]]);
        ("controls",
         JObj [("max_slippage_bps", JNum 50);
               ("approval_mode", JStr "auto");
               ("expires_in_minutes", JNum 60)])].

(** One action of 600 USDC, over the cap of 500. *)
Definition oversizedStrategy : StrategyDSL :=
  {| pair := "ETH/USDC";
     conditions := [{| cond_type := price_below; value := 3000 |}];
     actions := [{| action_type := swap; amount_usdc := 600;
                    direction := buy |}];
     controls := {| max_slippage_bps := 50;
                    approval_mode := approval_auto;
                    expires_in_minutes := 60 |} |}.

(** Outside the allowlist and asking for 100 bps of slippage. *)
Definition dogeWideStrategy : StrategyDSL :=
  {| pair := "DOGE/USDC";
     conditions := [{| cond_type := price_below; value := 3000 |}];
     actions := [{| action_type := swap; amount_usdc := 100;
                    direction := buy |}];
     controls := {| max_slippage_bps := 100;
                    approval_mode := approval_auto;
                    expires_in_minutes := 60 |} |}.

(** The sample strategy expiring in 2 * 10^11 minutes: a safe integer,
    but some 380 000 years away, beyond the range of [Date]. *)
Definition distantStrategy : StrategyDSL :=
  {| pair := "ETH/USDC";
     conditions := [{| cond_type := price_below; value := 3000 |}];
     actions := [{| action_type := swap; amount_usdc := 100;
                    direction := buy |}];
     controls := {| max_slippage_bps := 50;
                    approval_mode := approval_auto;
                    expires_in_minutes := 200000000000 |} |}.

End Scenarios.

(** ** Reading the log of a run *)

Module Trace.
Import Schemas Workflow.

(** The receipts built during a run, by status, in order. *)
Definition receipts (log : list Event) : list Receipt.ReceiptStatus :=
  omap (fun e => match e with
                 | ReceiptBuilt status => Some status
                 | _ => None
                 end) log.

(** The risk configuration step 6 of [run] builds for a decrypted
    strategy. *)
Definition recheck_config (this : AgentWorkflow) (decrypted : StrategyDSL)
    : Risk.RiskConfig :=
  {| Risk.max_spend_usdc := max_spend_usdc_hard (config this);
     Risk.max_slippage_bps := max_slippage_bps_hard (config this);
     Risk.allowed_pairs := allowed_pairs (config this);
     Risk.max_expires_minutes := expires_in_minutes (controls decrypted) |}.

Section WithRuntime.
Context `{NodeRuntime}.

(** The receipt of a run that got past validation. *)
Definition receipt_after_encryption (userPrompt : string)
    (parserOutput : Parser.ParserOutput) (strategy : StrategyDSL)
    (intent : Encryption.EncryptedIntent) (conditionsMet : bool)
    (txHash : option string) (totalSpend : Q)
    (status : Receipt.ReceiptStatus) (w : World)
    : Receipt.ExecutionReceipt :=
  Receipt.buildReceipt
    {| Receipt.intentId := Encryption.intent_id intent;
       Receipt.rawPrompt := userPrompt;
       Receipt.parserOutput := parserOutput;
       Receipt.validatedStrategy := StrategyDSL_json strategy;
       Receipt.encryptedIntentPayload := Encryption.encrypted_payload intent;
       Receipt.params_payments := [];
       Receipt.reasonCodes := [];
       Receipt.conditionsMet := conditionsMet;
       Receipt.executionTxHash := txHash;
       Receipt.totalSpendUsdc := totalSpend;
       Receipt.params_status := status |}
    (receipt_clock w).

End WithRuntime.

End Trace.

(** ** What a call leaves in the payment ledger *)

Module Ledgers.
Import Payment.

Section WithRuntime.
Context `{NodeRuntime}.

(** The record one [fetchWithPayment] call leaves behind, if any: one is
    pushed only when the first response is a 402, the payment was signed
    and the retry was answered. *)
Definition attempt (toolUrl : string) (signPayment : Q -> Outcome string)
    (toolCostUsdc : Q) (w : World) : list PaymentRecord :=
  match first_fetch w with
  | Returned firstResponse =>
      if (http_status firstResponse =? 402)%nat then
        match signPayment toolCostUsdc with
        | Returned txHash =>
            match retry_fetch w txHash with
            | Returned retryResponse =>
                [{| tool := toolUrl;
                    cost_usdc := toolCostUsdc;
                    tx_hash := txHash;
                    timestamp := toISOString (clock w);
                    status := if ok retryResponse then success else failed |}]
            | Thrown _ => []
            end
        | Thrown _ => []
        end
      else []
  | Thrown _ => []
  end.

Definition recorded (c : Call) : list PaymentRecord :=
  match c with
  | CallFetchWithPayment toolUrl signPayment toolCostUsdc w =>
      attempt toolUrl signPayment toolCostUsdc w
  | CallGetPaymentRecords => []
  end.

End WithRuntime.

End Ledgers.

(** ** The dashboard's representation invariant *)

Module DashboardSpec.
Import Dashboard.

(** The object at [r] is a trade carrying the identifier [tradeId]. *)
Definition holds (st : Store.store TradeRequest) (r : nat)
    (tradeId : string) : Prop :=
  exists t, Store.get st r = Some t /\ id t = tradeId.

(** Every trade object of [st] is still one in [st'], under the same
    identifier. *)
Definition grows (st st' : Store.store TradeRequest) : Prop :=
  forall r tradeId, holds st r tradeId -> holds st' r tradeId.

(** No interval timer is registered; each known trade identifier leads to
    a trade object that carries it; each suspended monitoring call holds
    an existing trade object. *)
Definition invariant (this : TradingDashboard) : Prop :=
  monitoringIntervals this = ∅ /\
  (forall tradeId r,
     trades this !! tradeId = Some r -> holds (heap this) r tradeId) /\
  Forall (fun m => holds (heap this) (trade m) (tradeId m))
         (suspended this).

(** The status [startMonitoring] assigns when the workflow's run ends. *)
Definition completion_status (outcome : Outcome Workflow.WorkflowResult)
    : TradeStatus :=
  match outcome with
  | Returned result =>
      match Receipt.status (Workflow.receipt result) with
      | Receipt.executed => executed
      | Receipt.aborted => failed
      | Receipt.expired => expired
      end
  | Thrown _ => failed
  end.

(** The workflow run a suspended monitoring call is waiting for. *)
Definition awaited_run `{NodeRuntime} (this : TradingDashboard)
    (m : Monitoring) (randomKey : list byte) (coin : bool)
    (w : Workflow.World) : Outcome Workflow.WorkflowResult :=
  fst (Workflow.run
         (Workflow.new
            (Workflow.with_parser_endpoint (config this) (botEndpoint m))
            None randomKey)
         (userPrompt m) (fun _ => Returned coin) w []).

(** What can happen to a dashboard: a bot is registered, or one of the
    operations of [step]. *)
Inductive Action :=
  | Register (bot : BotConfig)
  | Do (op : Op).

Definition act `{NodeRuntime} (this : TradingDashboard) (a : Action)
    : TradingDashboard :=
  match a with
  | Register bot => registerBot this bot
  | Do op => step this op
  end.

(** The dashboard after a history of actions since its construction. *)
Definition reached `{NodeRuntime} (config : Workflow.WorkflowConfig)
    (actions : list Action) : TradingDashboard :=
  fold_left act actions (new config).

End DashboardSpec.

(** ** Reading a health report *)

Module BotHealth.
Import BotManager.

(** The request [checkBotHealth] sends for a registered bot: to the bot's
    own endpoint, with its own [Authorization] header, under its own
    timeout or 5000 ms. *)
Definition probe `{NodeRuntime} (w : HealthWorld) (bot : Dashboard.BotConfig)
    : HealthFetch :=
  fetch w (Dashboard.endpoint bot) (authorization bot)
    (match Dashboard.timeout_ms bot with
     | Some t => t
     | None => 5000%Q
     end).

(** The status reported for the outcome of that request. *)
Definition verdict (f : HealthFetch) : HealthState :=
  match f with
  | Responded true _ _ => connected
  | Responded false _ _ => error
  | Rejected _ => disconnected
  end.

End BotHealth.

(** ** Reading the executor's check *)

Module ExecutionSpec.
Import Schemas.

(** The test of the loop in [execute]: [action.type !== "swap"]. *)
Definition unsupported (action : Action) : bool :=
  negb (String.eqb (ActionType_name (action_type action)) "swap").

End ExecutionSpec.

(** * Properties *)

(** ** Comparisons *)

Lemma gt_true (a b : Q) : Js.gt a b = true <-> (b < a)%Q.
Proof.
  unfold Js.gt. rewrite negb_true_iff.
  split; intros Hab.
  - apply Qnot_le_lt. intros Hle. apply Qle_bool_iff in Hle. congruence.
  - destruct (Qle_bool a b) eqn:E; [|reflexivity].
    apply Qle_bool_iff in E. exfalso. apply (Qlt_not_le _ _ Hab E).
Qed.

Lemma gt_false (a b : Q) : Js.gt a b = false <-> (a <= b)%Q.
Proof.
  unfold Js.gt. rewrite negb_false_iff. apply Qle_bool_iff.
Qed.

Lemma ge_true (a b : Q) : Js.ge a b = true <-> (b <= a)%Q.
Proof. apply Qle_bool_iff. Qed.

Lemma le_true (a b : Q) : Js.le a b = true <-> (a <= b)%Q.
Proof. apply Qle_bool_iff. Qed.

(** A non-negative integer up to 2^53 - 1 is a safe integer. *)
Lemma isSafeInteger_range (q : Q) :
  Js.isInteger q = true -> (0 <= q)%Q -> (q <= Js.MAX_SAFE_INTEGER)%Q ->
  Js.isSafeInteger q = true.
Proof.
  intros Hint Hpos Hmax. unfold Js.isSafeInteger. rewrite Hint. cbn [andb].
  apply le_true. rewrite Qabs_pos by exact Hpos. exact Hmax.
Qed.

Lemma gt_irrefl (a b : Q) : (a == b)%Q -> Js.gt a b = false.
Proof. intros E. apply gt_false. rewrite E. apply Qle_refl. Qed.

(** [reduce] from any start adds the start to the sum from zero. *)
Lemma fold_sum_start {A : Type} (f : A -> Q) (xs : list A) (start : Q) :
  (fold_left (fun sum x => sum + f x) xs start
   == start + Js.sumBy f xs)%Q.
Proof.
  unfold Js.sumBy. revert start.
  induction xs as [|x xs IH]; intros start; simpl.
  - ring.
  - rewrite IH. rewrite (IH (0 + f x)%Q). ring.
Qed.

Lemma sumBy_cons {A : Type} (f : A -> Q) (x : A) (xs : list A) :
  (Js.sumBy f (x :: xs) == f x + Js.sumBy f xs)%Q.
Proof.
  unfold Js.sumBy at 1. simpl. rewrite fold_sum_start. ring.
Qed.

(** ** The risk re-checker *)

(** C3. When the ceiling handed to [checkRisk] is the strategy's own
    [expires_in_minutes], as the orchestrator's re-check does, no violation
    in the result is an expiry violation: the expiry branch is never
    taken. *)
Theorem checkRisk_own_expiry_never_violates :
  forall (s : Schemas.StrategyDSL) (config : Risk.RiskConfig),
    (Risk.max_expires_minutes config
     == Schemas.expires_in_minutes (Schemas.controls s))%Q ->
    Forall (fun v => Risk.is_expiry_violation v = false)
           (Risk.violations (Risk.checkRisk s config)).
Proof.
  intros s config Heq. unfold Risk.checkRisk. cbn [Risk.violations].
  rewrite (gt_irrefl (Schemas.expires_in_minutes (Schemas.controls s))
             (Risk.max_expires_minutes config)) by (symmetry; exact Heq).
  repeat match goal with
         | |- context [if ?b then _ else _] => destruct b
         end;
    cbn; repeat constructor.
Qed.

Lemma checkRisk_own_expiry_never_violates_witness :
  Forall (fun v => Risk.is_expiry_violation v = false)
         (Risk.violations
            (Risk.checkRisk Samples.sampleStrategy
               (Samples.recheckConfig Samples.sampleStrategy))).
Proof.
  apply (checkRisk_own_expiry_never_violates Samples.sampleStrategy
           (Samples.recheckConfig Samples.sampleStrategy)).
  reflexivity.
Defined.

(** ** The schema *)

Module SchemaFacts.
Import Schemas.

Lemma both_Success {A B C : Type} (f : A -> B -> C)
    (ra : SafeParseResult A) (rb : SafeParseResult B) (c : C) :
  both f ra rb = Success c ->
  exists a b, ra = Success a /\ rb = Success b /\ c = f a b.
Proof.
  destruct ra as [a|i], rb as [b|j]; simpl; intros E; inversion E; eauto.
Qed.

Lemma z_number_Success checks p v q :
  z_number checks p v = Success q ->
  v = Some (JNum q) /\ failed checks p q = [].
Proof.
  unfold z_number. destruct v as [[| | q' | | |]|]; try discriminate.
  destruct (failed checks p q') eqn:E; [|discriminate].
  intros [= ->]. split; [reflexivity|exact E].
Qed.

Lemma failed_cons_nil c checks p q :
  failed (c :: checks) p q = [] -> c q = Pass /\ failed checks p q = [].
Proof.
  cbn [failed]. destruct (c q) as [|code [|]]; [auto|discriminate..].
Qed.

Lemma z_positive_Pass q : z_positive q = Pass <-> Js.gt q 0 = true.
Proof.
  unfold z_positive. destruct (Js.gt q 0); split; congruence.
Qed.

Lemma z_min_Pass n q : z_min n q = Pass <-> Js.ge q n = true.
Proof. unfold z_min. destruct (Js.ge q n); split; congruence. Qed.

Lemma z_max_Pass n q : z_max n q = Pass <-> Js.le q n = true.
Proof. unfold z_max. destruct (Js.le q n); split; congruence. Qed.

Lemma z_int_Pass q : z_int q = Pass <-> Js.isSafeInteger q = true.
Proof.
  unfold z_int, Js.isSafeInteger.
  destruct (Js.isInteger q); cbn [negb andb]; [|split; discriminate].
  destruct (Js.le (Qabs q) Js.MAX_SAFE_INTEGER); cbn [negb];
    [split; reflexivity|].
  destruct (Js.gt q 0); split; discriminate.
Qed.

Lemma z_string_min1_Success p v s :
  z_string_min1 p v = Success s -> v = Some (JStr s).
Proof.
  unfold z_string_min1. destruct v as [[| | | s' | |]|]; try discriminate.
  destruct (1 <=? String.length s')%nat; [|discriminate].
  intros [= ->]. reflexivity.
Qed.

Lemma z_enum_ConditionType p t :
  z_enum ConditionTypeEnum p (Some (JStr (ConditionType_name t))) = Success t.
Proof. destruct t; reflexivity. Qed.

Lemma z_enum_ActionType p v t :
  z_enum ActionTypeEnum p v = Success t <-> v = Some (JStr "swap") /\ t = swap.
Proof.
  unfold z_enum. split.
  - destruct v as [[| | | name | |]|]; try discriminate.
    cbn [option_of ActionTypeEnum].
    destruct (String.eqb name "swap") eqn:E; [|discriminate].
    apply String.eqb_eq in E. subst name. intros [= <-].
    split; reflexivity.
  - intros [-> ->]. reflexivity.
Qed.

Lemma z_enum_Direction p d :
  z_enum DirectionEnum p (Some (JStr (Direction_name d))) = Success d.
Proof. destruct d; reflexivity. Qed.

Lemma z_enum_ApprovalMode p m :
  z_enum ApprovalModeEnum p (Some (JStr (ApprovalMode_name m))) = Success m.
Proof. destruct m; reflexivity. Qed.

Lemma ConditionSchema_json p c :
  ConditionSchema p (Some (Condition_json c)) =
  both Build_Condition
    (Success (cond_type c))
    (z_number [z_positive] (p ++ [Key "value"]) (Some (JNum (value c)))).
Proof.
  unfold ConditionSchema, Condition_json.
  change (prop "type" _) with (Some (JStr (ConditionType_name (cond_type c)))).
  rewrite z_enum_ConditionType. reflexivity.
Qed.

Lemma ActionSchema_json p a :
  ActionSchema p (Some (Action_json a)) =
  both (fun f d => f d)
    (both Build_Action
       (z_enum ActionTypeEnum (p ++ [Key "type"])
          (Some (JStr (action_type a))))
       (z_number [z_positive] (p ++ [Key "amount_usdc"])
          (Some (JNum (amount_usdc a)))))
    (Success (direction a)).
Proof.
  unfold ActionSchema, Action_json.
  change (prop "type" _) with (Some (JStr (action_type a))).
  change (prop "direction" _)
    with (Some (JStr (Direction_name (direction a)))).
  rewrite z_enum_Direction. reflexivity.
Qed.

Lemma ControlsSchema_json p c :
  ControlsSchema p (Some (Controls_json c)) =
  both (fun f e => f e)
    (both Build_Controls
       (z_number [z_int; z_min 1; z_max 500] (p ++ [Key "max_slippage_bps"])
          (Some (JNum (max_slippage_bps c))))
       (Success (approval_mode c)))
    (z_number [z_int; z_positive] (p ++ [Key "expires_in_minutes"])
       (Some (JNum (expires_in_minutes c)))).
Proof.
  unfold ControlsSchema, Controls_json.
  change (prop "approval_mode" _)
    with (Some (JStr (ApprovalMode_name (approval_mode c)))).
  rewrite z_enum_ApprovalMode. reflexivity.
Qed.

Lemma safeParse_json s :
  safeParse (StrategyDSL_json s) =
  both (fun f c => f c)
    (both (fun f a => f a)
       (both Build_StrategyDSL
          (z_string_min1 [Key "pair"] (Some (JStr (pair s))))
          (z_array_min1 ConditionSchema [Key "conditions"]
             (Some (JArr (map Condition_json (conditions s))))))
       (z_array_min1 ActionSchema [Key "actions"]
          (Some (JArr (map Action_json (actions s))))))
    (ControlsSchema [Key "controls"] (Some (Controls_json (controls s)))).
Proof. reflexivity. Qed.

Lemma ConditionSchema_inv p c c' :
  ConditionSchema p (Some (Condition_json c)) = Success c' -> c' = c.
Proof.
  rewrite ConditionSchema_json. intros E.
  apply both_Success in E as (t & q & Et & Eq & ->).
  injection Et as <-. apply z_number_Success in Eq as [[= <-] _].
  destruct c; reflexivity.
Qed.

Lemma ActionSchema_inv p a a' :
  ActionSchema p (Some (Action_json a)) = Success a' -> a' = a.
Proof.
  rewrite ActionSchema_json. intros E.
  apply both_Success in E as (f & d & Ef & Ed & ->).
  apply both_Success in Ef as (t & q & Et & Eq & ->).
  apply z_enum_ActionType in Et as [[= Et] ->]. injection Ed as <-.
  apply z_number_Success in Eq as [[= <-] _].
  destruct a as [t amount d]. cbn in *. subst t. reflexivity.
Qed.

Lemma ControlsSchema_inv p c c' :
  ControlsSchema p (Some (Controls_json c)) = Success c' ->
  c' = c /\ (0 < expires_in_minutes c)%Q.
Proof.
  rewrite ControlsSchema_json. intros E.
  apply both_Success in E as (f & e & Ef & Ee & ->).
  apply both_Success in Ef as (q & m & Eq & Em & ->).
  injection Em as <-.
  apply z_number_Success in Eq as [[= <-] _].
  apply z_number_Success in Ee as [[= <-] Hchecks].
  apply failed_cons_nil in Hchecks as [_ Hchecks].
  apply failed_cons_nil in Hchecks as [Hpos _].
  split; [destruct c; reflexivity|].
  apply gt_true, z_positive_Pass. exact Hpos.
Qed.

Lemma z_items_inv {A : Type}
    (elem : list PathElem -> option json -> SafeParseResult A)
    (to_json : A -> json) :
  (forall p x y, elem p (Some (to_json x)) = Success y -> y = x) ->
  forall xs p i ys,
    z_items elem p i (map to_json xs) = Success ys -> ys = xs.
Proof.
  intros Helem xs. induction xs as [|x xs IH]; intros p i ys; simpl.
  - intros [= <-]. reflexivity.
  - intros E. apply both_Success in E as (y & ys' & Ey & Eys & ->).
    apply Helem in Ey as ->. apply IH in Eys as ->. reflexivity.
Qed.

Lemma z_array_min1_inv {A : Type}
    (elem : list PathElem -> option json -> SafeParseResult A)
    (to_json : A -> json) :
  (forall p x y, elem p (Some (to_json x)) = Success y -> y = x) ->
  forall xs p ys,
    z_array_min1 elem p (Some (JArr (map to_json xs))) = Success ys ->
    ys = xs.
Proof.
  intros Helem xs p ys. unfold z_array_min1. intros E.
  apply both_Success in E as (ys' & u & Eys & _ & ->).
  eapply z_items_inv; eauto.
Qed.

(** Parsing a typed strategy returns that strategy or fails. *)
Lemma safeParse_json_inv s s' :
  safeParse (StrategyDSL_json s) = Success s' ->
  s' = s /\ (0 < expires_in_minutes (controls s))%Q.
Proof.
  rewrite safeParse_json. intros E.
  apply both_Success in E as (f & c & Ef & Ec & ->).
  apply both_Success in Ef as (g & a & Eg & Ea & ->).
  apply both_Success in Eg as (p & cs & Ep & Ecs & ->).
  apply z_string_min1_Success in Ep as [= <-].
  apply (z_array_min1_inv _ _ ConditionSchema_inv) in Ecs as ->.
  apply (z_array_min1_inv _ _ ActionSchema_inv) in Ea as ->.
  apply ControlsSchema_inv in Ec as [-> Hpos].
  split; [destruct s; reflexivity|exact Hpos].
Qed.


Lemma sampleStrategy_well_formed : well_formed Samples.sampleStrategy.
Proof. reflexivity. Qed.


End SchemaFacts.

(** ** The limit enforcer *)

Module ValidationFacts.
Import Schemas Validation.

Lemma spend_fold cap acts errs :
  fold_left
    (fun errors action =>
       if Js.gt (amount_usdc action) cap
       then errors ++ [ActionExceedsCap (amount_usdc action) cap]
       else errors)
    acts errs
  = errs ++ spend_errors cap acts.
Proof.
  revert errs. induction acts as [|a acts IH]; intros errs; simpl.
  - symmetry. apply app_nil_r.
  - rewrite IH. destruct (Js.gt (amount_usdc a) cap); simpl.
    + rewrite <- app_assoc. reflexivity.
    + reflexivity.
Qed.

Lemma spend_errors_nil cap acts :
  spend_errors cap acts = [] <->
  Forall (fun a => (amount_usdc a <= cap)%Q) acts.
Proof.
  induction acts as [|a acts IH]; simpl.
  - split; [constructor|reflexivity].
  - destruct (Js.gt (amount_usdc a) cap) eqn:E; simpl.
    + split; [discriminate|].
      intros Hall. inversion Hall as [|? ? Ha _]; subst.
      apply gt_false in Ha. congruence.
    + rewrite IH. apply gt_false in E.
      split; [intros Hall; constructor; assumption|].
      intros Hall. inversion Hall; assumption.
Qed.

Lemma validateStrategy_clamped dsl limits :
  clamped (validateStrategy dsl limits) =
  match safeParse dsl with
  | Failure _ => []
  | Success data =>
      if Js.gt (Schemas.max_slippage_bps (controls data))
               (max_slippage_bps limits)
      then [SlippageClamped (Schemas.max_slippage_bps (controls data))
              (max_slippage_bps limits)]
      else []
  end.
Proof.
  unfold validateStrategy.
  destruct (safeParse dsl) as [data|issues]; [|reflexivity].
  destruct (Js.gt (Schemas.max_slippage_bps (controls data))
              (max_slippage_bps limits));
    match goal with
    | |- context [if ?b then _ else _] => destruct b
    end; reflexivity.
Qed.

Lemma validateStrategy_Success dsl limits data :
  safeParse dsl = Success data ->
  validateStrategy dsl limits =
  match policy_errors data limits with
  | [] => {| valid := true; strategy := Some (clamp data limits);
             errors := []; clamped := clamp_notes data limits |}
  | errs => {| valid := false; strategy := None;
               errors := errs; clamped := clamp_notes data limits |}
  end.
Proof.
  intros E. unfold validateStrategy, policy_errors, clamp_notes, clamp.
  rewrite E.
  destruct (Js.gt (Schemas.max_slippage_bps (controls data))
              (max_slippage_bps limits));
    cbv zeta;
    cbn [with_max_slippage_bps actions controls expires_in_minutes];
    rewrite spend_fold;
    destruct (Js.includes (allowed_pairs limits) (pair data));
    destruct (spend_errors (max_spend_usdc limits) (actions data));
    destruct (Js.le (expires_in_minutes (controls data)) 0);
    simpl; rewrite ?app_nil_r; reflexivity.
Qed.

Lemma policy_errors_nil data limits :
  policy_errors data limits = [] <->
  Js.includes (allowed_pairs limits) (pair data) = true /\
  Forall (fun a => (amount_usdc a <= max_spend_usdc limits)%Q)
         (actions data) /\
  (0 < expires_in_minutes (controls data))%Q.
Proof.
  unfold policy_errors. rewrite <- spend_errors_nil.
  destruct (Js.includes (allowed_pairs limits) (pair data));
    destruct (spend_errors (max_spend_usdc limits) (actions data));
    destruct (Js.le (expires_in_minutes (controls data)) 0) eqn:Eexp;
    simpl; split;
    try discriminate;
    try (intros (Hp & Hs & Hpos); try discriminate;
         apply le_true in Eexp; exfalso;
         apply (Qlt_not_le _ _ Hpos Eexp)).
  - intros _. repeat split.
    apply Qnot_le_lt. intros Hle. apply le_true in Hle. congruence.
  - reflexivity.
Qed.

(** Validation succeeds exactly when the schema accepts the value, the pair
    is allowed, no single action exceeds the cap and the expiry is
    positive. *)
Lemma validateStrategy_valid dsl limits :
  valid (validateStrategy dsl limits) = true <->
  exists data,
    safeParse dsl = Success data /\
    Js.includes (allowed_pairs limits) (pair data) = true /\
    Forall (fun a => (amount_usdc a <= max_spend_usdc limits)%Q)
           (actions data) /\
    (0 < expires_in_minutes (controls data))%Q.
Proof.
  destruct (safeParse dsl) as [data|issues] eqn:E.
  - rewrite (validateStrategy_Success dsl limits data E).
    split.
    + intros Hv. exists data. split; [reflexivity|].
      apply policy_errors_nil.
      destruct (policy_errors data limits); [reflexivity|discriminate].
    + intros (d & [= <-] & H). apply policy_errors_nil in H. rewrite H.
      reflexivity.
  - unfold validateStrategy. rewrite E. simpl.
    split; [discriminate|]. intros (d & Hd & _). discriminate.
Qed.

Lemma validateStrategy_strategy dsl limits data :
  safeParse dsl = Success data ->
  valid (validateStrategy dsl limits) = true ->
  strategy (validateStrategy dsl limits) = Some (clamp data limits).
Proof.
  intros E. rewrite (validateStrategy_Success dsl limits data E).
  destruct (policy_errors data limits); [reflexivity|discriminate].
Qed.

Lemma clamp_within data limits :
  (Schemas.max_slippage_bps (controls (clamp data limits))
   <= max_slippage_bps limits)%Q.
Proof.
  unfold clamp.
  destruct (Js.gt (Schemas.max_slippage_bps (controls data))
              (max_slippage_bps limits)) eqn:E; simpl.
  - apply Qle_refl.
  - apply gt_false. exact E.
Qed.

End ValidationFacts.

Import Schemas.

(** C2. Whenever [validateStrategy] accepts a value, the strategy it
    returns has [max_slippage_bps] at most the limit, whatever the input
    asked for, and validating that strategy again under the same limits
    records no clamp. *)
Theorem validateStrategy_clamp_idempotent :
  forall (dsl : json) (limits : Validation.ValidationLimits),
    Validation.valid (Validation.validateStrategy dsl limits) = true ->
    exists s,
      Validation.strategy (Validation.validateStrategy dsl limits) = Some s /\
      (max_slippage_bps (controls s)
       <= Validation.max_slippage_bps limits)%Q /\
      Validation.clamped
        (Validation.validateStrategy (StrategyDSL_json s) limits) = [].
Proof.
  intros dsl limits Hvalid.
  destruct (proj1 (ValidationFacts.validateStrategy_valid dsl limits) Hvalid)
    as (data & Eparse & _).
  exists (Validation.clamp data limits).
  split; [apply ValidationFacts.validateStrategy_strategy; assumption|].
  split; [apply ValidationFacts.clamp_within|].
  rewrite ValidationFacts.validateStrategy_clamped.
  destruct (safeParse (StrategyDSL_json (Validation.clamp data limits)))
    as [again|issues] eqn:Eagain; [|reflexivity].
  apply SchemaFacts.safeParse_json_inv in Eagain as [-> _].
  rewrite (proj2 (gt_false _ _) (ValidationFacts.clamp_within data limits)).
  reflexivity.
Qed.

Lemma validateStrategy_clamp_idempotent_witness :
  exists s,
    Validation.strategy
      (Validation.validateStrategy (StrategyDSL_json Samples.wideStrategy)
         Samples.defaultLimits) = Some s /\
    (max_slippage_bps (controls s) <= 75)%Q /\
    Validation.clamped
      (Validation.validateStrategy (StrategyDSL_json s)
         Samples.defaultLimits) = [].
Proof.
  apply (validateStrategy_clamp_idempotent
           (StrategyDSL_json Samples.wideStrategy) Samples.defaultLimits).
  reflexivity.
Defined.

(** The test "clamps slippage above hard max". *)
Example validateStrategy_clamps_100_to_75 :
  let result :=
    Validation.validateStrategy (StrategyDSL_json Samples.wideStrategy)
      Samples.defaultLimits in
  Validation.valid result = true /\
  (max_slippage_bps <$> (controls <$> Validation.strategy result)) = Some 75%Q /\
  Validation.clamped result = [Validation.SlippageClamped 100 75].
Proof. repeat split. Qed.

(** A limit below the schema's own minimum still clamps; the clamped
    strategy then no longer passes the schema, and validating it again
    fails without recording a clamp. *)
Example validateStrategy_clamp_below_schema_minimum :
  let limits :=
    {| Validation.allowed_pairs := ["ETH/USDC"];
       Validation.max_spend_usdc := 500;
       Validation.max_slippage_bps := 0 |} in
  let result :=
    Validation.validateStrategy (StrategyDSL_json Samples.sampleStrategy)
      limits in
  Validation.valid result = true /\
  exists s, Validation.strategy result = Some s /\
    Validation.valid
      (Validation.validateStrategy (StrategyDSL_json s) limits) = false /\
    Validation.clamped
      (Validation.validateStrategy (StrategyDSL_json s) limits) = [].
Proof. split; [reflexivity|]. eexists. repeat split. Qed.

(** ** The two spend checks *)

Module RiskFacts.
Import Risk.

Lemma checkRisk_violations s config :
  violations (checkRisk s config) =
  (if negb (Js.includes (allowed_pairs config) (pair s))
   then [PairViolation (pair s)] else [])
  ++ (if Js.gt (Js.sumBy amount_usdc (actions s)) (max_spend_usdc config)
      then [SpendViolation (Js.sumBy amount_usdc (actions s))
              (max_spend_usdc config)] else [])
  ++ (if Js.gt (Schemas.max_slippage_bps (controls s))
               (max_slippage_bps config)
      then [SlippageViolation (Schemas.max_slippage_bps (controls s))
              (max_slippage_bps config)] else [])
  ++ (if Js.gt (expires_in_minutes (controls s)) (max_expires_minutes config)
      then [ExpiryViolation (expires_in_minutes (controls s))
              (max_expires_minutes config)] else []).
Proof.
  unfold checkRisk. cbn [violations].
  destruct (negb (Js.includes (allowed_pairs config) (pair s)));
    destruct (Js.gt (Js.sumBy amount_usdc (actions s)) (max_spend_usdc config));
    destruct (Js.gt (Schemas.max_slippage_bps (controls s))
                (max_slippage_bps config));
    destruct (Js.gt (expires_in_minutes (controls s))
                (max_expires_minutes config));
    reflexivity.
Qed.

Lemma checkRisk_passed s config :
  passed (checkRisk s config) = true <-> violations (checkRisk s config) = [].
Proof.
  unfold checkRisk. cbn [passed violations].
  match goal with |- (length ?l =? 0)%nat = true <-> _ => destruct l end;
    simpl; split; intros; try reflexivity; discriminate.
Qed.






End RiskFacts.



(** The test "collects multiple violations": all four at once. *)
Example checkRisk_collects_all_four :
  Risk.violations
    (Risk.checkRisk
       {| pair := "SHIB/USDC";
          conditions := [{| cond_type := price_below; value := 1 |}];
          actions := [{| action_type := swap; amount_usdc := 600;
                         direction := buy |}];
          controls := {| max_slippage_bps := 100;
                         approval_mode := approval_auto;
                         expires_in_minutes := 2880 |} |}
       Samples.defaultConfig)
  = [Risk.PairViolation "SHIB/USDC";
     Risk.SpendViolation (0 + 600) 500;
     Risk.SlippageViolation 100 75;
     Risk.ExpiryViolation 2880 1440].
Proof. reflexivity. Qed.

(** ** The store *)

Module StoreFacts.
Import Store.

Section Cells.
Context {A : Type}.
Implicit Types (st : store A) (a r : nat) (v : A) (c : cell A).

Lemma get_Some st r v : get st r = Some v <-> st !! r = Some (Obj v).
Proof.
  unfold get. destruct (st !! r) as [[w|es]|]; split; intros E;
    try discriminate; inversion E; reflexivity.
Qed.

Lemma get_lt st r : is_Some (get st r) -> r < length st.
Proof.
  intros [v E]. apply get_Some in E. eapply lookup_lt_Some. exact E.
Qed.

Lemma is_array_lt st a : is_array st a -> a < length st.
Proof. intros [es E]. eapply lookup_lt_Some. exact E. Qed.

Lemma is_array_get st a : is_array st a -> get st a = None.
Proof. intros [es E]. unfold get. rewrite E. reflexivity. Qed.

(** *** Allocation *)

Lemma lookup_alloc_old st c r :
  r < length st -> snd (alloc st c) !! r = st !! r.
Proof.
  intros Hr. unfold alloc. cbn [fst snd]. apply lookup_app_l. exact Hr.
Qed.

Lemma lookup_alloc_new st c : snd (alloc st c) !! fst (alloc st c) = Some c.
Proof.
  unfold alloc. cbn [fst snd].
  rewrite lookup_app_r by lia. rewrite Nat.sub_diag. reflexivity.
Qed.

Lemma get_alloc_old st c r : r < length st -> get (st ++ [c]) r = get st r.
Proof.
  intros Hr. unfold get. rewrite lookup_app_l by exact Hr. reflexivity.
Qed.

Lemma get_alloc_new st v : get (st ++ [Obj v]) (length st) = Some v.
Proof.
  unfold get. rewrite lookup_app_r by lia. rewrite Nat.sub_diag. reflexivity.
Qed.

Lemma elems_of_alloc_old st c a :
  a < length st -> elems_of (st ++ [c]) a = elems_of st a.
Proof.
  intros Ha. unfold elems_of. rewrite lookup_app_l by exact Ha. reflexivity.
Qed.

Lemma is_array_alloc st c a : is_array st a -> is_array (st ++ [c]) a.
Proof.
  intros [es E]. exists es. rewrite lookup_app_l; [exact E|].
  eapply lookup_lt_Some. exact E.
Qed.

(** *** Field writes *)

Lemma length_update st r f : length (update st r f) = length st.
Proof.
  unfold update. destruct (st !! r) as [[w|es]|]; try reflexivity.
  apply length_insert.
Qed.

Lemma get_update_eq st r f : get (update st r f) r = f <$> get st r.
Proof.
  unfold update, get. destruct (st !! r) as [[w|es]|] eqn:E.
  - rewrite list_lookup_insert_eq
      by (eapply lookup_lt_Some; exact E). reflexivity.
  - rewrite E. reflexivity.
  - rewrite E. reflexivity.
Qed.

Lemma lookup_update_ne st r f r' :
  r <> r' -> update st r f !! r' = st !! r'.
Proof.
  intros Hne. unfold update. destruct (st !! r) as [[w|es]|]; try reflexivity.
  apply list_lookup_insert_ne. exact Hne.
Qed.

Lemma get_update_ne st r f r' :
  r <> r' -> get (update st r f) r' = get st r'.
Proof. intros Hne. unfold get. rewrite lookup_update_ne by exact Hne. reflexivity. Qed.

Lemma elems_of_update st r f a : elems_of (update st r f) a = elems_of st a.
Proof.
  destruct (decide (r = a)) as [->|Hne].
  - unfold update, elems_of. destruct (st !! a) as [[w|es]|] eqn:E.
    + rewrite list_lookup_insert_eq
        by (eapply lookup_lt_Some; exact E). reflexivity.
    + rewrite E. reflexivity.
    + rewrite E. reflexivity.
  - unfold elems_of. rewrite lookup_update_ne by exact Hne. reflexivity.
Qed.

Lemma is_array_update st r f a : is_array st a -> is_array (update st r f) a.
Proof.
  intros [es E]. exists es.
  destruct (decide (r = a)) as [->|Hne].
  - unfold update. rewrite E. exact E.
  - rewrite lookup_update_ne by exact Hne. exact E.
Qed.

(** *** Array writes *)

Lemma length_set_elems st a es : length (set_elems st a es) = length st.
Proof.
  unfold set_elems. destruct (st !! a) as [[w|es']|]; try reflexivity.
  apply length_insert.
Qed.

Lemma lookup_set_elems_ne st a es r :
  a <> r -> set_elems st a es !! r = st !! r.
Proof.
  intros Hne. unfold set_elems.
  destruct (st !! a) as [[w|es']|]; try reflexivity.
  apply list_lookup_insert_ne. exact Hne.
Qed.

Lemma get_set_elems st a es r : get (set_elems st a es) r = get st r.
Proof.
  destruct (decide (a = r)) as [->|Hne].
  - unfold set_elems, get. destruct (st !! r) as [[w|es']|] eqn:E.
    + rewrite E. reflexivity.
    + rewrite list_lookup_insert_eq
        by (eapply lookup_lt_Some; exact E). reflexivity.
    + rewrite E. reflexivity.
  - unfold get. rewrite lookup_set_elems_ne by exact Hne. reflexivity.
Qed.

Lemma elems_of_set_elems_eq st a es :
  is_array st a -> elems_of (set_elems st a es) a = es.
Proof.
  intros [es' E]. unfold set_elems, elems_of. rewrite E.
  rewrite list_lookup_insert_eq
    by (eapply lookup_lt_Some; exact E). reflexivity.
Qed.

Lemma elems_of_set_elems_ne st a es a' :
  a <> a' -> elems_of (set_elems st a es) a' = elems_of st a'.
Proof.
  intros Hne. unfold elems_of.
  rewrite lookup_set_elems_ne by exact Hne. reflexivity.
Qed.

Lemma is_array_set_elems st a es a' :
  is_array st a' -> is_array (set_elems st a es) a'.
Proof.
  intros [es' E].
  destruct (decide (a = a')) as [->|Hne].
  - exists es. unfold set_elems. rewrite E.
    apply list_lookup_insert_eq. eapply lookup_lt_Some. exact E.
  - exists es'. rewrite lookup_set_elems_ne by exact Hne. exact E.
Qed.

(** *** Reading an array through the store *)

Lemma omap_get_ext st st' (es : list nat) :
  Forall (fun r => get st' r = get st r) es ->
  omap (get st') es = omap (get st) es.
Proof.
  induction 1 as [|r es Hr _ IH]; csimpl; [reflexivity|].
  rewrite Hr, IH. reflexivity.
Qed.

Lemma array_ok_elems_lt st a :
  array_ok st a -> Forall (fun r => r < length st) (elems_of st a).
Proof.
  intros [_ Hall]. eapply Forall_impl; [exact Hall|].
  intros r Hr. apply get_lt. exact Hr.
Qed.

(** Allocating leaves every existing array as it was. *)
Lemma contents_alloc st c a :
  array_ok st a -> contents (st ++ [c]) a = contents st a.
Proof.
  intros Hok. unfold contents.
  rewrite elems_of_alloc_old by (apply is_array_lt, Hok).
  apply omap_get_ext.
  eapply Forall_impl; [apply array_ok_elems_lt; exact Hok|].
  intros r Hr. apply get_alloc_old. exact Hr.
Qed.

Lemma array_ok_alloc st c a : array_ok st a -> array_ok (st ++ [c]) a.
Proof.
  intros Hok. split; [apply is_array_alloc, Hok|].
  rewrite elems_of_alloc_old by (apply is_array_lt, Hok).
  pose proof (array_ok_elems_lt st a Hok) as Hlt.
  destruct Hok as [_ Hall].
  rewrite Forall_forall in *. intros r Hr.
  rewrite get_alloc_old by (apply Hlt; exact Hr). apply Hall. exact Hr.
Qed.

(** A new array is well formed and empty. *)
Lemma array_ok_new st : array_ok (st ++ [Arr []]) (length st).
Proof.
  split.
  - exists []. rewrite lookup_app_r by lia. rewrite Nat.sub_diag. reflexivity.
  - unfold elems_of. rewrite lookup_app_r by lia.
    rewrite Nat.sub_diag. simpl. constructor.
Qed.

Lemma contents_new st : contents (st ++ [Arr []]) (length st) = [].
Proof.
  unfold contents, elems_of. rewrite lookup_app_r by lia.
  rewrite Nat.sub_diag. reflexivity.
Qed.

(** Creating an object, changing it and pushing it: the array gains
    exactly that object, as changed. *)
Lemma contents_alloc_update_push st a v f :
  array_ok st a ->
  contents (push (update (st ++ [Obj v]) (length st) f) a (length st)) a
  = contents st a ++ [f v].
Proof.
  intros Hok.
  pose proof (is_array_lt st a (proj1 Hok)) as Ha.
  pose proof (array_ok_elems_lt st a Hok) as Hlt.
  unfold contents, push.
  rewrite elems_of_set_elems_eq
    by (apply is_array_update, is_array_alloc, Hok).
  rewrite elems_of_update, elems_of_alloc_old by exact Ha.
  rewrite omap_app. f_equal.
  - apply omap_get_ext. eapply Forall_impl; [exact Hlt|].
    intros r Hr. cbv beta in Hr |- *. rewrite get_set_elems.
    rewrite get_update_ne by lia. apply get_alloc_old. exact Hr.
  - simpl. rewrite get_set_elems, get_update_eq, get_alloc_new. reflexivity.
Qed.

Lemma contents_alloc_push st a v :
  array_ok st a ->
  contents (push (st ++ [Obj v]) a (length st)) a = contents st a ++ [v].
Proof.
  intros Hok.
  pose proof (is_array_lt st a (proj1 Hok)) as Ha.
  pose proof (array_ok_elems_lt st a Hok) as Hlt.
  unfold contents, push.
  rewrite elems_of_set_elems_eq by (apply is_array_alloc, Hok).
  rewrite elems_of_alloc_old by exact Ha.
  rewrite omap_app. f_equal.
  - apply omap_get_ext. eapply Forall_impl; [exact Hlt|].
    intros r Hr. cbv beta in Hr |- *. rewrite get_set_elems.
    apply get_alloc_old. exact Hr.
  - simpl. rewrite get_set_elems, get_alloc_new. reflexivity.
Qed.

Lemma array_ok_push st a r :
  array_ok st a -> is_Some (get st r) -> array_ok (push st a r) a.
Proof.
  intros [Harr Hall] Hr. unfold push. split.
  - apply is_array_set_elems. exact Harr.
  - rewrite elems_of_set_elems_eq by exact Harr.
    apply Forall_app. split.
    + eapply Forall_impl; [exact Hall|]. intros r' Hr'. cbv beta.
      rewrite get_set_elems. exact Hr'.
    + constructor; [|constructor]. rewrite get_set_elems. exact Hr.
Qed.

Lemma array_ok_update st a r f : array_ok st a -> array_ok (update st r f) a.
Proof.
  intros [Harr Hall]. split; [apply is_array_update; exact Harr|].
  rewrite elems_of_update. eapply Forall_impl; [exact Hall|].
  intros r' Hr'. cbv beta.
  destruct (decide (r = r')) as [->|Hne].
  - rewrite get_update_eq. destruct Hr' as [v ->]. eexists. reflexivity.
  - rewrite get_update_ne by exact Hne. exact Hr'.
Qed.

(** [[...a]] makes a new array with the same contents and leaves [a]
    alone. *)
Lemma contents_spread_copy st a :
  array_ok st a ->
  contents (snd (spread st a)) (fst (spread st a)) = contents st a.
Proof.
  intros Hok. unfold spread, alloc, contents. cbn [fst snd].
  assert (E : elems_of (st ++ [Arr (elems_of st a)]) (length st)
              = elems_of st a).
  { unfold elems_of at 1. rewrite lookup_app_r by lia.
    rewrite Nat.sub_diag. reflexivity. }
  rewrite E.
  apply omap_get_ext.
  eapply Forall_impl; [apply array_ok_elems_lt; exact Hok|].
  intros r Hr. apply get_alloc_old. exact Hr.
Qed.

End Cells.
End StoreFacts.

(** ** What code outside the owner of an array can change *)

Module CallerFacts.
Import Store StoreFacts.

Section Cells.
Context {A : Type}.
Implicit Types (st : store A) (a r : nat) (op : CallerOp A).

Lemma contents_same st st' a :
  elems_of st' a = elems_of st a ->
  Forall (fun r => get st' r = get st r) (elems_of st a) ->
  contents st' a = contents st a.
Proof.
  intros Eelems Hget. unfold contents. rewrite Eelems.
  apply omap_get_ext. exact Hget.
Qed.

Lemma caller_step_frame st a copy fresh op :
  owned st a fresh -> a <> copy -> on_returned_array copy fresh op ->
  owned (caller_step st op) a fresh /\
  contents (caller_step st op) a = contents st a.
Proof.
  intros [Hok Hfresh] Hne Hop.
  destruct op as [a' es|r f|v]; simpl in Hop; simpl.
  - subst a'.
    assert (E : elems_of (set_elems st copy es) a = elems_of st a)
      by (apply elems_of_set_elems_ne; congruence).
    split; [split; [split|]|].
    + apply is_array_set_elems, Hok.
    + rewrite E. eapply Forall_impl; [exact (proj2 Hok)|].
      intros r Hr. cbv beta in Hr |- *. rewrite get_set_elems. exact Hr.
    + rewrite E. exact Hfresh.
    + apply contents_same; [exact E|].
      apply Forall_forall. intros r _. apply get_set_elems.
  - split; [split; [apply array_ok_update; exact Hok|]|].
    + rewrite elems_of_update. exact Hfresh.
    + apply contents_same; [apply elems_of_update|].
      eapply Forall_impl; [exact Hfresh|].
      intros r' Hr'. cbv beta in Hr' |- *. apply get_update_ne. lia.
  - unfold alloc. cbn [snd].
    split; [split; [apply array_ok_alloc; exact Hok|]|].
    + rewrite elems_of_alloc_old by (apply is_array_lt, Hok). exact Hfresh.
    + apply contents_alloc. exact Hok.
Qed.

(** Whatever a caller does to an array it was handed, and to objects it
    made itself, an array it was not handed reads as before. *)
Lemma caller_run_frame (ops : list (CallerOp A)) st a copy fresh :
  owned st a fresh -> a <> copy ->
  Forall (on_returned_array copy fresh) ops ->
  owned (caller_run st ops) a fresh /\
  contents (caller_run st ops) a = contents st a.
Proof.
  revert st. induction ops as [|op ops IH]; intros st Hown Hne Hops.
  - split; [exact Hown|reflexivity].
  - inversion Hops as [|? ? Hop Hrest]; subst.
    destruct (caller_step_frame st a copy fresh op Hown Hne Hop)
      as [Hown' Hsame].
    destruct (IH (caller_step st op) Hown' Hne Hrest) as [Hown'' Hsame'].
    unfold caller_run in *. simpl.
    split; [exact Hown''|]. rewrite Hsame'. exact Hsame.
Qed.

(** After [[...a]] the owner's array is owned with respect to the store's
    new size, and the copy is another array. *)
Lemma spread_owned st a :
  array_ok st a ->
  owned (snd (spread st a)) a (length (snd (spread st a))) /\
  a <> fst (spread st a).
Proof.
  intros Hok. unfold spread, alloc. cbn [fst snd].
  pose proof (is_array_lt st a (proj1 Hok)) as Ha.
  split; [split|lia].
  - apply array_ok_alloc. exact Hok.
  - rewrite elems_of_alloc_old by exact Ha. rewrite length_app. simpl.
    eapply Forall_impl; [apply array_ok_elems_lt; exact Hok|].
    intros r Hr. cbv beta in Hr |- *. lia.
Qed.

End Cells.
End CallerFacts.

(** ** The economic reasoning engine *)

Module EconomicFacts.
Import Economic.

Lemma engine_new_well_formed initialBudget st : well_formed (new initialBudget st).
Proof. apply StoreFacts.array_ok_new. Qed.

Lemma engine_new_ledger initialBudget st : ledger (new initialBudget st) = [].
Proof. apply StoreFacts.contents_new. Qed.

Lemma recordSpend_well_formed this amount :
  well_formed this -> well_formed (recordSpend this amount).
Proof. intros H. exact H. Qed.

Lemma recordSpend_ledger this amount :
  ledger (recordSpend this amount) = ledger this.
Proof. reflexivity. Qed.

Lemma getReasonCodes_reads_ledger this :
  well_formed this ->
  read (snd (getReasonCodes this)) (fst (getReasonCodes this)) = ledger this.
Proof. intros Hok. apply StoreFacts.contents_spread_copy. exact Hok. Qed.

Lemma shouldPurchase_ledger `{NodeRuntime} this toolName costUsdc :
  well_formed this ->
  ledger (snd (shouldPurchase this toolName costUsdc))
  = ledger this ++ [decision_code this toolName costUsdc].
Proof.
  intros Hok. unfold shouldPurchase, Store.alloc, ledger.
  cbn [snd heap reasonCodes].
  apply StoreFacts.contents_alloc_push. exact Hok.
Qed.

Lemma shouldPurchase_well_formed `{NodeRuntime} this toolName costUsdc :
  well_formed this ->
  well_formed (snd (shouldPurchase this toolName costUsdc)).
Proof.
  intros Hok. unfold shouldPurchase, Store.alloc, well_formed.
  cbn [snd heap reasonCodes].
  apply StoreFacts.array_ok_push.
  - apply StoreFacts.array_ok_alloc. exact Hok.
  - rewrite StoreFacts.get_alloc_new. eexists. reflexivity.
Qed.

Lemma getReasonCodes_well_formed this :
  well_formed this -> well_formed (snd (getReasonCodes this)).
Proof. intros Hok. apply StoreFacts.array_ok_alloc. exact Hok. Qed.

(** Every engine state a history of calls leads to is well formed. *)
Lemma after_well_formed `{NodeRuntime} initialBudget calls :
  well_formed (after initialBudget calls).
Proof.
  unfold after.
  generalize (engine_new_well_formed initialBudget []).
  generalize (new initialBudget []).
  induction calls as [|c calls IH]; intros this Hok; [exact Hok|].
  apply IH. destruct c; simpl.
  - apply shouldPurchase_well_formed. exact Hok.
  - exact Hok.
  - apply getReasonCodes_well_formed. exact Hok.
Qed.

End EconomicFacts.

(** C7. In any engine state, [shouldPurchase] answers [true] exactly when
    the cost is at most the remaining budget (so also when they are equal),
    leaves the remaining budget as it was, and appends exactly one reason
    code, which records the tool, the cost, the budget at the time of the
    decision and the decision.  Reading the reason codes does not change
    the budget either; [recordSpend] is what debits it. *)
Theorem shouldPurchase_decides_and_records :
  forall (R : NodeRuntime) (this : Economic.EconomicReasoningEngine)
         (toolName : string) (costUsdc : Q),
    Economic.well_formed this ->
    let result := Economic.shouldPurchase this toolName costUsdc in
    (fst result = true <-> (costUsdc <= Economic.getBudgetRemaining this)%Q) /\
    Economic.getBudgetRemaining (snd result)
    = Economic.getBudgetRemaining this /\
    (exists code,
        Economic.ledger (snd result) = Economic.ledger this ++ [code] /\
        Economic.tool code = toolName /\
        Economic.cost_usdc code = costUsdc /\
        Economic.budget_remaining_usdc code
        = Economic.getBudgetRemaining this /\
        Economic.decision code
        = (if fst result then Economic.proceed else Economic.skip)) /\
    Economic.well_formed (snd result) /\
    Economic.getBudgetRemaining (snd (Economic.getReasonCodes this))
    = Economic.getBudgetRemaining this /\
    (forall amount,
        Economic.getBudgetRemaining (Economic.recordSpend this amount)
        = (Economic.getBudgetRemaining this - amount)%Q).
Proof.
  intros R this toolName costUsdc Hok result.
  split; [apply ge_true|].
  split; [reflexivity|].
  split; [|split; [|split; [reflexivity|intros amount; reflexivity]]].
  - exists (Economic.decision_code this toolName costUsdc).
    split; [apply EconomicFacts.shouldPurchase_ledger; exact Hok|].
    repeat split.
  - apply EconomicFacts.shouldPurchase_well_formed. exact Hok.
Qed.

Lemma shouldPurchase_decides_and_records_witness :
  let this := Economic.new 2 [] in
  let result := @Economic.shouldPurchase Model.runtime this "feed_a" 2 in
  fst result = true /\
  Economic.getBudgetRemaining (snd result) = 2%Q /\
  length (Economic.ledger (snd result)) = 1%nat.
Proof.
  cbv zeta.
  destruct (shouldPurchase_decides_and_records Model.runtime
              (Economic.new 2 []) "feed_a" 2
              (EconomicFacts.engine_new_well_formed 2 []))
    as (Hdec & Hbudget & (code & Hledger & _) & _).
  split; [|split].
  - apply Hdec. apply Qle_bool_iff. reflexivity.
  - exact Hbudget.
  - rewrite Hledger, (EconomicFacts.engine_new_ledger 2 []). reflexivity.
Defined.

(** C10. [recordSpend] subtracts the amount from the remaining budget in
    every state, without checking affordability and without a floor: when
    the amount exceeds the remaining budget the budget becomes negative, and
    from then on [shouldPurchase] refuses every positive cost. *)
Theorem recordSpend_has_no_floor :
  forall (R : NodeRuntime) (this : Economic.EconomicReasoningEngine)
         (amount : Q),
    Economic.getBudgetRemaining (Economic.recordSpend this amount)
    = (Economic.getBudgetRemaining this - amount)%Q /\
    ((Economic.getBudgetRemaining this < amount)%Q ->
     (Economic.getBudgetRemaining (Economic.recordSpend this amount) < 0)%Q /\
     forall (toolName : string) (costUsdc : Q),
       (0 < costUsdc)%Q ->
       fst (Economic.shouldPurchase (Economic.recordSpend this amount)
              toolName costUsdc) = false).
Proof.
  intros R this amount. split; [reflexivity|].
  intros Hover.
  unfold Economic.getBudgetRemaining, Economic.recordSpend in *.
  cbn [Economic.budgetRemaining] in *.
  split; [lra|].
  intros toolName costUsdc Hpos.
  unfold Economic.shouldPurchase, Store.alloc.
  cbn [fst Economic.budgetRemaining].
  destruct (Js.ge (Economic.budgetRemaining this - amount) costUsdc) eqn:E;
    [|reflexivity].
  apply ge_true in E. lra.
Qed.

Lemma recordSpend_has_no_floor_witness :
  let this := Economic.recordSpend (Economic.new 1 []) 2 in
  (Economic.getBudgetRemaining this < 0)%Q /\
  fst (@Economic.shouldPurchase Model.runtime this "feed_b" (1 # 100)) = false.
Proof.
  cbv zeta.
  destruct (recordSpend_has_no_floor Model.runtime (Economic.new 1 []) 2)
    as [_ Hover].
  destruct Hover as [Hneg Hrefuse]; [reflexivity|].
  split; [exact Hneg|]. apply Hrefuse. reflexivity.
Defined.

(** The test "returns false after budget is exhausted". *)
Example shouldPurchase_after_spending_all :
  let engine := Economic.new 3 [] in
  let first := @Economic.shouldPurchase Model.runtime engine "feed_a" 2 in
  let engine := Economic.recordSpend (snd first) 2 in
  let second := @Economic.shouldPurchase Model.runtime engine "feed_b" 2 in
  fst first = true /\ fst second = false /\
  Economic.reason <$> Economic.ledger (snd second)
  = ["feed_a costs $2.00. Budget remaining $3.00. Proceeding.";
     "feed_b costs $2.00. Budget remaining $1.00. Skipping."].
Proof. vm_compute. repeat split. Qed.

(** ** The payment client *)

Module PaymentFacts.
Import Payment.

Lemma client_new_well_formed st : well_formed (new st).
Proof. apply StoreFacts.array_ok_new. Qed.

Lemma client_new_ledger st : ledger (new st) = [].
Proof. apply StoreFacts.contents_new. Qed.

(** The code's filter-then-reduce agrees with the specification's sum. *)
Lemma sum_filter_successful (rs : list PaymentRecord) :
  (Js.sumBy cost_usdc (List.filter is_success rs)
   == sum_of_successful rs)%Q.
Proof.
  induction rs as [|r rs IH]; [reflexivity|].
  cbn [List.filter sum_of_successful]. unfold is_success at 1.
  destruct (status r).
  - rewrite sumBy_cons, IH. reflexivity.
  - exact IH.
Qed.

Lemma getTotalSpent_sum this :
  (getTotalSpent this == sum_of_successful (ledger this))%Q.
Proof. apply sum_filter_successful. Qed.

Lemma sum_of_successful_app rs rs' :
  (sum_of_successful (rs ++ rs')
   == sum_of_successful rs + sum_of_successful rs')%Q.
Proof.
  induction rs as [|r rs IH]; simpl; [ring|].
  destruct (status r); rewrite IH; ring.
Qed.

Lemma getPaymentRecords_reads_ledger this :
  well_formed this ->
  read (snd (getPaymentRecords this)) (fst (getPaymentRecords this))
  = ledger this.
Proof. intros Hok. apply StoreFacts.contents_spread_copy. exact Hok. Qed.

Lemma getPaymentRecords_well_formed this :
  well_formed this -> well_formed (snd (getPaymentRecords this)).
Proof. intros Hok. apply StoreFacts.array_ok_alloc. exact Hok. Qed.

(** Every call of [fetchWithPayment], however it ends, leaves the client
    well formed. *)
Lemma fetchWithPayment_well_formed `{NodeRuntime} this toolUrl signPayment
    toolCostUsdc w :
  well_formed this ->
  well_formed (snd (fetchWithPayment this toolUrl signPayment toolCostUsdc w)).
Proof.
  intros Hok. unfold fetchWithPayment, Store.alloc.
  destruct (first_fetch w) as [firstResponse|e]; [|exact Hok].
  destruct (http_status firstResponse =? 402)%nat.
  2:{ destruct (negb (ok firstResponse)); exact Hok. }
  destruct (signPayment toolCostUsdc) as [txHash|e]; [|exact Hok].
  destruct (retry_fetch w txHash) as [retryResponse|e].
  - destruct (negb (ok retryResponse)); unfold well_formed;
      cbn [snd heap records with_heap].
    + apply StoreFacts.array_ok_push.
      * apply StoreFacts.array_ok_update, StoreFacts.array_ok_alloc, Hok.
      * rewrite StoreFacts.get_update_eq, StoreFacts.get_alloc_new.
        eexists. reflexivity.
    + apply StoreFacts.array_ok_push.
      * apply StoreFacts.array_ok_alloc, Hok.
      * rewrite StoreFacts.get_alloc_new. eexists. reflexivity.
  - unfold well_formed. cbn [snd heap records with_heap].
    apply StoreFacts.array_ok_alloc, Hok.
Qed.

(** Every client state a history of calls leads to is well formed. *)
Lemma after_calls_well_formed `{NodeRuntime} calls :
  well_formed (after calls).
Proof.
  unfold after.
  generalize (client_new_well_formed []).
  generalize (new []).
  induction calls as [|c calls IH]; intros this Hok; [exact Hok|].
  apply IH. destruct c; simpl.
  - apply fetchWithPayment_well_formed. exact Hok.
  - apply getPaymentRecords_well_formed. exact Hok.
Qed.

(** A retry whose request itself is rejected (no response at all) is not
    a failed retry in the code's sense: the rejection propagates and the
    ledger is as it was. *)
Lemma rejected_retry_request_propagates `{NodeRuntime} this toolUrl
    signPayment toolCostUsdc w firstResponse txHash message :
  well_formed this ->
  first_fetch w = Returned firstResponse ->
  http_status firstResponse = 402%nat ->
  signPayment toolCostUsdc = Returned txHash ->
  retry_fetch w txHash = Thrown message ->
  fst (fetchWithPayment this toolUrl signPayment toolCostUsdc w)
  = Thrown message /\
  ledger (snd (fetchWithPayment this toolUrl signPayment toolCostUsdc w))
  = ledger this.
Proof.
  intros Hok Hfirst H402 Hsign Hretry.
  unfold fetchWithPayment, Store.alloc.
  rewrite Hfirst, H402. cbn [Nat.eqb]. rewrite Hsign, Hretry.
  cbn [fst snd]. split; [reflexivity|].
  unfold ledger. cbn [heap records with_heap].
  apply StoreFacts.contents_alloc. exact Hok.
Qed.

End PaymentFacts.

(** The retry that is answered, but not with a 2xx status.  For every
    client, [getTotalSpent] is the sum of [cost_usdc] over the ledger's
    records whose status is [success]; and when the first response is a 402
    and the answer to the paid retry is not ok, [fetchWithPayment] throws
    the retry-failure error and the ledger gains exactly one record, with
    status [failed], which leaves [getTotalSpent] as it was. *)
Theorem failed_retry_is_recorded_and_costs_nothing :
  forall (R : NodeRuntime) (this : Payment.X402PaymentClient)
         (toolUrl : string) (signPayment : Q -> Outcome string)
         (toolCostUsdc : Q) (w : Payment.World)
         (firstResponse retryResponse : Payment.Response) (txHash : string),
    Payment.well_formed this ->
    Payment.first_fetch w = Returned firstResponse ->
    Payment.http_status firstResponse = 402%nat ->
    signPayment toolCostUsdc = Returned txHash ->
    Payment.retry_fetch w txHash = Returned retryResponse ->
    Payment.ok retryResponse = false ->
    let result :=
      Payment.fetchWithPayment this toolUrl signPayment toolCostUsdc w in
    (forall any : Payment.X402PaymentClient,
        (Payment.getTotalSpent any
         == Payment.sum_of_successful (Payment.ledger any))%Q) /\
    fst result
    = Thrown ("Paid tool retry failed: HTTP "
                +:+ Payment.status_text retryResponse) /\
    Payment.ledger (snd result)
    = Payment.ledger this
        ++ [{| Payment.tool := toolUrl;
               Payment.cost_usdc := toolCostUsdc;
               Payment.tx_hash := txHash;
               Payment.timestamp := toISOString (Payment.clock w);
               Payment.status := Payment.failed |}] /\
    (Payment.getTotalSpent (snd result) == Payment.getTotalSpent this)%Q /\
    Payment.well_formed (snd result).
Proof.
  intros R this toolUrl signPayment toolCostUsdc w firstResponse retryResponse
    txHash Hok Hfirst H402 Hsign Hretry Hfail result.
  split; [apply PaymentFacts.getTotalSpent_sum|].
  assert (Hwf : Payment.well_formed (snd result))
    by (apply PaymentFacts.fetchWithPayment_well_formed; exact Hok).
  subst result. revert Hwf.
  unfold Payment.fetchWithPayment, Store.alloc.
  rewrite Hfirst, H402. cbn [Nat.eqb].
  rewrite Hsign, Hretry, Hfail. cbn [negb fst snd].
  intros Hwf.
  assert (Hledger :
    Payment.ledger
      (Payment.with_heap this
         (Store.push
            (Store.update
               (Payment.heap this
                  ++ [Store.Obj
                        {| Payment.tool := toolUrl;
                           Payment.cost_usdc := toolCostUsdc;
                           Payment.tx_hash := txHash;
                           Payment.timestamp := toISOString (Payment.clock w);
                           Payment.status := Payment.success |}])
               (length (Payment.heap this))
               (Payment.with_status Payment.failed))
            (Payment.records this) (length (Payment.heap this))))
    = Payment.ledger this
        ++ [{| Payment.tool := toolUrl;
               Payment.cost_usdc := toolCostUsdc;
               Payment.tx_hash := txHash;
               Payment.timestamp := toISOString (Payment.clock w);
               Payment.status := Payment.failed |}]).
  { unfold Payment.ledger. cbn [Payment.heap Payment.records Payment.with_heap].
    rewrite StoreFacts.contents_alloc_update_push by exact Hok.
    reflexivity. }
  split; [reflexivity|].
  split; [exact Hledger|].
  split; [|exact Hwf].
  rewrite !PaymentFacts.getTotalSpent_sum, Hledger.
  rewrite PaymentFacts.sum_of_successful_app. simpl. ring.
Qed.

Lemma paidClient_well_formed : Payment.well_formed Samples.paidClient.
Proof.
  apply PaymentFacts.fetchWithPayment_well_formed,
    PaymentFacts.client_new_well_formed.
Qed.

Lemma decidedEngine_well_formed : Economic.well_formed Samples.decidedEngine.
Proof.
  apply EconomicFacts.shouldPurchase_well_formed,
    EconomicFacts.engine_new_well_formed.
Qed.

(** The test "only counts successful payments in total spend". *)
Lemma failed_retry_is_recorded_and_costs_nothing_witness :
  let result :=
    @Payment.fetchWithPayment Model.runtime Samples.paidClient
      "https://api.example.com/b" (Samples.signer "0x2") (15 # 10)
      Samples.retryFails in
  fst result = Thrown "Paid tool retry failed: HTTP 500" /\
  Payment.status <$> Payment.ledger (snd result)
  = [Payment.success; Payment.failed] /\
  (Payment.getTotalSpent (snd result) == 5 # 10)%Q.
Proof.
  cbv zeta.
  destruct (failed_retry_is_recorded_and_costs_nothing Model.runtime
              Samples.paidClient "https://api.example.com/b"
              (Samples.signer "0x2") (15 # 10) Samples.retryFails
              Samples.paymentRequired Samples.serverError "0x2"
              paidClient_well_formed eq_refl eq_refl eq_refl eq_refl eq_refl)
    as (_ & Hthrown & Hledger & Htotal & _).
  split; [exact Hthrown|].
  split; [rewrite Hledger; reflexivity|].
  rewrite Htotal. reflexivity.
Defined.

(** C8 does not hold of the code.  The record of a payment is pushed only
    after the retry has been answered.  When the payment has been signed
    and the retry request is then rejected (a network failure, no response
    at all), [fetchWithPayment] throws the error of the request, not the
    retry-failure error, and the ledger is as it was before the call: the
    signed payment, a failed attempt, has left no record.  A retry answered
    with a status that is not ok is recorded as [failed] by the same
    client. *)
Lemma signed_payment_leaves_no_record_when_the_retry_is_not_answered :
  let unanswered :=
    {| Payment.first_fetch := Returned Samples.paymentRequired;
       Payment.retry_fetch := fun _ => Thrown "fetch failed";
       Payment.clock := 2000 |} in
  let result :=
    @Payment.fetchWithPayment Model.runtime Samples.paidClient
      "https://api.example.com/b" (Samples.signer "0x2") (15 # 10)
      unanswered in
  let answered :=
    @Payment.fetchWithPayment Model.runtime Samples.paidClient
      "https://api.example.com/b" (Samples.signer "0x2") (15 # 10)
      Samples.retryFails in
  Samples.signer "0x2" (15 # 10) = Returned "0x2" /\
  fst result = Thrown "fetch failed" /\
  Payment.ledger (snd result) = Payment.ledger Samples.paidClient /\
  Payment.tx_hash <$> Payment.ledger (snd result) = ["0x1"] /\
  fst answered = Thrown "Paid tool retry failed: HTTP 500" /\
  Payment.tx_hash <$> Payment.ledger (snd answered) = ["0x1"; "0x2"] /\
  Payment.status <$> Payment.ledger (snd answered)
  = [Payment.success; Payment.failed].
Proof. vm_compute. repeat split. Qed.

(** ** The ledgers seen from outside *)

(** C5, as stated, fails.  [getPaymentRecords] and [getReasonCodes] copy
    the array, not the entries: a caller that flips the status of the entry
    it finds in the returned array changes what [getTotalSpent] and the
    next [getPaymentRecords] return, and a caller that rewrites the decision
    of a returned reason code changes what the next [getReasonCodes]
    returns. *)
Lemma ledger_entries_are_shared_with_callers :
  (let this := Samples.paidClient in
   let copy := fst (Payment.getPaymentRecords this) in
   let this1 := snd (Payment.getPaymentRecords this) in
   let ops := [Store.FieldWrite 1 (Payment.with_status Payment.failed)] in
   let after := Payment.outside this1 ops in
   Forall (Store.on_returned_value (Payment.heap this1) copy) ops /\
   Payment.status <$> Payment.read this1 copy = [Payment.success] /\
   (Payment.getTotalSpent this == 5 # 10)%Q /\
   (Payment.getTotalSpent after == 0)%Q /\
   Payment.status
     <$> Payment.read (snd (Payment.getPaymentRecords after))
           (fst (Payment.getPaymentRecords after))
   = [Payment.failed]) /\
  (let this := Samples.decidedEngine in
   let copy := fst (Economic.getReasonCodes this) in
   let this1 := snd (Economic.getReasonCodes this) in
   let ops := [Store.FieldWrite 1 (Samples.with_decision Economic.skip)] in
   let after := Economic.outside this1 ops in
   Forall (Store.on_returned_value (Economic.heap this1) copy) ops /\
   Economic.decision <$> Economic.read this1 copy = [Economic.proceed] /\
   Economic.decision
     <$> Economic.read (snd (Economic.getReasonCodes after))
           (fst (Economic.getReasonCodes after))
   = [Economic.skip]).
Proof.
  split; cbv zeta.
  - split; [repeat constructor|]. repeat split.
  - split; [repeat constructor|]. repeat split.
Qed.

(** C5, amended.  Whatever a caller does to the array returned by
    [getPaymentRecords] or [getReasonCodes] (adding, removing, replacing or
    reordering its entries) and to objects the caller made itself, the
    ledger, [getTotalSpent], the next [getPaymentRecords] and the next
    [getReasonCodes] return what they returned before. *)
Theorem returned_arrays_are_copies :
  forall (client : Payment.X402PaymentClient)
         (engine : Economic.EconomicReasoningEngine)
         (clientOps : list (Store.CallerOp Payment.PaymentRecord))
         (engineOps : list (Store.CallerOp Economic.ReasonCode)),
    Payment.well_formed client ->
    Economic.well_formed engine ->
    let records := fst (Payment.getPaymentRecords client) in
    let client1 := snd (Payment.getPaymentRecords client) in
    let codes := fst (Economic.getReasonCodes engine) in
    let engine1 := snd (Economic.getReasonCodes engine) in
    Forall (Store.on_returned_array records (length (Payment.heap client1)))
           clientOps ->
    Forall (Store.on_returned_array codes (length (Economic.heap engine1)))
           engineOps ->
    let client2 := Payment.outside client1 clientOps in
    let engine2 := Economic.outside engine1 engineOps in
    (Payment.ledger client2 = Payment.ledger client /\
     Payment.getTotalSpent client2 = Payment.getTotalSpent client /\
     Payment.read (snd (Payment.getPaymentRecords client2))
                  (fst (Payment.getPaymentRecords client2))
     = Payment.ledger client) /\
    (Economic.ledger engine2 = Economic.ledger engine /\
     Economic.getBudgetRemaining engine2 = Economic.getBudgetRemaining engine /\
     Economic.read (snd (Economic.getReasonCodes engine2))
                   (fst (Economic.getReasonCodes engine2))
     = Economic.ledger engine).
Proof.
  intros client engine clientOps engineOps Hclient Hengine
    records client1 codes engine1 HclientOps HengineOps client2 engine2.
  split.
  - destruct (CallerFacts.spread_owned (Payment.heap client)
                (Payment.records client) Hclient) as [Hown Hne].
    destruct (CallerFacts.caller_run_frame clientOps _ _ _ _ Hown Hne
                HclientOps) as [[Hok _] Hsame].
    assert (Hledger : Payment.ledger client2 = Payment.ledger client).
    { unfold Payment.ledger. subst client2 client1.
      unfold Payment.outside, Payment.getPaymentRecords.
      cbn [Payment.heap Payment.records Payment.with_heap snd].
      etransitivity; [exact Hsame|].
      apply StoreFacts.contents_alloc. exact Hclient. }
    split; [exact Hledger|]. split.
    + unfold Payment.getTotalSpent. fold (Payment.ledger client2).
      fold (Payment.ledger client). rewrite Hledger. reflexivity.
    + rewrite PaymentFacts.getPaymentRecords_reads_ledger; [exact Hledger|].
      exact Hok.
  - destruct (CallerFacts.spread_owned (Economic.heap engine)
                (Economic.reasonCodes engine) Hengine) as [Hown Hne].
    destruct (CallerFacts.caller_run_frame engineOps _ _ _ _ Hown Hne
                HengineOps) as [[Hok _] Hsame].
    assert (Hledger : Economic.ledger engine2 = Economic.ledger engine).
    { unfold Economic.ledger. subst engine2 engine1.
      unfold Economic.outside, Economic.getReasonCodes.
      cbn [Economic.heap Economic.reasonCodes snd].
      etransitivity; [exact Hsame|].
      apply StoreFacts.contents_alloc. exact Hengine. }
    split; [exact Hledger|]. split; [reflexivity|].
    rewrite EconomicFacts.getReasonCodes_reads_ledger; [exact Hledger|].
    exact Hok.
Qed.

(** The test "returns a copy of payment records": a caller pushes a record
    of its own onto the returned array, and marks it failed for good
    measure; the client is none the wiser. *)
Lemma returned_arrays_are_copies_witness :
  let records := fst (Payment.getPaymentRecords Samples.paidClient) in
  let client1 := snd (Payment.getPaymentRecords Samples.paidClient) in
  let codes := fst (Economic.getReasonCodes Samples.decidedEngine) in
  let engine1 := snd (Economic.getReasonCodes Samples.decidedEngine) in
  let clientOps :=
    [Store.NewObject Samples.fakeRecord;
     Store.ArrayWrite records [1; 3]%nat;
     Store.FieldWrite 3 (Payment.with_status Payment.failed)] in
  let engineOps :=
    [Store.NewObject Samples.fakeCode; Store.ArrayWrite codes [3]%nat] in
  Payment.ledger (Payment.outside client1 clientOps)
  = Payment.ledger Samples.paidClient /\
  Economic.ledger (Economic.outside engine1 engineOps)
  = Economic.ledger Samples.decidedEngine.
Proof.
  cbv zeta.
  destruct (returned_arrays_are_copies Samples.paidClient
              Samples.decidedEngine
              [Store.NewObject Samples.fakeRecord;
               Store.ArrayWrite
                 (fst (Payment.getPaymentRecords Samples.paidClient))
                 [1; 3]%nat;
               Store.FieldWrite 3 (Payment.with_status Payment.failed)]
              [Store.NewObject Samples.fakeCode;
               Store.ArrayWrite
                 (fst (Economic.getReasonCodes Samples.decidedEngine))
                 [3]%nat]
              paidClient_well_formed decidedEngine_well_formed)
    as [(Hclient & _) (Hengine & _)].
  - repeat constructor.
  - repeat constructor.
  - split; assumption.
Defined.

(** ** The encrypted intent handler *)

Module EncryptionFacts.
Import Encryption.

Lemma hex_pair_digits (b : byte) :
  hex_pair (hex_digit (Byte.to_N b / 16)) (hex_digit (Byte.to_N b mod 16))
  = Some b.
Proof. destruct b; reflexivity. Qed.

(** Hex-encoding a buffer and decoding it gives the buffer back. *)
Lemma Buffer_from_hex_toString_hex (buf : list byte) :
  Buffer_from_hex (toString_hex buf) = buf.
Proof.
  induction buf as [|b buf IH]; [reflexivity|].
  cbn [toString_hex Buffer_from_hex].
  rewrite hex_pair_digits, IH. reflexivity.
Qed.

Section WithRuntime.
Context `{Laws : NodeRuntimeLaws}.

Lemma encrypt_returns this strategy e :
  length (key this) = KEY_LENGTH ->
  valid_time (expires_ms e strategy) = true ->
  exists intent, encrypt this strategy e = Returned intent.
Proof.
  intros Hkey Htime. unfold encrypt. rewrite Hkey, Htime.
  cbn [Nat.eqb KEY_LENGTH negb]. eexists. reflexivity.
Qed.

Lemma encrypt_invalid_key this strategy e :
  length (key this) <> KEY_LENGTH ->
  encrypt this strategy e = Thrown "Invalid key length".
Proof.
  intros Hkey. unfold encrypt.
  destruct (length (key this) =? KEY_LENGTH)%nat eqn:E; [|reflexivity].
  apply Nat.eqb_eq in E. contradiction.
Qed.

(** An expiry beyond the range of [Date] makes [encrypt] throw. *)
Lemma encrypt_invalid_time this strategy e :
  length (key this) = KEY_LENGTH ->
  valid_time (expires_ms e strategy) = false ->
  encrypt this strategy e = Thrown "Invalid time value".
Proof.
  intros Hkey Htime. unfold encrypt. rewrite Hkey, Htime. reflexivity.
Qed.

(** [encrypt] returns exactly under a key of the right length and an
    expiry within the range of [Date]. *)
Lemma encrypt_Returned this strategy e intent :
  encrypt this strategy e = Returned intent ->
  length (key this) = KEY_LENGTH /\ valid_time (expires_ms e strategy) = true.
Proof.
  unfold encrypt.
  destruct (length (key this) =? KEY_LENGTH)%nat eqn:Hkey; cbn [negb];
    [|discriminate].
  destruct (valid_time (expires_ms e strategy)); cbn [negb]; [|discriminate].
  intros _. split; [apply Nat.eqb_eq; exact Hkey|reflexivity].
Qed.

(** The handler that sealed an intent opens it. *)
Lemma decrypt_encrypt this strategy e intent :
  Schemas.well_formed strategy ->
  encrypt this strategy e = Returned intent ->
  decrypt this intent = Returned strategy.
Proof.
  intros Hwf. unfold encrypt.
  destruct (negb (length (key this) =? KEY_LENGTH)%nat) eqn:Hkey;
    [discriminate|].
  destruct (negb (valid_time (expires_ms e strategy))); [discriminate|].
  intros [= <-]. unfold decrypt.
  cbn [iv auth_tag encrypted_payload]. rewrite Hkey.
  rewrite !Buffer_from_hex_toString_hex.
  rewrite gcm_open_seal, string_of_list_byte_of_string.
  rewrite JSON_parse_stringify by exact Hwf. reflexivity.
Qed.



End WithRuntime.
End EncryptionFacts.

(** The model runtime meets the laws. *)
Module ModelFacts.
Import Schemas Model.

Lemma unbits_bits p : unbits (bits p) = p.
Proof. induction p as [p IH|p IH|]; simpl; rewrite ?IH; reflexivity. Qed.

Lemma unflat_flat s : unflat (flat s) = s.
Proof.
  destruct s as [p cs acts [slip mode expiry]]. unfold flat, unflat.
  cbn [pair conditions actions controls max_slippage_bps approval_mode
       expires_in_minutes].
  f_equal.
  - rewrite map_map. rewrite <- (map_id cs) at 2. apply map_ext.
    intros [t [n d]]. destruct t; reflexivity.
  - rewrite map_map. rewrite <- (map_id acts) at 2. apply map_ext.
    intros [t [n d] []]; reflexivity.
  - destruct slip, mode, expiry; reflexivity.
Qed.

Lemma parse_stringify s : parse (stringify s) = Some s.
Proof.
  unfold parse, stringify. rewrite unbits_bits, decode_encode.
  change (Some (unflat (flat s)) = Some s).
  rewrite unflat_flat. reflexivity.
Qed.

#[export] Instance runtime_laws : NodeRuntimeLaws runtime.
Proof.
  split.
  - intros key iv plaintext. cbn. unfold open.
    rewrite decide_True by reflexivity. reflexivity.
  - intros s _. apply parse_stringify.
Qed.


End ModelFacts.




(** ** The workflow orchestrator *)

Module WorkflowFacts.
Import Workflow.

Lemma run_rejected `{NodeRuntime} this userPrompt conditionChecker w
    parserOutput :
  Parser.parse (parser this) (parser_input this userPrompt) (parser_fetch w)
  = Returned parserOutput ->
  Validation.valid
    (Validation.validateStrategy (Parser.strategy_dsl parserOutput)
       (hard_limits this)) = false ->
  run this userPrompt conditionChecker w []
  = (Returned {| receipt := rejection_receipt userPrompt parserOutput w;
                 encryptedIntent := None |},
     [ParserCalled; ValidatorCalled; ReceiptBuilt Receipt.aborted]).
Proof.
  unfold parser_input, hard_limits. intros Hparse Hvalid.
  unfold run, bind, call. rewrite Hparse. cbn [app].
  rewrite Hvalid. reflexivity.
Qed.

(** A run whose parser call throws builds no receipt and calls nothing
    else. *)
Lemma run_parser_throws `{NodeRuntime} this userPrompt conditionChecker w
    message :
  Parser.parse (parser this) (parser_input this userPrompt) (parser_fetch w)
  = Thrown message ->
  run this userPrompt conditionChecker w [] = (Thrown message, [ParserCalled]).
Proof.
  unfold parser_input. intros Hparse.
  unfold run, bind, call. rewrite Hparse. reflexivity.
Qed.

(** The parser adapter has already checked the schema: a value that
    reaches validation conforms to it. *)
Lemma parse_checks_schema `{NodeRuntime} adapter input fetch parserOutput :
  Parser.parse adapter input fetch = Returned parserOutput ->
  exists data,
    Schemas.safeParse (Parser.strategy_dsl parserOutput)
    = Schemas.Success data.
Proof.
  unfold Parser.parse. destruct fetch as [response| |e]; try discriminate.
  destruct (negb (Parser.ok response)); [discriminate|].
  destruct (Parser.json_body response) as [body|e]; [|discriminate].
  destruct (Schemas.safeParse (Parser.strategy_dsl body)) as [data|issues] eqn:E;
    [|discriminate].
  intros [= <-]. exists data. exact E.
Qed.

End WorkflowFacts.

(** C9. When the strategy the parser returned fails validation, [run]
    returns (it does not throw) a result whose receipt is [aborted] with no
    payments, no reason codes, [conditions_met] false, no execution
    reference and zero spend, and whose encrypted intent is null.  The run
    called the parser and the validator and built that one receipt: it never
    called [encrypt] and never called the condition checker. *)
Theorem rejected_strategy_aborts_before_encryption :
  forall (R : NodeRuntime) (this : Workflow.AgentWorkflow)
         (userPrompt : string)
         (conditionChecker : StrategyDSL -> Outcome bool)
         (w : Workflow.World) (parserOutput : Parser.ParserOutput),
    Parser.parse (Workflow.parser this)
      (Workflow.parser_input this userPrompt) (Workflow.parser_fetch w)
    = Returned parserOutput ->
    Validation.valid
      (Validation.validateStrategy (Parser.strategy_dsl parserOutput)
         (Workflow.hard_limits this)) = false ->
    let outcome := fst (Workflow.run this userPrompt conditionChecker w []) in
    let log := snd (Workflow.run this userPrompt conditionChecker w []) in
    exists receipt,
      outcome = Returned {| Workflow.receipt := receipt;
                            Workflow.encryptedIntent := None |} /\
      Receipt.status receipt = Receipt.aborted /\
      Receipt.payments receipt = [] /\
      Receipt.reason_codes receipt = [] /\
      Receipt.conditions_met receipt = false /\
      Receipt.execution_tx_hash receipt = None /\
      Receipt.total_spend_usdc receipt = 0%Q /\
      log = [Workflow.ParserCalled; Workflow.ValidatorCalled;
             Workflow.ReceiptBuilt Receipt.aborted] /\
      ~ In Workflow.EncryptCalled log /\
      forall s, ~ In (Workflow.ConditionCheckerCalled s) log.
Proof.
  intros R this userPrompt conditionChecker w parserOutput Hparse Hvalid
    outcome log.
  subst outcome log.
  rewrite (WorkflowFacts.run_rejected this userPrompt conditionChecker w
             parserOutput Hparse Hvalid).
  cbn [fst snd].
  exists (Workflow.rejection_receipt userPrompt parserOutput w).
  repeat (split; [reflexivity|]).
  split.
  - intros Hin. repeat (destruct Hin as [Hin|Hin]; [discriminate|]).
    destruct Hin.
  - intros s Hin. repeat (destruct Hin as [Hin|Hin]; [discriminate|]).
    destruct Hin.
Qed.

(** The test "aborts when validation fails (disallowed pair)". *)
Lemma rejected_strategy_aborts_before_encryption_witness :
  exists receipt,
    @Workflow.run Model.runtime Samples.sampleWorkflow "Buy DOGE"
      Samples.alwaysMet (Samples.workflowWorld Samples.dogeStrategy) []
    = (Returned {| Workflow.receipt := receipt;
                   Workflow.encryptedIntent := None |},
       [Workflow.ParserCalled; Workflow.ValidatorCalled;
        Workflow.ReceiptBuilt Receipt.aborted]) /\
    Receipt.status receipt = Receipt.aborted /\
    Receipt.conditions_met receipt = false.
Proof.
  destruct (rejected_strategy_aborts_before_encryption Model.runtime
              Samples.sampleWorkflow "Buy DOGE" Samples.alwaysMet
              (Samples.workflowWorld Samples.dogeStrategy)
              {| Parser.strategy_dsl := StrategyDSL_json Samples.dogeStrategy;
                 Parser.explanation := "Buy ETH when price drops below $3000";
                 Parser.risk_notes := ["Market volatility is high"];
                 Parser.parser_metadata :=
                   {| Parser.model := "claude-custom";
                      Parser.confidence := 85 # 100 |} |}
              eq_refl eq_refl)
    as (receipt & Houtcome & Hstatus & _ & _ & Hmet & _ & _ & Hlog & _).
  exists receipt. split; [|split; assumption].
  rewrite <- Houtcome, <- Hlog. apply surjective_pairing.
Defined.

(** The tests "completes a full successful workflow" and "expires when
    conditions are not met". *)
Example run_executes_when_conditions_are_met :
  let result :=
    @Workflow.run Model.runtime Samples.sampleWorkflow
      "Buy ETH if it dips below 3k" Samples.alwaysMet
      (Samples.workflowWorld Samples.sampleStrategy) [] in
  match fst result with
  | Returned r =>
      Receipt.status (Workflow.receipt r) = Receipt.executed /\
      Receipt.conditions_met (Workflow.receipt r) = true /\
      Receipt.total_spend_usdc (Workflow.receipt r) = (0 + 100)%Q /\
      is_Some (Receipt.execution_tx_hash (Workflow.receipt r)) /\
      is_Some (Workflow.encryptedIntent r)
  | Thrown _ => False
  end.
Proof. vm_compute. repeat split; eexists; reflexivity. Qed.

Example run_expires_when_conditions_are_not_met :
  let result :=
    @Workflow.run Model.runtime Samples.sampleWorkflow
      "Buy ETH if it dips below 3k" (fun _ => Returned false)
      (Samples.workflowWorld Samples.sampleStrategy) [] in
  match fst result with
  | Returned r =>
      Receipt.status (Workflow.receipt r) = Receipt.expired /\
      Receipt.conditions_met (Workflow.receipt r) = false /\
      Receipt.execution_tx_hash (Workflow.receipt r) = None /\
      is_Some (Workflow.encryptedIntent r)
  | Thrown _ => False
  end /\
  ~ In Workflow.DecryptCalled (snd result).
Proof.
  vm_compute. split.
  - repeat split. eexists. reflexivity.
  - intros Hin. repeat (destruct Hin as [Hin|Hin]; [discriminate|]).
    destruct Hin.
Qed.

(** ** The trading dashboard *)

(** C4 does not hold of the code.  A trade is submitted and, while its
    workflow is waiting for the parser, cancelled: [cancelTrade] answers
    [true] and the trade is [expired].  Nothing stops the workflow, which
    goes on to decrypt and execute; when it completes, the trade's status is
    overwritten with [executed]. *)
Lemma cancelled_trade_is_still_executed :
  let submitted :=
    @Dashboard.submitTrade Model.runtime Samples.testDashboard
      "Buy ETH" "test-bot" "trade_1" 5 in
  let cancelled := Dashboard.cancelTrade (snd submitted) "trade_1" in
  let completed :=
    @Dashboard.step Model.runtime (snd cancelled)
      (Dashboard.MonitoringCompletes 0 Samples.sampleKey true
         (Samples.workflowWorld Samples.sampleStrategy)) in
  fst submitted = Returned 0%nat /\
  (Dashboard.status <$> Dashboard.getTradeStatus (snd submitted) "trade_1")
  = Some Dashboard.monitoring /\
  fst cancelled = true /\
  (Dashboard.status <$> Dashboard.getTradeStatus (snd cancelled) "trade_1")
  = Some Dashboard.expired /\
  Dashboard.called (snd cancelled) = [] /\
  (Dashboard.status <$> Dashboard.getTradeStatus completed "trade_1")
  = Some Dashboard.executed /\
  In (0%nat, Workflow.DecryptCalled) (Dashboard.called completed) /\
  In (0%nat, Workflow.ExecutorCalled) (Dashboard.called completed).
Proof.
  vm_compute. repeat split; tauto.
Qed.

(** The same happens in the repository's test "should cancel a pending
    trade" once the request to the parser fails: the cancelled trade ends
    up [failed]. *)
Example cancelled_trade_is_later_marked_failed :
  let submitted :=
    @Dashboard.submitTrade Model.runtime Samples.testDashboard
      "Buy ETH" "test-bot" "trade_1" 5 in
  let cancelled := Dashboard.cancelTrade (snd submitted) "trade_1" in
  let completed :=
    @Dashboard.step Model.runtime (snd cancelled)
      (Dashboard.MonitoringCompletes 0 Samples.sampleKey true
         {| Workflow.parser_fetch := Parser.Rejected "Connection refused";
            Workflow.entropy := Samples.sampleEntropy;
            Workflow.execution_salt := [];
            Workflow.receipt_clock := 2000 |}) in
  (Dashboard.status <$> Dashboard.getTradeStatus (snd cancelled) "trade_1")
  = Some Dashboard.expired /\
  (Dashboard.status <$> Dashboard.getTradeStatus completed "trade_1")
  = Some Dashboard.failed.
Proof. vm_compute. split; reflexivity. Qed.

(** * Further properties of the code *)

(** ** The schema as a predicate *)

Module SchemaSpecFacts.
Import Schemas SchemaSpec SchemaFacts.

Lemma failed_nil_Forall checks p q :
  failed checks p q = [] <-> Forall (fun c : Refinement => c q = Pass) checks.
Proof.
  induction checks as [|c checks IH].
  - split; [constructor|reflexivity].
  - split.
    + intros E. apply failed_cons_nil in E as [Hc Hrest].
      constructor; [exact Hc|]. apply IH. exact Hrest.
    + intros Hall. inversion Hall as [|? ? Hc Hrest]; subst.
      cbn [failed]. rewrite Hc. apply IH. exact Hrest.
Qed.

Lemma z_number_pass checks p q :
  Forall (fun c : Refinement => c q = Pass) checks ->
  z_number checks p (Some (JNum q)) = Success q.
Proof.
  intros Hall. unfold z_number.
  rewrite (proj2 (failed_nil_Forall checks p q) Hall). reflexivity.
Qed.

Lemma z_items_forallb {A : Type}
    (elem : list PathElem -> option json -> SafeParseResult A)
    (P : A -> bool) :
  (forall p v x, elem p v = Success x -> P x = true) ->
  forall items p i xs,
    z_items elem p i items = Success xs ->
    forallb P xs = true /\ length xs = length items.
Proof.
  intros Helem items.
  induction items as [|item items IH]; intros p i xs; simpl.
  - intros [= <-]. split; reflexivity.
  - intros E. apply both_Success in E as (x & xs' & Ex & Exs & ->).
    apply Helem in Ex. apply IH in Exs as [Hall Hlen].
    simpl. rewrite Ex, Hall, Hlen. split; reflexivity.
Qed.

Lemma z_array_min1_forallb {A : Type}
    (elem : list PathElem -> option json -> SafeParseResult A)
    (P : A -> bool) :
  (forall p v x, elem p v = Success x -> P x = true) ->
  forall p v xs,
    z_array_min1 elem p v = Success xs ->
    forallb P xs = true /\ (1 <=? length xs)%nat = true.
Proof.
  intros Helem p v xs. unfold z_array_min1.
  destruct v as [[| | | |items|]|]; try discriminate.
  intros E. apply both_Success in E as (xs' & u & Exs & Emin & ->).
  apply (z_items_forallb elem P Helem) in Exs as [Hall Hlen].
  split; [exact Hall|]. rewrite Hlen.
  destruct (1 <=? length items)%nat; [reflexivity|discriminate].
Qed.

Lemma ConditionSchema_ok p v c :
  ConditionSchema p v = Success c -> condition_ok c = true.
Proof.
  unfold ConditionSchema. destruct v as [[| | | | |o]|]; try discriminate.
  intros E. apply both_Success in E as (t & q & _ & Eq & ->).
  apply z_number_Success in Eq as [_ Hchecks].
  apply failed_cons_nil in Hchecks as [Hpos _].
  apply z_positive_Pass. exact Hpos.
Qed.

Lemma ActionSchema_ok p v a :
  ActionSchema p v = Success a -> action_ok a = true.
Proof.
  unfold ActionSchema. destruct v as [[| | | | |o]|]; try discriminate.
  intros E. apply both_Success in E as (f & d & Ef & _ & ->).
  apply both_Success in Ef as (t & q & Et & Eq & ->).
  apply z_enum_ActionType in Et as [_ ->].
  apply z_number_Success in Eq as [_ Hchecks].
  apply failed_cons_nil in Hchecks as [Hpos _].
  unfold action_ok. cbn [action_type amount_usdc].
  rewrite (proj1 (z_positive_Pass q) Hpos). reflexivity.
Qed.

Lemma ControlsSchema_ok p v c :
  ControlsSchema p v = Success c -> controls_ok c = true.
Proof.
  unfold ControlsSchema. destruct v as [[| | | | |o]|]; try discriminate.
  intros E. apply both_Success in E as (f & e & Ef & Ee & ->).
  apply both_Success in Ef as (q & m & Eq & _ & ->).
  apply z_number_Success in Eq as [_ Hq].
  apply z_number_Success in Ee as [_ He].
  apply failed_cons_nil in Hq as [Hint Hq].
  apply failed_cons_nil in Hq as [Hmin Hq].
  apply failed_cons_nil in Hq as [Hmax _].
  apply failed_cons_nil in He as [Hint' He].
  apply failed_cons_nil in He as [Hpos _].
  unfold controls_ok. cbn [max_slippage_bps expires_in_minutes].
  apply z_int_Pass in Hint, Hint'. apply z_min_Pass in Hmin.
  apply z_max_Pass in Hmax. apply z_positive_Pass in Hpos.
  rewrite Hint, Hmin, Hmax, Hint', Hpos. reflexivity.
Qed.

(** Whatever the schema accepts conforms. *)
Lemma safeParse_conforms v data :
  safeParse v = Success data -> conforms data = true.
Proof.
  unfold safeParse. destruct v as [| | | | |o]; try discriminate.
  intros E.
  apply both_Success in E as (f & c & Ef & Ec & ->).
  apply both_Success in Ef as (g & a & Eg & Ea & ->).
  apply both_Success in Eg as (p & cs & Ep & Ecs & ->).
  apply (z_array_min1_forallb _ _ ConditionSchema_ok) in Ecs as [Hcs Hcs1].
  apply (z_array_min1_forallb _ _ ActionSchema_ok) in Ea as [Has Has1].
  apply ControlsSchema_ok in Ec.
  unfold z_string_min1 in Ep.
  destruct (prop "pair" o) as [[| | |s'| |]|]; try discriminate.
  destruct (1 <=? String.length s')%nat eqn:Hp; [|discriminate].
  injection Ep as <-.
  unfold conforms. cbn [pair conditions actions controls].
  rewrite Hp, Hcs, Hcs1, Has, Has1, Ec. reflexivity.
Qed.

Lemma z_items_json_pass {A : Type}
    (elem : list PathElem -> option json -> SafeParseResult A)
    (to_json : A -> json) (P : A -> bool) :
  (forall p x, P x = true -> elem p (Some (to_json x)) = Success x) ->
  forall xs p i,
    forallb P xs = true ->
    z_items elem p i (map to_json xs) = Success xs.
Proof.
  intros Helem xs. induction xs as [|x xs IH]; intros p i Hall; simpl.
  - reflexivity.
  - simpl in Hall. apply andb_true_iff in Hall as [Hx Hxs].
    rewrite (Helem _ x Hx), (IH p (S i) Hxs). reflexivity.
Qed.

Lemma conforms_parses s :
  conforms s = true -> safeParse (StrategyDSL_json s) = Success s.
Proof.
  unfold conforms. intros H.
  repeat match type of H with
         | (_ && _)%bool = true =>
             let H' := fresh "H" in apply andb_true_iff in H as [H H']
         end.
  rename H into Hpair, H4 into Hcs1, H3 into Hcs, H2 into Has1, H1 into Has,
    H0 into Hc.
  rewrite safeParse_json.
  unfold z_string_min1. rewrite Hpair.
  unfold z_array_min1. rewrite !length_map, Hcs1, Has1.
  rewrite (z_items_json_pass ConditionSchema Condition_json condition_ok).
  2:{ intros p c Hc'. rewrite ConditionSchema_json.
      rewrite z_number_pass
        by (repeat constructor; apply z_positive_Pass; exact Hc').
      destruct c; reflexivity. }
  2: exact Hcs.
  rewrite (z_items_json_pass ActionSchema Action_json action_ok).
  2:{ intros p a Ha'. rewrite ActionSchema_json.
      unfold action_ok in Ha'. apply andb_true_iff in Ha' as [Ht Ha'].
      apply String.eqb_eq in Ht.
      rewrite z_number_pass
        by (repeat constructor; apply z_positive_Pass; exact Ha').
      destruct a as [t amount d]. cbn in Ht |- *. subst t. reflexivity. }
  2: exact Has.
  rewrite ControlsSchema_json.
  unfold controls_ok in Hc.
  repeat match type of Hc with
         | (_ && _)%bool = true =>
             let H' := fresh "Hc" in apply andb_true_iff in Hc as [Hc H']
         end.
  rewrite !z_number_pass
    by (repeat constructor;
        first [apply z_int_Pass|apply z_min_Pass|apply z_max_Pass
              |apply z_positive_Pass]; assumption).
  destruct s as [p cs acts [slip mode expiry]]. reflexivity.
Qed.

Lemma well_formed_conforms s : well_formed s <-> conforms s = true.
Proof.
  split; [apply safeParse_conforms|apply conforms_parses].
Qed.

End SchemaSpecFacts.

(** X1. The schema accepts a typed strategy exactly when its pair is not
    empty, it has at least one condition and one action, every condition
    value and action amount is positive, every action's type is "swap", the
    slippage is an integer between 1 and 500 and the expiry is a positive
    safe integer (at most 2^53 - 1); what it returns is then that
    strategy. *)
Theorem schema_accepts_exactly_conforming_strategies :
  forall s : StrategyDSL,
    (safeParse (StrategyDSL_json s) = Success s
     <-> SchemaSpec.conforms s = true) /\
    (forall s', safeParse (StrategyDSL_json s) = Success s' -> s' = s).
Proof.
  intros s. split.
  - apply SchemaSpecFacts.well_formed_conforms.
  - intros s' E. apply (SchemaFacts.safeParse_json_inv s s' E).
Qed.

(** X2. Whatever untyped value the schema accepts (extra properties and
    all), the strategy it returns conforms, and parsing that strategy again
    returns it unchanged. *)
Theorem schema_output_is_stable :
  forall (v : json) (data : StrategyDSL),
    safeParse v = Success data ->
    SchemaSpec.conforms data = true /\
    safeParse (StrategyDSL_json data) = Success data.
Proof.
  intros v data E.
  pose proof (SchemaSpecFacts.safeParse_conforms v data E) as Hc.
  split; [exact Hc|]. apply SchemaSpecFacts.conforms_parses. exact Hc.
Qed.

Lemma schema_output_is_stable_witness :
  safeParse Scenarios.annotatedStrategy = Success Samples.sampleStrategy /\
  safeParse (StrategyDSL_json Samples.sampleStrategy)
  = Success Samples.sampleStrategy.
Proof.
  split; [reflexivity|].
  apply (schema_output_is_stable Scenarios.annotatedStrategy
           Samples.sampleStrategy eq_refl).
Defined.

(** ** More on the limit enforcer *)

Module SchemaIssueFacts.
Import Schemas SchemaSpec.

Lemma both_names_an_issue {A B C : Type} (f : A -> B -> C)
    (ra : SafeParseResult A) (rb : SafeParseResult B) :
  names_an_issue ra -> names_an_issue rb -> names_an_issue (both f ra rb).
Proof.
  destruct ra as [a|[|i ir]], rb as [b|[|j jr]]; simpl; tauto.
Qed.

Lemma z_number_names_an_issue checks p v :
  names_an_issue (z_number checks p v).
Proof.
  unfold z_number. destruct v as [[| | q | | |]|]; try exact I.
  destruct (failed checks p q); exact I.
Qed.

Lemma z_string_min1_names_an_issue p v :
  names_an_issue (z_string_min1 p v).
Proof.
  unfold z_string_min1. destruct v as [[| | | s | |]|]; try exact I.
  destruct (1 <=? String.length s)%nat; exact I.
Qed.

Lemma z_enum_names_an_issue {A : Type} (options : list (string * A)) p v :
  names_an_issue (z_enum options p v).
Proof.
  unfold z_enum. destruct v as [[| | | s | |]|]; try exact I.
  destruct (option_of options s); exact I.
Qed.

Lemma z_array_min1_names_an_issue {A : Type}
    (elem : list PathElem -> option json -> SafeParseResult A) p v :
  (forall p' v', names_an_issue (elem p' v')) ->
  names_an_issue (z_array_min1 elem p v).
Proof.
  intros Helem. unfold z_array_min1.
  destruct v as [[| | | |items|]|]; try exact I.
  apply both_names_an_issue.
  - generalize 0%nat. induction items as [|x items IH]; intros i; simpl.
    + exact I.
    + apply both_names_an_issue; [apply Helem|apply IH].
  - destruct (1 <=? length items)%nat; exact I.
Qed.

Lemma ConditionSchema_names_an_issue p v :
  names_an_issue (ConditionSchema p v).
Proof.
  unfold ConditionSchema. destruct v as [[| | | | |o]|]; try exact I.
  apply both_names_an_issue;
    [apply z_enum_names_an_issue|apply z_number_names_an_issue].
Qed.

Lemma ActionSchema_names_an_issue p v : names_an_issue (ActionSchema p v).
Proof.
  unfold ActionSchema. destruct v as [[| | | | |o]|]; try exact I.
  repeat apply both_names_an_issue;
    first [apply z_enum_names_an_issue|apply z_number_names_an_issue].
Qed.

Lemma ControlsSchema_names_an_issue p v :
  names_an_issue (ControlsSchema p v).
Proof.
  unfold ControlsSchema. destruct v as [[| | | | |o]|]; try exact I.
  repeat apply both_names_an_issue;
    first [apply z_enum_names_an_issue|apply z_number_names_an_issue].
Qed.

Lemma safeParse_names_an_issue v : names_an_issue (safeParse v).
Proof.
  unfold safeParse. destruct v as [| | | | |o]; try exact I.
  repeat apply both_names_an_issue.
  - apply z_string_min1_names_an_issue.
  - apply z_array_min1_names_an_issue, ConditionSchema_names_an_issue.
  - apply z_array_min1_names_an_issue, ActionSchema_names_an_issue.
  - apply ControlsSchema_names_an_issue.
Qed.

End SchemaIssueFacts.

Module ValidationMore.
Import Schemas Validation.

Lemma errors_Success dsl limits data :
  safeParse dsl = Success data ->
  errors (validateStrategy dsl limits) = policy_errors data limits.
Proof.
  intros E. rewrite (ValidationFacts.validateStrategy_Success _ _ _ E).
  destruct (policy_errors data limits); reflexivity.
Qed.

Lemma errors_Failure dsl limits issues :
  safeParse dsl = Failure issues ->
  validateStrategy dsl limits
  = {| valid := false; strategy := None;
       errors := map SchemaIssue issues; clamped := [] |}.
Proof. intros E. unfold validateStrategy. rewrite E. reflexivity. Qed.

Lemma clamped_Success dsl limits data :
  safeParse dsl = Success data ->
  clamped (validateStrategy dsl limits) = clamp_notes data limits.
Proof.
  intros E. rewrite (ValidationFacts.validateStrategy_Success _ _ _ E).
  destruct (policy_errors data limits); reflexivity.
Qed.

Lemma in_spend_errors cap acts amount :
  In (ActionExceedsCap amount cap) (spend_errors cap acts) <->
  (cap < amount)%Q /\ exists a, In a acts /\ amount_usdc a = amount.
Proof.
  unfold spend_errors. rewrite in_flat_map. split.
  - intros (a & Ha & Hin).
    destruct (Js.gt (amount_usdc a) cap) eqn:E; [|destruct Hin].
    destruct Hin as [[= <-]|[]].
    split; [apply gt_true; exact E|]. exists a. split; [exact Ha|reflexivity].
  - intros (Hgt & a & Ha & <-). exists a. split; [exact Ha|].
    rewrite (proj2 (gt_true _ _) Hgt). left. reflexivity.
Qed.

Lemma expiry_error_absent data limits :
  SchemaSpec.conforms data = true ->
  ~ In ExpiryNotPositive (policy_errors data limits).
Proof.
  intros Hc. unfold policy_errors. rewrite !in_app_iff.
  assert (Hpos : Js.le (expires_in_minutes (controls data)) 0 = false).
  { unfold SchemaSpec.conforms, SchemaSpec.controls_ok in Hc.
    repeat match goal with
           | H : (_ && _)%bool = true |- _ =>
               apply andb_true_iff in H as [? ?]
           end.
    match goal with
    | H : Js.gt (expires_in_minutes _) 0 = true |- _ =>
        apply gt_true in H; rename H into Hgt
    end.
    destruct (Js.le (expires_in_minutes (controls data)) 0) eqn:E;
      [|reflexivity].
    apply le_true in E. exfalso. apply (Qlt_not_le _ _ Hgt E). }
  rewrite Hpos. intros [Hin|[Hin|[]]].
  - destruct (negb _); [destruct Hin as [|[]]; discriminate|destruct Hin].
  - unfold spend_errors in Hin. apply in_flat_map in Hin as (a & _ & Hin).
    destruct (Js.gt _ _); [destruct Hin as [|[]]; discriminate|destruct Hin].
Qed.

End ValidationMore.

(** X3. The three outputs of [validateStrategy] agree: [valid] is true
    exactly when a strategy is returned, and exactly when [errors] is
    empty.  A rejection always carries at least one error. *)
Theorem validateStrategy_result_is_consistent :
  forall (dsl : json) (limits : Validation.ValidationLimits),
    let result := Validation.validateStrategy dsl limits in
    (Validation.valid result = true
     <-> is_Some (Validation.strategy result)) /\
    (Validation.valid result = true <-> Validation.errors result = []).
Proof.
  intros dsl limits result. subst result.
  destruct (safeParse dsl) as [data|issues] eqn:E.
  - rewrite (ValidationFacts.validateStrategy_Success _ limits _ E).
    destruct (Validation.policy_errors data limits);
      cbn [Validation.valid Validation.strategy Validation.errors].
    + split; split; intros _; try reflexivity. eexists. reflexivity.
    + split; split; try discriminate. intros [x Hx]. discriminate.
  - rewrite (ValidationMore.errors_Failure _ limits _ E).
    cbn [Validation.valid Validation.strategy Validation.errors].
    pose proof (SchemaIssueFacts.safeParse_names_an_issue dsl) as Hne.
    rewrite E in Hne. destruct issues as [|i issues]; [destruct Hne|].
    split; split; try discriminate. intros [x Hx]. discriminate.
Qed.

(** X4. For a value the schema accepts, an action-exceeds-cap error
    naming an amount is reported exactly when some action has that amount
    and it is above the cap; and one such action is enough for the
    validation to fail. *)
Theorem validateStrategy_rejects_each_oversized_action :
  forall (dsl : json) (limits : Validation.ValidationLimits)
         (data : StrategyDSL),
    safeParse dsl = Success data ->
    let result := Validation.validateStrategy dsl limits in
    forall amount : Q,
      (In (Validation.ActionExceedsCap amount
             (Validation.max_spend_usdc limits))
          (Validation.errors result)
       <-> (Validation.max_spend_usdc limits < amount)%Q /\
           exists a, In a (actions data) /\ amount_usdc a = amount) /\
      (In (Validation.ActionExceedsCap amount
             (Validation.max_spend_usdc limits))
          (Validation.errors result) ->
       Validation.valid result = false /\
       Validation.strategy result = None).
Proof.
  intros dsl limits data E result amount. subst result.
  assert (Hiff :
    In (Validation.ActionExceedsCap amount (Validation.max_spend_usdc limits))
       (Validation.errors (Validation.validateStrategy dsl limits))
    <-> (Validation.max_spend_usdc limits < amount)%Q /\
        exists a, In a (actions data) /\ amount_usdc a = amount).
  { rewrite (ValidationMore.errors_Success _ limits _ E).
    unfold Validation.policy_errors. rewrite !in_app_iff.
    rewrite ValidationMore.in_spend_errors. split.
    - intros [Hin|[Hin|Hin]]; [|exact Hin|].
      + destruct (negb _); [destruct Hin as [|[]]; discriminate|destruct Hin].
      + destruct (Js.le _ _); [destruct Hin as [|[]]; discriminate|destruct Hin].
    - intros H. right. left. exact H. }
  split; [exact Hiff|].
  rewrite (ValidationFacts.validateStrategy_Success _ limits _ E).
  destruct (Validation.policy_errors data limits); cbn [Validation.errors].
  - intros [].
  - intros _. split; reflexivity.
Qed.

(** The test "rejects spend exceeding hard cap". *)
Lemma validateStrategy_rejects_each_oversized_action_witness :
  let result :=
    Validation.validateStrategy
      (StrategyDSL_json Scenarios.oversizedStrategy) Samples.defaultLimits in
  In (Validation.ActionExceedsCap 600 500) (Validation.errors result) /\
  Validation.valid result = false.
Proof.
  cbv zeta.
  destruct (validateStrategy_rejects_each_oversized_action
              (StrategyDSL_json Scenarios.oversizedStrategy)
              Samples.defaultLimits Scenarios.oversizedStrategy eq_refl 600)
    as [Hiff Hfail].
  assert (Hin : In (Validation.ActionExceedsCap 600 500)
                   (Validation.errors
                      (Validation.validateStrategy
                         (StrategyDSL_json Scenarios.oversizedStrategy)
                         Samples.defaultLimits))).
  { apply Hiff. split; [reflexivity|].
    eexists. split; [left; reflexivity|reflexivity]. }
  split; [exact Hin|]. apply Hfail. exact Hin.
Defined.

(** X5. The clamp note does not depend on the errors: for a value the
    schema accepts, a slippage above the limit is reported as clamped to
    the limit, and a slippage within it is not reported, whether or not the
    strategy is then rejected for its pair or its spend. *)
Theorem validateStrategy_reports_the_clamp_whatever_the_errors :
  forall (dsl : json) (limits : Validation.ValidationLimits)
         (data : StrategyDSL),
    safeParse dsl = Success data ->
    let result := Validation.validateStrategy dsl limits in
    let asked := max_slippage_bps (controls data) in
    let limit := Validation.max_slippage_bps limits in
    ((limit < asked)%Q ->
     Validation.clamped result = [Validation.SlippageClamped asked limit]) /\
    ((asked <= limit)%Q -> Validation.clamped result = []).
Proof.
  intros dsl limits data E result asked limit. subst result asked limit.
  rewrite (ValidationMore.clamped_Success _ limits _ E).
  unfold Validation.clamp_notes. split; intros H.
  - rewrite (proj2 (gt_true _ _) H). reflexivity.
  - rewrite (proj2 (gt_false _ _) H). reflexivity.
Qed.

(** A rejected pair and a clamped slippage in one call. *)
Lemma validateStrategy_reports_the_clamp_whatever_the_errors_witness :
  let result :=
    Validation.validateStrategy
      (StrategyDSL_json Scenarios.dogeWideStrategy) Samples.defaultLimits in
  Validation.valid result = false /\
  Validation.clamped result = [Validation.SlippageClamped 100 75].
Proof.
  cbv zeta. split; [reflexivity|].
  apply (validateStrategy_reports_the_clamp_whatever_the_errors
           (StrategyDSL_json Scenarios.dogeWideStrategy)
           Samples.defaultLimits Scenarios.dogeWideStrategy eq_refl).
  reflexivity.
Defined.

(** X6. An accepted strategy is the parsed one in everything but the
    slippage: pair, conditions, actions, approval mode and expiry are
    untouched (no amount is ever shrunk), and the slippage is the smaller of
    what was asked and the limit. *)
Theorem validateStrategy_changes_only_the_slippage :
  forall (dsl : json) (limits : Validation.ValidationLimits)
         (data : StrategyDSL),
    safeParse dsl = Success data ->
    Validation.valid (Validation.validateStrategy dsl limits) = true ->
    exists s,
      Validation.strategy (Validation.validateStrategy dsl limits) = Some s /\
      pair s = pair data /\
      conditions s = conditions data /\
      actions s = actions data /\
      approval_mode (controls s) = approval_mode (controls data) /\
      expires_in_minutes (controls s) = expires_in_minutes (controls data) /\
      max_slippage_bps (controls s)
      = (if Js.gt (max_slippage_bps (controls data))
                  (Validation.max_slippage_bps limits)
         then Validation.max_slippage_bps limits
         else max_slippage_bps (controls data)).
Proof.
  intros dsl limits data E Hvalid.
  exists (Validation.clamp data limits).
  split; [apply ValidationFacts.validateStrategy_strategy; assumption|].
  unfold Validation.clamp.
  destruct (Js.gt (max_slippage_bps (controls data))
              (Validation.max_slippage_bps limits));
    repeat split.
Qed.

Lemma validateStrategy_changes_only_the_slippage_witness :
  exists s,
    Validation.strategy
      (Validation.validateStrategy (StrategyDSL_json Samples.wideStrategy)
         Samples.defaultLimits) = Some s /\
    actions s = actions Samples.wideStrategy /\
    max_slippage_bps (controls s) = 75%Q.
Proof.
  destruct (validateStrategy_changes_only_the_slippage
              (StrategyDSL_json Samples.wideStrategy) Samples.defaultLimits
              Samples.wideStrategy eq_refl eq_refl)
    as (s & Hs & _ & _ & Hacts & _ & _ & Hslip).
  exists s. split; [exact Hs|]. split; [exact Hacts|exact Hslip].
Defined.

(** X7. The defensive expiry check of [validateStrategy] never fires:
    for no input and no limits does the result carry the error "Expiry must
    be a positive number of minutes", because the schema has already
    rejected every value whose expiry is not positive. *)
Theorem validateStrategy_never_reports_the_expiry_error :
  forall (dsl : json) (limits : Validation.ValidationLimits),
    ~ In Validation.ExpiryNotPositive
         (Validation.errors (Validation.validateStrategy dsl limits)).
Proof.
  intros dsl limits.
  destruct (safeParse dsl) as [data|issues] eqn:E.
  - rewrite (ValidationMore.errors_Success _ limits _ E).
    apply ValidationMore.expiry_error_absent.
    apply (SchemaSpecFacts.safeParse_conforms dsl). exact E.
  - rewrite (ValidationMore.errors_Failure _ limits _ E).
    cbn [Validation.errors]. intros Hin.
    apply in_map_iff in Hin as (i & Hi & _). discriminate.
Qed.

Module ValidationIdempotence.
Import Schemas Validation.

Lemma clamp_conforms data limits :
  SchemaSpec.conforms data = true ->
  Js.isInteger (max_slippage_bps limits) = true ->
  (1 <= max_slippage_bps limits)%Q ->
  (max_slippage_bps limits <= 500)%Q ->
  SchemaSpec.conforms (clamp data limits) = true.
Proof.
  intros Hc Hint Hmin Hmax. unfold clamp.
  destruct (Js.gt (Schemas.max_slippage_bps (controls data))
              (max_slippage_bps limits)); [|exact Hc].
  unfold SchemaSpec.conforms, SchemaSpec.controls_ok in *.
  cbn [with_max_slippage_bps pair conditions actions controls
       Schemas.max_slippage_bps expires_in_minutes].
  repeat match goal with
         | H : (_ && _)%bool = true |- _ => apply andb_true_iff in H as [? ?]
         end.
  repeat match goal with
         | |- (_ && _)%bool = true => apply andb_true_iff; split
         end; try assumption.
  - apply isSafeInteger_range; [exact Hint|lra|].
    unfold Js.MAX_SAFE_INTEGER. lra.
  - apply ge_true. exact Hmin.
  - apply le_true. exact Hmax.
Qed.

Lemma clamp_policy_errors data limits :
  policy_errors (clamp data limits) limits = policy_errors data limits.
Proof.
  unfold clamp.
  destruct (Js.gt (Schemas.max_slippage_bps (controls data))
              (max_slippage_bps limits)); reflexivity.
Qed.

Lemma clamp_clamp data limits :
  clamp (clamp data limits) limits = clamp data limits.
Proof.
  unfold clamp at 1.
  rewrite (proj2 (gt_false _ _) (ValidationFacts.clamp_within data limits)).
  reflexivity.
Qed.

Lemma clamp_notes_clamp data limits :
  clamp_notes (clamp data limits) limits = [].
Proof.
  unfold clamp_notes.
  rewrite (proj2 (gt_false _ _) (ValidationFacts.clamp_within data limits)).
  reflexivity.
Qed.

(** What validation returns for the strategy it has accepted. *)
Lemma validate_again dsl limits s :
  Js.isInteger (max_slippage_bps limits) = true ->
  (1 <= max_slippage_bps limits)%Q ->
  (max_slippage_bps limits <= 500)%Q ->
  valid (validateStrategy dsl limits) = true ->
  strategy (validateStrategy dsl limits) = Some s ->
  well_formed s /\
  validateStrategy (StrategyDSL_json s) limits
  = {| valid := true; strategy := Some s; errors := []; clamped := [] |}.
Proof.
  intros Hint Hmin Hmax Hvalid Hs.
  destruct (proj1 (ValidationFacts.validateStrategy_valid dsl limits) Hvalid)
    as (data & Eparse & Hpolicy).
  rewrite (ValidationFacts.validateStrategy_strategy _ _ _ Eparse Hvalid) in Hs.
  injection Hs as <-.
  assert (Hwf : well_formed (clamp data limits)).
  { apply SchemaSpecFacts.conforms_parses, clamp_conforms; try assumption.
    apply (SchemaSpecFacts.safeParse_conforms dsl). exact Eparse. }
  split; [exact Hwf|].
  rewrite (ValidationFacts.validateStrategy_Success _ limits _ Hwf).
  rewrite clamp_policy_errors.
  rewrite (proj2 (ValidationFacts.policy_errors_nil data limits) Hpolicy).
  rewrite clamp_clamp, clamp_notes_clamp. reflexivity.
Qed.

End ValidationIdempotence.

(** X8. When the hard slippage limit lies in the schema's own range (an
    integer between 1 and 500), validation is idempotent: the strategy it
    accepts conforms to the schema, and validating it again under the same
    limits accepts it unchanged with no error and no clamp. *)
Theorem validateStrategy_is_idempotent_for_limits_in_schema_range :
  forall (dsl : json) (limits : Validation.ValidationLimits)
         (s : StrategyDSL),
    Js.isInteger (Validation.max_slippage_bps limits) = true ->
    (1 <= Validation.max_slippage_bps limits)%Q ->
    (Validation.max_slippage_bps limits <= 500)%Q ->
    Validation.valid (Validation.validateStrategy dsl limits) = true ->
    Validation.strategy (Validation.validateStrategy dsl limits) = Some s ->
    well_formed s /\
    Validation.validateStrategy (StrategyDSL_json s) limits
    = {| Validation.valid := true; Validation.strategy := Some s;
         Validation.errors := []; Validation.clamped := [] |}.
Proof.
  intros dsl limits s Hint Hmin Hmax Hvalid Hs.
  apply (ValidationIdempotence.validate_again dsl limits s); assumption.
Qed.

Lemma validateStrategy_is_idempotent_for_limits_in_schema_range_witness :
  let accepted :=
    {| pair := "ETH/USDC";
       conditions := [{| cond_type := price_below; value := 3000 |}];
       actions := [{| action_type := swap; amount_usdc := 100;
                      direction := buy |}];
       controls := {| max_slippage_bps := 75;
                      approval_mode := approval_auto;
                      expires_in_minutes := 60 |} |} in
  Validation.validateStrategy (StrategyDSL_json accepted)
    Samples.defaultLimits
  = {| Validation.valid := true; Validation.strategy := Some accepted;
       Validation.errors := []; Validation.clamped := [] |}.
Proof.
  cbv zeta.
  apply (validateStrategy_is_idempotent_for_limits_in_schema_range
           (StrategyDSL_json Samples.wideStrategy) Samples.defaultLimits).
  - reflexivity.
  - apply Qle_bool_iff. reflexivity.
  - apply Qle_bool_iff. reflexivity.
  - reflexivity.
  - reflexivity.
Defined.

(** ** More on the risk re-checker *)

Module RiskMore.
Import Risk.

Lemma passed_iff s config :
  passed (checkRisk s config) = true <->
  Js.includes (allowed_pairs config) (pair s) = true /\
  (Js.sumBy amount_usdc (actions s) <= max_spend_usdc config)%Q /\
  (Schemas.max_slippage_bps (controls s) <= max_slippage_bps config)%Q /\
  (expires_in_minutes (controls s) <= max_expires_minutes config)%Q.
Proof.
  rewrite RiskFacts.checkRisk_passed, RiskFacts.checkRisk_violations.
  rewrite <- !gt_false.
  destruct (Js.includes (allowed_pairs config) (pair s));
    destruct (Js.gt (Js.sumBy amount_usdc (actions s)) (max_spend_usdc config));
    destruct (Js.gt (Schemas.max_slippage_bps (controls s))
                (max_slippage_bps config));
    destruct (Js.gt (expires_in_minutes (controls s))
                (max_expires_minutes config));
    simpl; split; try discriminate; try tauto;
    intros (H1 & H2 & H3 & H4); discriminate.
Qed.

(** The re-check of a strategy that validation accepted under the same
    pairs, cap and slippage limit, with an expiry ceiling the strategy
    meets: only the total spend can fail. *)
Lemma recheck_of_accepted dsl limits config s :
  Validation.valid (Validation.validateStrategy dsl limits) = true ->
  Validation.strategy (Validation.validateStrategy dsl limits) = Some s ->
  allowed_pairs config = Validation.allowed_pairs limits ->
  max_spend_usdc config = Validation.max_spend_usdc limits ->
  max_slippage_bps config = Validation.max_slippage_bps limits ->
  (expires_in_minutes (controls s) <= max_expires_minutes config)%Q ->
  violations (checkRisk s config)
  = if Js.gt (Js.sumBy amount_usdc (actions s)) (max_spend_usdc config)
    then [SpendViolation (Js.sumBy amount_usdc (actions s))
            (max_spend_usdc config)]
    else [].
Proof.
  intros Hvalid Hs Hpairs Hspend Hslip Hexp.
  destruct (proj1 (ValidationFacts.validateStrategy_valid dsl limits) Hvalid)
    as (data & Eparse & Hpair & _).
  rewrite (ValidationFacts.validateStrategy_strategy _ _ _ Eparse Hvalid) in Hs.
  injection Hs as <-.
  rewrite RiskFacts.checkRisk_violations.
  assert (Hp : pair (Validation.clamp data limits) = pair data).
  { unfold Validation.clamp. destruct (Js.gt _ _); reflexivity. }
  rewrite Hp, Hpairs, Hpair. cbn [negb app].
  rewrite Hslip.
  rewrite (proj2 (gt_false _ _) (ValidationFacts.clamp_within data limits)).
  rewrite (proj2 (gt_false _ _) Hexp).
  cbn [app]. apply app_nil_r.
Qed.

End RiskMore.

(** X9. On a strategy whose amounts are safe integers with a
    safe-integer total (so that the sum the code computes is the exact one),
    [checkRisk] passes exactly when the pair is allowed, the sum of the
    action amounts is within the spend cap, the slippage is within its cap
    and the expiry is within its ceiling. *)
Theorem checkRisk_passes_exactly_within_all_four_limits :
  forall (s : StrategyDSL) (config : Risk.RiskConfig),
    Js.sums_exactly amount_usdc (actions s) = true ->
    (Risk.passed (Risk.checkRisk s config) = true <->
     Js.includes (Risk.allowed_pairs config) (pair s) = true /\
     (Js.sumBy amount_usdc (actions s) <= Risk.max_spend_usdc config)%Q /\
     (max_slippage_bps (controls s) <= Risk.max_slippage_bps config)%Q /\
     (expires_in_minutes (controls s) <= Risk.max_expires_minutes config)%Q).
Proof. intros s config _. apply RiskMore.passed_iff. Qed.

(** The test "passes a strategy within all limits". *)
Lemma checkRisk_passes_exactly_within_all_four_limits_witness :
  Risk.passed (Risk.checkRisk Samples.sampleStrategy Samples.defaultConfig)
  = true /\
  (Js.sumBy amount_usdc (actions Samples.sampleStrategy) <= 500)%Q.
Proof.
  split; [reflexivity|].
  apply (checkRisk_passes_exactly_within_all_four_limits
           Samples.sampleStrategy Samples.defaultConfig eq_refl).
  reflexivity.
Defined.

(** X10. The two passes composed: a strategy that [validateStrategy] has
    accepted, whose amounts are safe integers with a safe-integer total,
    re-checked by [checkRisk] under the same pairs, spend cap and slippage
    limit and an expiry ceiling it meets, can fail on the total spend only.
    It passes exactly when the actions together are within the cap, and
    otherwise the one violation reported is the spend one. *)
Theorem accepted_strategy_fails_the_recheck_only_on_total_spend :
  forall (dsl : json) (limits : Validation.ValidationLimits)
         (config : Risk.RiskConfig) (s : StrategyDSL),
    Validation.valid (Validation.validateStrategy dsl limits) = true ->
    Validation.strategy (Validation.validateStrategy dsl limits) = Some s ->
    Js.sums_exactly amount_usdc (actions s) = true ->
    Risk.allowed_pairs config = Validation.allowed_pairs limits ->
    Risk.max_spend_usdc config = Validation.max_spend_usdc limits ->
    Risk.max_slippage_bps config = Validation.max_slippage_bps limits ->
    (expires_in_minutes (controls s) <= Risk.max_expires_minutes config)%Q ->
    let total := Js.sumBy amount_usdc (actions s) in
    (Risk.passed (Risk.checkRisk s config) = true
     <-> (total <= Risk.max_spend_usdc config)%Q) /\
    (Risk.passed (Risk.checkRisk s config) = false ->
     Risk.violations (Risk.checkRisk s config)
     = [Risk.SpendViolation total (Risk.max_spend_usdc config)]).
Proof.
  intros dsl limits config s Hvalid Hs Hexact Hpairs Hspend Hslip Hexp total.
  pose proof (RiskMore.recheck_of_accepted dsl limits config s
                Hvalid Hs Hpairs Hspend Hslip Hexp) as Hv.
  subst total. split.
  - rewrite RiskFacts.checkRisk_passed, Hv, <- gt_false.
    destruct (Js.gt _ _); split; intros; try reflexivity; discriminate.
  - intros Hfail.
    destruct (Js.gt (Js.sumBy amount_usdc (actions s))
                (Risk.max_spend_usdc config)); [exact Hv|].
    apply RiskFacts.checkRisk_passed in Hv. congruence.
Qed.

Lemma accepted_strategy_fails_the_recheck_only_on_total_spend_witness :
  Risk.violations (Risk.checkRisk Samples.splitStrategy Samples.defaultConfig)
  = [Risk.SpendViolation (Js.sumBy amount_usdc (actions Samples.splitStrategy))
       500].
Proof.
  apply (accepted_strategy_fails_the_recheck_only_on_total_spend
           (StrategyDSL_json Samples.splitStrategy) Samples.defaultLimits
           Samples.defaultConfig Samples.splitStrategy).
  - reflexivity.
  - reflexivity.
  - reflexivity.
  - reflexivity.
  - reflexivity.
  - reflexivity.
  - apply Qle_bool_iff. reflexivity.
  - reflexivity.
Defined.

(** ** The trade executor *)

Module ExecutionFacts.
Import Execution.

Lemma append_inj_l (p a b : string) : p +:+ a = p +:+ b -> a = b.
Proof.
  induction p as [|c p IH]; cbn; [auto|].
  intros [= E]. exact (IH E).
Qed.

Lemma unsupported_false a :
  ExecutionSpec.unsupported a = false <-> action_type a = swap.
Proof.
  unfold ExecutionSpec.unsupported, ActionType_name.
  rewrite negb_false_iff. apply String.eqb_eq.
Qed.

Lemma unsupported_true a :
  ExecutionSpec.unsupported a = true <-> action_type a <> swap.
Proof.
  unfold ExecutionSpec.unsupported, ActionType_name.
  rewrite negb_true_iff. apply String.eqb_neq.
Qed.

Lemma find_unsupported_None acts :
  List.find ExecutionSpec.unsupported acts = None
  <-> Forall (fun a => action_type a = swap) acts.
Proof.
  induction acts as [|x acts IH]; cbn [List.find].
  - split; [constructor|reflexivity].
  - destruct (ExecutionSpec.unsupported x) eqn:E.
    + split; [discriminate|]. intros Hall.
      inversion Hall as [|? ? Hx _]; subst.
      apply unsupported_false in Hx. congruence.
    + rewrite IH. apply unsupported_false in E. split.
      * intros Hall. constructor; assumption.
      * intros Hall. inversion Hall; assumption.
Qed.

(** [find] returns the first action whose type is not [swap]. *)
Lemma find_unsupported_Some acts a :
  List.find ExecutionSpec.unsupported acts = Some a
  <-> exists before after,
        acts = before ++ a :: after /\
        Forall (fun b => action_type b = swap) before /\
        action_type a <> swap.
Proof.
  induction acts as [|x acts IH]; cbn [List.find].
  - split; [discriminate|].
    intros (before & after & E & _). destruct before; discriminate.
  - destruct (ExecutionSpec.unsupported x) eqn:Ex.
    + split.
      * intros [= <-]. exists [], acts. split; [reflexivity|].
        split; [constructor|]. apply unsupported_true. exact Ex.
      * intros (before & after & E & Hbefore & _).
        destruct before as [|b before]; [injection E as -> _; reflexivity|].
        injection E as <- _. inversion Hbefore as [|? ? Hb _]; subst.
        apply unsupported_false in Hb. congruence.
    + rewrite IH. apply unsupported_false in Ex. split.
      * intros (before & after & -> & Hbefore & Ha).
        exists (x :: before), after. split; [reflexivity|].
        split; [constructor; assumption|exact Ha].
      * intros (before & after & E & Hbefore & Ha).
        destruct before as [|b before].
        -- injection E as -> _. contradiction.
        -- injection E as <- ->. exists before, after.
           split; [reflexivity|]. split; [|exact Ha].
           inversion Hbefore; assumption.
Qed.

Lemma execute_cases `{NodeRuntime} this strategy salt :
  execute this strategy salt
  = match actions strategy with
    | [] =>
        {| success := false; tx_hash := None;
           error := Some "No actions to execute" |}
    | _ :: _ =>
        match List.find ExecutionSpec.unsupported (actions strategy) with
        | Some action =>
            {| success := false; tx_hash := None;
               error := Some ("Unsupported action type: "
                                +:+ action_type action) |}
        | None =>
            if simulate this then
              {| success := true;
                 tx_hash := Some ("0x" +:+ sha256_hex
                                    (JSON_stringify strategy
                                       +:+ Encryption.toString_hex salt));
                 error := None |}
            else
              {| success := false; tx_hash := None;
                 error := Some "Real execution not yet implemented" |}
        end
    end.
Proof.
  unfold execute. destruct (actions strategy); reflexivity.
Qed.

(** A strategy that conforms to the schema has actions, all of them
    swaps. *)
Lemma conforming_actions s :
  SchemaSpec.conforms s = true ->
  actions s <> [] /\ Forall (fun a => action_type a = swap) (actions s).
Proof.
  unfold SchemaSpec.conforms. intros Hc.
  repeat match goal with
         | H : (_ && _)%bool = true |- _ => apply andb_true_iff in H as [? ?]
         end.
  split.
  - destruct (actions s); [discriminate|]. discriminate.
  - match goal with
    | H : forallb SchemaSpec.action_ok _ = true |- _ =>
        rewrite forallb_forall in H; rename H into Hall
    end.
    apply List.Forall_forall. intros a Hin.
    specialize (Hall a Hin). unfold SchemaSpec.action_ok in Hall.
    apply andb_true_iff in Hall as [Ht _]. apply String.eqb_eq. exact Ht.
Qed.

Lemma execute_conforming `{NodeRuntime} this s salt :
  SchemaSpec.conforms s = true ->
  execute this s salt
  = if simulate this then
      {| success := true;
         tx_hash := Some ("0x" +:+ sha256_hex
                            (JSON_stringify s
                               +:+ Encryption.toString_hex salt));
         error := None |}
    else
      {| success := false; tx_hash := None;
         error := Some "Real execution not yet implemented" |}.
Proof.
  intros Hc. destruct (conforming_actions s Hc) as [Hne Hall].
  rewrite execute_cases.
  rewrite (proj2 (find_unsupported_None (actions s)) Hall).
  destruct (actions s); [contradiction|reflexivity].
Qed.

End ExecutionFacts.

(** X11. [execute] succeeds exactly when the executor simulates, the
    strategy has at least one action and every action's type is "swap"; it
    returns a transaction hash exactly when it succeeds and an error message
    exactly when it does not.  It answers "Unsupported action type: n"
    exactly when n is the type of the first action whose type is not "swap"
    (the strategy it is handed need not have passed the schema).  On a
    strategy that conforms to the schema that branch is not taken and the
    outcome is decided by the simulation flag alone. *)
Theorem execute_succeeds_exactly_when_simulating_swaps :
  forall (R : NodeRuntime) (this : Execution.TradeExecutor)
         (strategy : StrategyDSL) (salt : list byte),
    let result := Execution.execute this strategy salt in
    (Execution.success result = true
     <-> Execution.simulate this = true /\
         actions strategy <> [] /\
         Forall (fun a => action_type a = swap) (actions strategy)) /\
    (is_Some (Execution.tx_hash result)
     <-> Execution.success result = true) /\
    (Execution.error result = None
     <-> Execution.success result = true) /\
    (forall name,
       Execution.error result
       = Some ("Unsupported action type: " +:+ name)
       <-> exists before a after,
             actions strategy = before ++ a :: after /\
             Forall (fun b => action_type b = swap) before /\
             action_type a = name /\
             name <> swap) /\
    (SchemaSpec.conforms strategy = true ->
     Execution.success result = Execution.simulate this).
Proof.
  intros R this strategy salt result.
  assert (Hlast : SchemaSpec.conforms strategy = true ->
                  Execution.success result = Execution.simulate this).
  { intros Hc. subst result.
    rewrite (ExecutionFacts.execute_conforming this strategy salt Hc).
    destruct (Execution.simulate this); reflexivity. }
  split; [|split; [|split; [|split; [|exact Hlast]]]];
    clear Hlast; subst result; rewrite ExecutionFacts.execute_cases.
  - destruct (actions strategy) as [|x acts] eqn:Eacts;
      cbn [Execution.success].
    { split; [discriminate|]. intros (_ & Hne & _). contradiction. }
    destruct (List.find ExecutionSpec.unsupported (x :: acts)) as [a|] eqn:Ef;
      cbn [Execution.success].
    + split; [discriminate|]. intros (_ & _ & Hall).
      apply ExecutionFacts.find_unsupported_None in Hall. congruence.
    + apply ExecutionFacts.find_unsupported_None in Ef.
      destruct (Execution.simulate this); cbn [Execution.success].
      * split; [|reflexivity]. intros _. repeat split; [discriminate|exact Ef].
      * split; [discriminate|]. intros (Hs & _). discriminate.
  - destruct (actions strategy) as [|x acts];
      [|destruct (List.find _ _); [|destruct (Execution.simulate this)]];
      cbn [Execution.success Execution.tx_hash];
      split; try discriminate; try (intros [h Hh]; discriminate);
      try reflexivity.
    intros _. eexists. reflexivity.
  - destruct (actions strategy) as [|x acts];
      [|destruct (List.find _ _); [|destruct (Execution.simulate this)]];
      cbn [Execution.success Execution.error];
      split; try discriminate; reflexivity.
  - intros name.
    destruct (actions strategy) as [|x acts] eqn:Eacts;
      cbn [Execution.error].
    { split; [discriminate|].
      intros (before & a & after & E & _). destruct before; discriminate. }
    destruct (List.find ExecutionSpec.unsupported (x :: acts)) as [a|] eqn:Ef;
      cbn [Execution.error].
    + apply ExecutionFacts.find_unsupported_Some in Ef
        as (before & after & E & Hbefore & Ha).
      split.
      * intros Hname. injection Hname as Hname.
        apply ExecutionFacts.append_inj_l in Hname. subst name.
        exists before, a, after. repeat split; assumption.
      * intros (before' & a' & after' & E' & Hbefore' & <- & Ha').
        assert (Hfind : List.find ExecutionSpec.unsupported (x :: acts)
                        = Some a').
        { apply ExecutionFacts.find_unsupported_Some.
          exists before', after'. repeat split; assumption. }
        assert (Hfind' : List.find ExecutionSpec.unsupported (x :: acts)
                         = Some a).
        { apply ExecutionFacts.find_unsupported_Some.
          exists before, after. repeat split; assumption. }
        congruence.
    + apply ExecutionFacts.find_unsupported_None in Ef.
      assert (Hnone : forall name' : string,
                 (exists before a after,
                    x :: acts = before ++ a :: after /\
                    Forall (fun b => action_type b = swap) before /\
                    action_type a = name' /\ name' <> swap) -> False).
      { intros name' (before & a & after & E & _ & <- & Ha).
        rewrite List.Forall_forall in Ef. apply Ha, Ef.
        rewrite E. apply in_elt. }
      destruct (Execution.simulate this); cbn [Execution.error];
        (split; [discriminate|intros H; destruct (Hnone name H)]).
Qed.

(** ** The paths of a workflow run *)

Module RunFacts.
Import Workflow.

Section WithRuntime.
Context `{R : NodeRuntime}.

Lemma run_encrypt_throws this userPrompt conditionChecker w parserOutput s
    message :
  Parser.parse (parser this) (parser_input this userPrompt) (parser_fetch w)
  = Returned parserOutput ->
  Validation.valid
    (Validation.validateStrategy (Parser.strategy_dsl parserOutput)
       (hard_limits this)) = true ->
  Validation.strategy
    (Validation.validateStrategy (Parser.strategy_dsl parserOutput)
       (hard_limits this)) = Some s ->
  Encryption.encrypt (bite this) s (entropy w) = Thrown message ->
  run this userPrompt conditionChecker w []
  = (Thrown message, [ParserCalled; ValidatorCalled; EncryptCalled]).
Proof.
  unfold parser_input, hard_limits. intros Hparse Hvalid Hs Hencrypt.
  unfold run, bind, call. rewrite Hparse. cbn [app].
  rewrite Hvalid, Hs, Hencrypt. reflexivity.
Qed.

Lemma run_checker_throws this userPrompt conditionChecker w parserOutput s
    intent message :
  Parser.parse (parser this) (parser_input this userPrompt) (parser_fetch w)
  = Returned parserOutput ->
  Validation.valid
    (Validation.validateStrategy (Parser.strategy_dsl parserOutput)
       (hard_limits this)) = true ->
  Validation.strategy
    (Validation.validateStrategy (Parser.strategy_dsl parserOutput)
       (hard_limits this)) = Some s ->
  Encryption.encrypt (bite this) s (entropy w) = Returned intent ->
  conditionChecker s = Thrown message ->
  run this userPrompt conditionChecker w []
  = (Thrown message,
     [ParserCalled; ValidatorCalled; EncryptCalled;
      ConditionCheckerCalled s]).
Proof.
  unfold parser_input, hard_limits.
  intros Hparse Hvalid Hs Hencrypt Hchecker.
  unfold run, bind, call. rewrite Hparse. cbn [app].
  rewrite Hvalid, Hs, Hencrypt. cbn [app]. rewrite Hchecker. reflexivity.
Qed.

Lemma run_expired this userPrompt conditionChecker w parserOutput s intent :
  Parser.parse (parser this) (parser_input this userPrompt) (parser_fetch w)
  = Returned parserOutput ->
  Validation.valid
    (Validation.validateStrategy (Parser.strategy_dsl parserOutput)
       (hard_limits this)) = true ->
  Validation.strategy
    (Validation.validateStrategy (Parser.strategy_dsl parserOutput)
       (hard_limits this)) = Some s ->
  Encryption.encrypt (bite this) s (entropy w) = Returned intent ->
  conditionChecker s = Returned false ->
  run this userPrompt conditionChecker w []
  = (Returned
       {| receipt :=
            Trace.receipt_after_encryption userPrompt parserOutput s intent
              false None 0 Receipt.expired w;
          encryptedIntent := Some intent |},
     [ParserCalled; ValidatorCalled; EncryptCalled;
      ConditionCheckerCalled s; ReceiptBuilt Receipt.expired]).
Proof.
  unfold parser_input, hard_limits.
  intros Hparse Hvalid Hs Hencrypt Hchecker.
  unfold run, bind, call. rewrite Hparse. cbn [app].
  rewrite Hvalid, Hs, Hencrypt. cbn [app]. rewrite Hchecker. reflexivity.
Qed.

Lemma run_decrypt_throws this userPrompt conditionChecker w parserOutput s
    intent message :
  Parser.parse (parser this) (parser_input this userPrompt) (parser_fetch w)
  = Returned parserOutput ->
  Validation.valid
    (Validation.validateStrategy (Parser.strategy_dsl parserOutput)
       (hard_limits this)) = true ->
  Validation.strategy
    (Validation.validateStrategy (Parser.strategy_dsl parserOutput)
       (hard_limits this)) = Some s ->
  Encryption.encrypt (bite this) s (entropy w) = Returned intent ->
  conditionChecker s = Returned true ->
  Encryption.decrypt (bite this) intent = Thrown message ->
  run this userPrompt conditionChecker w []
  = (Thrown message,
     [ParserCalled; ValidatorCalled; EncryptCalled;
      ConditionCheckerCalled s; DecryptCalled]).
Proof.
  unfold parser_input, hard_limits.
  intros Hparse Hvalid Hs Hencrypt Hchecker Hdecrypt.
  unfold run, bind, call. rewrite Hparse. cbn [app].
  rewrite Hvalid, Hs, Hencrypt. cbn [app]. rewrite Hchecker.
  cbn [negb app]. rewrite Hdecrypt. reflexivity.
Qed.

(** A run whose conditions are met and whose intent decrypts: the risk
    re-check decides between execution and an aborted receipt. *)
Lemma run_conditions_met this userPrompt conditionChecker w parserOutput s
    intent decrypted :
  Parser.parse (parser this) (parser_input this userPrompt) (parser_fetch w)
  = Returned parserOutput ->
  Validation.valid
    (Validation.validateStrategy (Parser.strategy_dsl parserOutput)
       (hard_limits this)) = true ->
  Validation.strategy
    (Validation.validateStrategy (Parser.strategy_dsl parserOutput)
       (hard_limits this)) = Some s ->
  Encryption.encrypt (bite this) s (entropy w) = Returned intent ->
  conditionChecker s = Returned true ->
  Encryption.decrypt (bite this) intent = Returned decrypted ->
  run this userPrompt conditionChecker w []
  = if Risk.passed
         (Risk.checkRisk decrypted (Trace.recheck_config this decrypted))
    then
      let executionResult :=
        Execution.execute (executor this) decrypted (execution_salt w) in
      (Returned
         {| receipt :=
              Trace.receipt_after_encryption userPrompt parserOutput s intent
                true (Execution.tx_hash executionResult)
                (Js.sumBy amount_usdc (actions decrypted))
                (if Execution.success executionResult
                 then Receipt.executed else Receipt.aborted) w;
            encryptedIntent := Some intent |},
       [ParserCalled; ValidatorCalled; EncryptCalled;
        ConditionCheckerCalled s; DecryptCalled; RiskCheckCalled;
        ExecutorCalled;
        ReceiptBuilt (if Execution.success executionResult
                      then Receipt.executed else Receipt.aborted)])
    else
      (Returned
         {| receipt :=
              Trace.receipt_after_encryption userPrompt parserOutput s intent
                true None 0 Receipt.aborted w;
            encryptedIntent := Some intent |},
       [ParserCalled; ValidatorCalled; EncryptCalled;
        ConditionCheckerCalled s; DecryptCalled; RiskCheckCalled;
        ReceiptBuilt Receipt.aborted]).
Proof.
  unfold parser_input, hard_limits, Trace.recheck_config.
  intros Hparse Hvalid Hs Hencrypt Hchecker Hdecrypt.
  unfold run, bind, call. rewrite Hparse. cbn [app].
  rewrite Hvalid, Hs, Hencrypt. cbn [app]. rewrite Hchecker.
  cbn [negb app]. rewrite Hdecrypt. cbn [app].
  destruct (Risk.passed _); reflexivity.
Qed.

(** Every run takes one of the seven paths. *)
Lemma run_paths this userPrompt conditionChecker w :
  let result := run this userPrompt conditionChecker w [] in
  (exists message,
     Parser.parse (parser this) (parser_input this userPrompt)
       (parser_fetch w) = Thrown message /\
     result = (Thrown message, [ParserCalled])) \/
  (exists parserOutput,
     result
     = (Returned {| receipt := rejection_receipt userPrompt parserOutput w;
                    encryptedIntent := None |},
        [ParserCalled; ValidatorCalled; ReceiptBuilt Receipt.aborted])) \/
  (exists parserOutput s,
     Parser.parse (parser this) (parser_input this userPrompt)
       (parser_fetch w) = Returned parserOutput /\
     Validation.valid
       (Validation.validateStrategy (Parser.strategy_dsl parserOutput)
          (hard_limits this)) = true /\
     Validation.strategy
       (Validation.validateStrategy (Parser.strategy_dsl parserOutput)
          (hard_limits this)) = Some s /\
     ((exists message,
         Encryption.encrypt (bite this) s (entropy w) = Thrown message /\
         result
         = (Thrown message, [ParserCalled; ValidatorCalled; EncryptCalled]))
      \/
      (exists intent,
         Encryption.encrypt (bite this) s (entropy w) = Returned intent /\
         ((exists message,
             conditionChecker s = Thrown message /\
             result
             = (Thrown message,
                [ParserCalled; ValidatorCalled; EncryptCalled;
                 ConditionCheckerCalled s])) \/
          (conditionChecker s = Returned false /\
           result
           = (Returned
                {| receipt :=
                     Trace.receipt_after_encryption userPrompt parserOutput
                       s intent false None 0 Receipt.expired w;
                   encryptedIntent := Some intent |},
              [ParserCalled; ValidatorCalled; EncryptCalled;
               ConditionCheckerCalled s; ReceiptBuilt Receipt.expired])) \/
          (conditionChecker s = Returned true /\
           ((exists message,
               Encryption.decrypt (bite this) intent = Thrown message /\
               result
               = (Thrown message,
                  [ParserCalled; ValidatorCalled; EncryptCalled;
                   ConditionCheckerCalled s; DecryptCalled])) \/
            (exists decrypted,
               Encryption.decrypt (bite this) intent = Returned decrypted /\
               result
               = if Risk.passed
                      (Risk.checkRisk decrypted
                         (Trace.recheck_config this decrypted))
                 then
                   let executionResult :=
                     Execution.execute (executor this) decrypted
                       (execution_salt w) in
                   (Returned
                      {| receipt :=
                           Trace.receipt_after_encryption userPrompt
                             parserOutput s intent true
                             (Execution.tx_hash executionResult)
                             (Js.sumBy amount_usdc (actions decrypted))
                             (if Execution.success executionResult
                              then Receipt.executed else Receipt.aborted) w;
                         encryptedIntent := Some intent |},
                    [ParserCalled; ValidatorCalled; EncryptCalled;
                     ConditionCheckerCalled s; DecryptCalled;
                     RiskCheckCalled; ExecutorCalled;
                     ReceiptBuilt (if Execution.success executionResult
                                   then Receipt.executed
                                   else Receipt.aborted)])
                 else
                   (Returned
                      {| receipt :=
                           Trace.receipt_after_encryption userPrompt
                             parserOutput s intent true None 0
                             Receipt.aborted w;
                         encryptedIntent := Some intent |},
                    [ParserCalled; ValidatorCalled; EncryptCalled;
                     ConditionCheckerCalled s; DecryptCalled;
                     RiskCheckCalled; ReceiptBuilt Receipt.aborted])))))))).
Proof.
  intros result. subst result.
  destruct (Parser.parse (parser this) (parser_input this userPrompt)
              (parser_fetch w)) as [parserOutput|message] eqn:Hparse.
  2: { left. exists message. split; [reflexivity|].
       apply WorkflowFacts.run_parser_throws. exact Hparse. }
  right.
  destruct (Validation.valid
              (Validation.validateStrategy (Parser.strategy_dsl parserOutput)
                 (hard_limits this))) eqn:Hvalid.
  2: { left. exists parserOutput. apply WorkflowFacts.run_rejected.
       - exact Hparse.
       - exact Hvalid. }
  right.
  destruct (proj1 (ValidationFacts.validateStrategy_valid _ _) Hvalid)
    as (data & Eparse & _).
  pose proof (ValidationFacts.validateStrategy_strategy _ _ _ Eparse Hvalid)
    as Hs.
  exists parserOutput, (Validation.clamp data (hard_limits this)).
  split; [reflexivity|]. split; [exact Hvalid|]. split; [exact Hs|].
  set (s := Validation.clamp data (hard_limits this)) in *.
  destruct (Encryption.encrypt (bite this) s (entropy w))
    as [intent|message] eqn:Hencrypt.
  2: { left. exists message. split; [reflexivity|].
       apply (run_encrypt_throws this userPrompt conditionChecker w
                parserOutput s message); assumption. }
  right. exists intent. split; [reflexivity|].
  destruct (conditionChecker s) as [[|]|message] eqn:Hchecker.
  - right. right. split; [reflexivity|].
    destruct (Encryption.decrypt (bite this) intent)
      as [decrypted|message] eqn:Hdecrypt.
    + right. exists decrypted. split; [reflexivity|].
      apply (run_conditions_met this userPrompt conditionChecker w
               parserOutput s intent decrypted); assumption.
    + left. exists message. split; [reflexivity|].
      apply (run_decrypt_throws this userPrompt conditionChecker w
               parserOutput s intent message); assumption.
  - right. left. split; [reflexivity|].
    apply (run_expired this userPrompt conditionChecker w parserOutput s
             intent); assumption.
  - left. exists message. split; [reflexivity|].
    apply (run_checker_throws this userPrompt conditionChecker w
             parserOutput s intent message); assumption.
Qed.

End WithRuntime.
End RunFacts.

Module RunGates.
Import Workflow.

Section WithRuntime.
Context `{Laws : NodeRuntimeLaws}.

(** The re-check of the strategy the run itself validated fails on the
    total spend only. *)
Lemma recheck_passed this dsl s :
  Validation.valid (Validation.validateStrategy dsl (hard_limits this))
  = true ->
  Validation.strategy (Validation.validateStrategy dsl (hard_limits this))
  = Some s ->
  Risk.passed (Risk.checkRisk s (Trace.recheck_config this s))
  = negb (Js.gt (Js.sumBy amount_usdc (actions s))
            (max_spend_usdc_hard (config this))).
Proof.
  intros Hvalid Hs.
  pose proof (RiskMore.recheck_of_accepted dsl (hard_limits this)
                (Trace.recheck_config this s) s Hvalid Hs
                eq_refl eq_refl eq_refl (Qle_refl _)) as Hv.
  cbn [Trace.recheck_config Risk.max_spend_usdc] in Hv.
  destruct (Js.gt (Js.sumBy amount_usdc (actions s))
              (max_spend_usdc_hard (config this))); cbn [negb].
  - destruct (Risk.passed _) eqn:E; [|reflexivity].
    apply RiskFacts.checkRisk_passed in E. congruence.
  - apply RiskFacts.checkRisk_passed. exact Hv.
Qed.

(** With a key of the right length, a validated well-formed strategy
    whose expiry lies within the range of [Date] is sealed, and opened
    again as itself. *)
Lemma sealed_and_opened this s e :
  length (Encryption.key (bite this)) = Encryption.KEY_LENGTH ->
  well_formed s ->
  Encryption.valid_time (Encryption.expires_ms e s) = true ->
  exists intent,
    Encryption.encrypt (bite this) s e = Returned intent /\
    Encryption.decrypt (bite this) intent = Returned s.
Proof.
  intros Hkey Hwf Htime.
  destruct (EncryptionFacts.encrypt_returns (bite this) s e Hkey Htime)
    as [intent Hencrypt].
  exists intent. split; [exact Hencrypt|].
  apply (EncryptionFacts.decrypt_encrypt (bite this) s e); assumption.
Qed.

End WithRuntime.
End RunGates.

(** X12. A run builds exactly one receipt when it returns, as its last
    step and with the status the returned receipt carries, and builds none
    when it throws.  This holds for every workflow, prompt, condition
    checker and outside world. *)
Theorem run_builds_one_receipt_exactly_when_it_returns :
  forall (R : NodeRuntime) (this : Workflow.AgentWorkflow)
         (userPrompt : string)
         (conditionChecker : StrategyDSL -> Outcome bool)
         (w : Workflow.World),
    let result := Workflow.run this userPrompt conditionChecker w [] in
    match fst result with
    | Returned r =>
        Trace.receipts (snd result)
        = [Receipt.status (Workflow.receipt r)] /\
        last (snd result)
        = Some (Workflow.ReceiptBuilt (Receipt.status (Workflow.receipt r)))
    | Thrown _ => Trace.receipts (snd result) = []
    end.
Proof.
  intros R this userPrompt conditionChecker w result.
  destruct (RunFacts.run_paths this userPrompt conditionChecker w)
    as [(m & _ & E)
       |[(po & E)
        |(po & s & _ & _ & _ &
          [(m & _ & E)
          |(intent & _ &
            [(m & _ & E)
            |[(_ & E)
             |(_ & [(m & _ & E)|(d & _ & E)])]])])]];
    subst result; rewrite E; try (cbn; split; reflexivity);
    try reflexivity.
  destruct (Risk.passed _); [|split; reflexivity].
  cbv zeta. destruct (Execution.success _); split; reflexivity.
Qed.

(** X13. The run decrypts and executes only behind its gates.  If the log
    of a run shows the decryption, then the parser returned, validation
    accepted a strategy, that strategy was sealed and the condition checker
    answered [true] on it; if it shows the executor, then moreover the
    intent decrypted and the decrypted strategy passed the risk re-check. *)
Theorem run_decrypts_and_executes_only_behind_its_gates :
  forall (R : NodeRuntime) (this : Workflow.AgentWorkflow)
         (userPrompt : string)
         (conditionChecker : StrategyDSL -> Outcome bool)
         (w : Workflow.World),
    let log := snd (Workflow.run this userPrompt conditionChecker w []) in
    In Workflow.DecryptCalled log ->
    exists parserOutput s intent,
      Parser.parse (Workflow.parser this)
        (Workflow.parser_input this userPrompt) (Workflow.parser_fetch w)
      = Returned parserOutput /\
      Validation.valid
        (Validation.validateStrategy (Parser.strategy_dsl parserOutput)
           (Workflow.hard_limits this)) = true /\
      Validation.strategy
        (Validation.validateStrategy (Parser.strategy_dsl parserOutput)
           (Workflow.hard_limits this)) = Some s /\
      Encryption.encrypt (Workflow.bite this) s (Workflow.entropy w)
      = Returned intent /\
      conditionChecker s = Returned true /\
      (In Workflow.ExecutorCalled log ->
       exists decrypted,
         Encryption.decrypt (Workflow.bite this) intent
         = Returned decrypted /\
         Risk.passed
           (Risk.checkRisk decrypted (Trace.recheck_config this decrypted))
         = true).
Proof.
  intros R this userPrompt conditionChecker w log.
  assert (Hno : forall l : list Workflow.Event,
             In Workflow.DecryptCalled l ->
             Forall (fun e => e <> Workflow.DecryptCalled) l -> False).
  { intros l Hin Hall. induction Hall as [|e l He _ IH]; [destruct Hin|].
    destruct Hin as [->|Hin]; [apply He; reflexivity|exact (IH Hin)]. }
  destruct (RunFacts.run_paths this userPrompt conditionChecker w)
    as [(m & _ & E)
       |[(po & E)
        |(po & s & Hparse & Hvalid & Hs &
          [(m & _ & E)
          |(intent & Hencrypt &
            [(m & _ & E)
            |[(_ & E)
             |(Hchecker & [(m & Hdecrypt & E)|(d & Hdecrypt & E)])]])])]];
    subst log; rewrite E; cbn [snd]; intros Hin;
    try (exfalso; apply (Hno _ Hin); repeat constructor; discriminate).
  - exists po, s, intent. repeat (split; [assumption|]).
    intros Hexec. exfalso.
    repeat (destruct Hexec as [Hexec|Hexec]; [discriminate|]).
    destruct Hexec.
  - exists po, s, intent. repeat (split; [assumption|]).
    destruct (Risk.passed _) eqn:Hpassed; cbn [snd].
    + intros _. exists d. split; [exact Hdecrypt|exact Hpassed].
    + intros Hexec. exfalso.
      repeat (destruct Hexec as [Hexec|Hexec]; [discriminate|]).
      destruct Hexec.
Qed.

Lemma run_decrypts_and_executes_only_behind_its_gates_witness :
  exists intent,
    @Encryption.encrypt Model.runtime
      (Workflow.bite Samples.sampleWorkflow) Samples.sampleStrategy
      Samples.sampleEntropy = Returned intent /\
    @Encryption.decrypt Model.runtime
      (Workflow.bite Samples.sampleWorkflow) intent
    = Returned Samples.sampleStrategy.
Proof.
  destruct (run_decrypts_and_executes_only_behind_its_gates Model.runtime
              Samples.sampleWorkflow "Buy ETH if it dips below 3k"
              Samples.alwaysMet
              (Samples.workflowWorld Samples.sampleStrategy))
    as (po & s & intent & Hparse & _ & Hs & Hencrypt & _ & Hexec).
  { vm_compute. tauto. }
  injection Hparse as <-. injection Hs as <-.
  destruct Hexec as (d & Hdecrypt & _).
  { vm_compute. tauto. }
  exists intent. split; [exact Hencrypt|].
  rewrite Hdecrypt. f_equal.
  pose proof (EncryptionFacts.decrypt_encrypt (Laws := ModelFacts.runtime_laws)
                _ _ _ _ SchemaFacts.sampleStrategy_well_formed Hencrypt) as E.
  congruence.
Defined.

(** X14. When the condition checker answers [false], a run under a key of
    the right length, on an accepted strategy whose expiry lies within the
    range of [Date], returns the sealed intent with an [expired] receipt
    that names the intent and the validated strategy, records no execution
    and no spend, and the run has neither decrypted the intent nor called
    the risk re-check or the executor. *)
Theorem unmet_conditions_expire_the_intent_without_decrypting :
  forall (R : NodeRuntime) (Laws : NodeRuntimeLaws R)
         (this : Workflow.AgentWorkflow) (userPrompt : string)
         (conditionChecker : StrategyDSL -> Outcome bool)
         (w : Workflow.World) (parserOutput : Parser.ParserOutput)
         (s : StrategyDSL),
    length (Encryption.key (Workflow.bite this)) = Encryption.KEY_LENGTH ->
    Parser.parse (Workflow.parser this)
      (Workflow.parser_input this userPrompt) (Workflow.parser_fetch w)
    = Returned parserOutput ->
    Validation.valid
      (Validation.validateStrategy (Parser.strategy_dsl parserOutput)
         (Workflow.hard_limits this)) = true ->
    Validation.strategy
      (Validation.validateStrategy (Parser.strategy_dsl parserOutput)
         (Workflow.hard_limits this)) = Some s ->
    Encryption.valid_time (Encryption.expires_ms (Workflow.entropy w) s)
    = true ->
    conditionChecker s = Returned false ->
    let result := Workflow.run this userPrompt conditionChecker w [] in
    exists receipt intent,
      Encryption.encrypt (Workflow.bite this) s (Workflow.entropy w)
      = Returned intent /\
      fst result = Returned {| Workflow.receipt := receipt;
                               Workflow.encryptedIntent := Some intent |} /\
      Receipt.status receipt = Receipt.expired /\
      Receipt.conditions_met receipt = false /\
      Receipt.execution_tx_hash receipt = None /\
      Receipt.total_spend_usdc receipt = 0%Q /\
      Receipt.intent_id receipt = Encryption.intent_id intent /\
      Receipt.validated_strategy receipt = StrategyDSL_json s /\
      Receipt.encrypted_intent_hash receipt
      = sha256_hex (Encryption.encrypted_payload intent) /\
      snd result
      = [Workflow.ParserCalled; Workflow.ValidatorCalled;
         Workflow.EncryptCalled; Workflow.ConditionCheckerCalled s;
         Workflow.ReceiptBuilt Receipt.expired].
Proof.
  intros R Laws this userPrompt conditionChecker w parserOutput s
    Hkey Hparse Hvalid Hs Htime Hchecker result.
  destruct (EncryptionFacts.encrypt_returns (Workflow.bite this) s
              (Workflow.entropy w) Hkey Htime) as [intent Hencrypt].
  subst result.
  rewrite (RunFacts.run_expired this userPrompt conditionChecker w
             parserOutput s intent Hparse Hvalid Hs Hencrypt Hchecker).
  eexists. exists intent. split; [exact Hencrypt|].
  cbn [fst snd]. repeat split.
Qed.

(** The test "expires when conditions are not met". *)
Lemma unmet_conditions_expire_the_intent_without_decrypting_witness :
  exists receipt intent,
    fst (@Workflow.run Model.runtime Samples.sampleWorkflow
           "Buy ETH if it dips below 3k" (fun _ => Returned false)
           (Samples.workflowWorld Samples.sampleStrategy) [])
    = Returned {| Workflow.receipt := receipt;
                  Workflow.encryptedIntent := Some intent |} /\
    Receipt.status receipt = Receipt.expired /\
    Receipt.execution_tx_hash receipt = None.
Proof.
  destruct (unmet_conditions_expire_the_intent_without_decrypting
              Model.runtime ModelFacts.runtime_laws Samples.sampleWorkflow
              "Buy ETH if it dips below 3k" (fun _ => Returned false)
              (Samples.workflowWorld Samples.sampleStrategy)
              {| Parser.strategy_dsl := StrategyDSL_json Samples.sampleStrategy;
                 Parser.explanation := "Buy ETH when price drops below $3000";
                 Parser.risk_notes := ["Market volatility is high"];
                 Parser.parser_metadata :=
                   {| Parser.model := "claude-custom";
                      Parser.confidence := 85 # 100 |} |}
              Samples.sampleStrategy eq_refl eq_refl eq_refl eq_refl eq_refl
              eq_refl)
    as (receipt & intent & _ & Hresult & Hstatus & _ & Htx & _).
  exists receipt, intent.
  split; [exact Hresult|]. split; [exact Hstatus|exact Htx].
Defined.

(** X15. The executed path.  For a workflow built by the constructor
    (whose executor simulates) under a key of the right length: when the
    parser's strategy is accepted and conforms to the schema after the
    clamp, its expiry lies within the range of [Date], the condition checker
    answers [true], and its amounts are safe integers whose total is within
    the spend cap, the run goes through all eight steps and returns an
    [executed] receipt with a transaction hash whose total spend is the sum
    of the action amounts. *)
Theorem accepted_strategy_within_the_cap_is_executed :
  forall (R : NodeRuntime) (Laws : NodeRuntimeLaws R)
         (config : Workflow.WorkflowConfig)
         (encryptionKey : option (list byte)) (randomKey : list byte)
         (userPrompt : string)
         (conditionChecker : StrategyDSL -> Outcome bool)
         (w : Workflow.World) (parserOutput : Parser.ParserOutput)
         (s : StrategyDSL),
    let this := Workflow.new config encryptionKey randomKey in
    length (Encryption.key (Workflow.bite this)) = Encryption.KEY_LENGTH ->
    Parser.parse (Workflow.parser this)
      (Workflow.parser_input this userPrompt) (Workflow.parser_fetch w)
    = Returned parserOutput ->
    Validation.valid
      (Validation.validateStrategy (Parser.strategy_dsl parserOutput)
         (Workflow.hard_limits this)) = true ->
    Validation.strategy
      (Validation.validateStrategy (Parser.strategy_dsl parserOutput)
         (Workflow.hard_limits this)) = Some s ->
    well_formed s ->
    Encryption.valid_time (Encryption.expires_ms (Workflow.entropy w) s)
    = true ->
    conditionChecker s = Returned true ->
    Js.sums_exactly amount_usdc (actions s) = true ->
    (Js.sumBy amount_usdc (actions s)
     <= Workflow.max_spend_usdc_hard config)%Q ->
    let result := Workflow.run this userPrompt conditionChecker w [] in
    exists receipt intent,
      fst result = Returned {| Workflow.receipt := receipt;
                               Workflow.encryptedIntent := Some intent |} /\
      Receipt.status receipt = Receipt.executed /\
      Receipt.conditions_met receipt = true /\
      is_Some (Receipt.execution_tx_hash receipt) /\
      Receipt.total_spend_usdc receipt = Js.sumBy amount_usdc (actions s) /\
      Receipt.validated_strategy receipt = StrategyDSL_json s /\
      Receipt.payments receipt = [] /\
      Receipt.reason_codes receipt = [] /\
      snd result
      = [Workflow.ParserCalled; Workflow.ValidatorCalled;
         Workflow.EncryptCalled; Workflow.ConditionCheckerCalled s;
         Workflow.DecryptCalled; Workflow.RiskCheckCalled;
         Workflow.ExecutorCalled; Workflow.ReceiptBuilt Receipt.executed].
Proof.
  intros R Laws config encryptionKey randomKey userPrompt conditionChecker w
    parserOutput s this Hkey Hparse Hvalid Hs Hwf Htime Hchecker Hexact Hsum
    result.
  destruct (RunGates.sealed_and_opened this s (Workflow.entropy w) Hkey Hwf
              Htime) as (intent & Hencrypt & Hdecrypt).
  subst result.
  rewrite (RunFacts.run_conditions_met this userPrompt conditionChecker w
             parserOutput s intent s Hparse Hvalid Hs Hencrypt Hchecker
             Hdecrypt).
  rewrite (RunGates.recheck_passed this _ s Hvalid Hs).
  change (Workflow.max_spend_usdc_hard (Workflow.config this))
    with (Workflow.max_spend_usdc_hard config).
  rewrite (proj2 (gt_false _ _) Hsum). cbn [negb]. cbv zeta.
  rewrite (ExecutionFacts.execute_conforming (Workflow.executor this) s
             (Workflow.execution_salt w)
             (proj1 (SchemaSpecFacts.well_formed_conforms s) Hwf)).
  change (Execution.simulate (Workflow.executor this)) with true.
  cbn [Execution.success Execution.tx_hash fst snd].
  eexists. exists intent. split; [reflexivity|].
  repeat split. eexists. reflexivity.
Qed.

(** The test "completes a full successful workflow". *)
Lemma accepted_strategy_within_the_cap_is_executed_witness :
  exists receipt intent,
    fst (@Workflow.run Model.runtime Samples.sampleWorkflow
           "Buy ETH if it dips below 3k" Samples.alwaysMet
           (Samples.workflowWorld Samples.sampleStrategy) [])
    = Returned {| Workflow.receipt := receipt;
                  Workflow.encryptedIntent := Some intent |} /\
    Receipt.status receipt = Receipt.executed /\
    Receipt.total_spend_usdc receipt
    = Js.sumBy amount_usdc (actions Samples.sampleStrategy).
Proof.
  destruct (accepted_strategy_within_the_cap_is_executed
              Model.runtime ModelFacts.runtime_laws Samples.workflowConfig
              None Samples.sampleKey
              "Buy ETH if it dips below 3k" Samples.alwaysMet
              (Samples.workflowWorld Samples.sampleStrategy)
              {| Parser.strategy_dsl := StrategyDSL_json Samples.sampleStrategy;
                 Parser.explanation := "Buy ETH when price drops below $3000";
                 Parser.risk_notes := ["Market volatility is high"];
                 Parser.parser_metadata :=
                   {| Parser.model := "claude-custom";
                      Parser.confidence := 85 # 100 |} |}
              Samples.sampleStrategy eq_refl eq_refl eq_refl eq_refl
              SchemaFacts.sampleStrategy_well_formed eq_refl eq_refl eq_refl)
    as (receipt & intent & Hresult & Hstatus & _ & _ & Hspend & _).
  { apply Qle_bool_iff. reflexivity. }
  exists receipt, intent.
  split; [exact Hresult|]. split; [exact Hstatus|exact Hspend].
Defined.



(** X17. What a run can throw.  Under a key of the right length and a
    hard slippage limit inside the schema's range, a run throws only what
    its parser call throws, what its condition checker throws, or the
    "Invalid time value" of [encrypt], the last exactly for an accepted
    strategy whose expiry lies beyond the range of [Date]: decryption, the
    risk re-check, the executor and the receipt never make it throw. *)
Theorem run_throws_only_from_parser_checker_or_expiry_date :
  forall (R : NodeRuntime) (Laws : NodeRuntimeLaws R)
         (this : Workflow.AgentWorkflow) (userPrompt : string)
         (conditionChecker : StrategyDSL -> Outcome bool)
         (w : Workflow.World) (message : string),
    length (Encryption.key (Workflow.bite this)) = Encryption.KEY_LENGTH ->
    Js.isInteger (Workflow.max_slippage_bps_hard (Workflow.config this))
    = true ->
    (1 <= Workflow.max_slippage_bps_hard (Workflow.config this))%Q ->
    (Workflow.max_slippage_bps_hard (Workflow.config this) <= 500)%Q ->
    fst (Workflow.run this userPrompt conditionChecker w [])
    = Thrown message ->
    Parser.parse (Workflow.parser this)
      (Workflow.parser_input this userPrompt) (Workflow.parser_fetch w)
    = Thrown message \/
    (exists s, conditionChecker s = Thrown message) \/
    (message = "Invalid time value" /\
     exists parserOutput s,
       Parser.parse (Workflow.parser this)
         (Workflow.parser_input this userPrompt) (Workflow.parser_fetch w)
       = Returned parserOutput /\
       Validation.strategy
         (Validation.validateStrategy (Parser.strategy_dsl parserOutput)
            (Workflow.hard_limits this)) = Some s /\
       Encryption.valid_time (Encryption.expires_ms (Workflow.entropy w) s)
       = false).
Proof.
  intros R Laws this userPrompt conditionChecker w message
    Hkey Hint Hmin Hmax.
  destruct (RunFacts.run_paths this userPrompt conditionChecker w)
    as [(m & Hthrows & E)
       |[(po & E)
        |(po & s & Hparse & Hvalid & Hs &
          [(m & Hencrypt & E)
          |(intent & Hencrypt &
            [(m & Hchecker & E)
            |[(_ & E)
             |(_ & [(m & Hdecrypt & E)|(d & _ & E)])]])])]];
    rewrite E; cbn [fst]; try discriminate.
  - intros [= <-]. left. exact Hthrows.
  - intros [= <-]. right. right.
    destruct (Encryption.valid_time
                (Encryption.expires_ms (Workflow.entropy w) s)) eqn:Htime.
    + destruct (EncryptionFacts.encrypt_returns (Workflow.bite this) s
                  (Workflow.entropy w) Hkey Htime) as [intent Hintent].
      congruence.
    + rewrite (EncryptionFacts.encrypt_invalid_time (Workflow.bite this) s
                 (Workflow.entropy w) Hkey Htime) in Hencrypt.
      injection Hencrypt as <-. split; [reflexivity|].
      exists po, s. repeat split; assumption.
  - intros [= <-]. right. left. exists s. exact Hchecker.
  - intros _. exfalso.
    destruct (ValidationIdempotence.validate_again (Parser.strategy_dsl po)
                (Workflow.hard_limits this) s Hint Hmin Hmax Hvalid Hs)
      as [Hwf _].
    pose proof (EncryptionFacts.decrypt_encrypt _ _ _ _ Hwf Hencrypt).
    congruence.
  - destruct (Risk.passed _); discriminate.
Qed.

(** The parser answers with a strategy that expires beyond the range of
    [Date]: validation accepts it and [encrypt] throws. *)
Lemma run_throws_only_from_parser_checker_or_expiry_date_witness :
  fst (@Workflow.run Model.runtime Samples.sampleWorkflow "Buy ETH"
         Samples.alwaysMet
         (Samples.workflowWorld Scenarios.distantStrategy) [])
  = Thrown "Invalid time value" /\
  (@Parser.parse Model.runtime (Workflow.parser Samples.sampleWorkflow)
     (Workflow.parser_input Samples.sampleWorkflow "Buy ETH")
     (Samples.parserAnswers Scenarios.distantStrategy)
   = Thrown "Invalid time value" \/
   (exists s, Samples.alwaysMet s = Thrown "Invalid time value") \/
   ("Invalid time value" = "Invalid time value" /\
    exists parserOutput s,
      @Parser.parse Model.runtime (Workflow.parser Samples.sampleWorkflow)
        (Workflow.parser_input Samples.sampleWorkflow "Buy ETH")
        (Samples.parserAnswers Scenarios.distantStrategy)
      = Returned parserOutput /\
      Validation.strategy
        (Validation.validateStrategy (Parser.strategy_dsl parserOutput)
           (Workflow.hard_limits Samples.sampleWorkflow)) = Some s /\
      Encryption.valid_time
        (Encryption.expires_ms Samples.sampleEntropy s) = false)).
Proof.
  split; [reflexivity|].
  apply (run_throws_only_from_parser_checker_or_expiry_date
           Model.runtime ModelFacts.runtime_laws Samples.sampleWorkflow
           "Buy ETH" Samples.alwaysMet
           (Samples.workflowWorld Scenarios.distantStrategy)
           "Invalid time value").
  - reflexivity.
  - reflexivity.
  - apply Qle_bool_iff. reflexivity.
  - apply Qle_bool_iff. reflexivity.
  - reflexivity.
Defined.

(** ** The parser adapter *)

Module ParserFacts.
Import Parser.

Lemma parse_Returned `{NodeRuntime} this input fetch body :
  parse this input fetch = Returned body <->
  exists response,
    fetch = Responded response /\
    ok response = true /\
    json_body response = Returned body /\
    exists data, safeParse (strategy_dsl body) = Success data.
Proof.
  unfold parse. split.
  - destruct fetch as [response| |e]; try discriminate.
    destruct (ok response) eqn:Hok; [|discriminate]. cbn [negb].
    destruct (json_body response) as [b|e] eqn:Hbody; [|discriminate].
    destruct (safeParse (strategy_dsl b)) as [data|issues] eqn:E;
      [|discriminate].
    intros [= <-]. exists response. repeat split; try assumption.
    exists data. exact E.
  - intros (response & -> & Hok & Hbody & data & E).
    rewrite Hok, Hbody, E. reflexivity.
Qed.

End ParserFacts.

(** X18. The adapter returns a body exactly when the endpoint answered
    with a 2xx status, the answer was readable as JSON and its
    [strategy_dsl] conforms to the schema; and then the validator cannot
    fail on the schema any more: every error it reports on that body is a
    pair outside the allowlist or an action above the cap. *)
Theorem parsed_body_can_only_fail_validation_on_policy :
  forall (R : NodeRuntime) (this : Parser.ParserAdapter)
         (input : Parser.ParserInput) (fetch : Parser.Fetch)
         (body : Parser.ParserOutput) (limits : Validation.ValidationLimits),
    Parser.parse this input fetch = Returned body ->
    (exists response,
       fetch = Parser.Responded response /\
       (200 <= Parser.http_status response <= 299)%nat /\
       Parser.json_body response = Returned body) /\
    (exists data,
       safeParse (Parser.strategy_dsl body) = Success data /\
       SchemaSpec.conforms data = true) /\
    forall e,
      In e (Validation.errors
              (Validation.validateStrategy (Parser.strategy_dsl body) limits))
      -> (exists p, e = Validation.PairNotInAllowlist p
                          (Validation.allowed_pairs limits)) \/
         (exists amount,
            e = Validation.ActionExceedsCap amount
                  (Validation.max_spend_usdc limits) /\
            (Validation.max_spend_usdc limits < amount)%Q).
Proof.
  intros R this input fetch body limits Hparse.
  apply ParserFacts.parse_Returned in Hparse
    as (response & -> & Hok & Hbody & data & E).
  split; [|split].
  - exists response. split; [reflexivity|]. split; [|exact Hbody].
    unfold Parser.ok in Hok. apply andb_true_iff in Hok as [Hlo Hhi].
    apply Nat.leb_le in Hlo, Hhi. split; assumption.
  - exists data. split; [exact E|].
    apply (SchemaSpecFacts.safeParse_conforms _ _ E).
  - intros e. rewrite (ValidationMore.errors_Success _ limits _ E).
    intros Hin.
    pose proof (ValidationMore.expiry_error_absent data limits
                  (SchemaSpecFacts.safeParse_conforms _ _ E)) as Hexp.
    unfold Validation.policy_errors in Hin, Hexp.
    rewrite !in_app_iff in Hin.
    destruct Hin as [Hin|[Hin|Hin]].
    + left. destruct (negb _); [|destruct Hin].
      destruct Hin as [<-|[]]. eexists. reflexivity.
    + right. unfold Validation.spend_errors in Hin.
      apply in_flat_map in Hin as (a & _ & Hin).
      destruct (Js.gt (amount_usdc a) (Validation.max_spend_usdc limits))
        eqn:Hgt; [|destruct Hin].
      destruct Hin as [<-|[]]. exists (amount_usdc a).
      split; [reflexivity|]. apply gt_true. exact Hgt.
    + exfalso. apply Hexp. rewrite !in_app_iff. right. right.
      destruct (Js.le _ _); [|destruct Hin].
      destruct Hin as [<-|[]]. left. reflexivity.
Qed.

Lemma parsed_body_can_only_fail_validation_on_policy_witness :
  (exists data,
     safeParse (StrategyDSL_json Samples.dogeStrategy) = Success data /\
     SchemaSpec.conforms data = true) /\
  ((exists p, Validation.PairNotInAllowlist "DOGE/USDC"
                ["ETH/USDC"; "BTC/USDC"]
              = Validation.PairNotInAllowlist p ["ETH/USDC"; "BTC/USDC"]) \/
   (exists amount,
      Validation.PairNotInAllowlist "DOGE/USDC" ["ETH/USDC"; "BTC/USDC"]
      = Validation.ActionExceedsCap amount 500 /\ (500 < amount)%Q)).
Proof.
  destruct (parsed_body_can_only_fail_validation_on_policy Model.runtime
              (Workflow.parser Samples.sampleWorkflow)
              (Workflow.parser_input Samples.sampleWorkflow "Buy DOGE")
              (Samples.parserAnswers Samples.dogeStrategy)
              {| Parser.strategy_dsl := StrategyDSL_json Samples.dogeStrategy;
                 Parser.explanation := "Buy ETH when price drops below $3000";
                 Parser.risk_notes := ["Market volatility is high"];
                 Parser.parser_metadata :=
                   {| Parser.model := "claude-custom";
                      Parser.confidence := 85 # 100 |} |}
              Samples.defaultLimits eq_refl)
    as (_ & Hdata & Herrors).
  split; [exact Hdata|].
  apply Herrors. left. reflexivity.
Defined.

(** ** The engine's budget and reason codes over a history *)

Module AccountingFacts.
Import Economic.

Section WithRuntime.
Context `{R : NodeRuntime}.

Lemma getReasonCodes_ledger this :
  well_formed this -> ledger (snd (getReasonCodes this)) = ledger this.
Proof. intros Hok. apply StoreFacts.contents_alloc. exact Hok. Qed.

Lemma decision_code_consistent this toolName costUsdc :
  Accounting.code_consistent (decision_code this toolName costUsdc).
Proof. reflexivity. Qed.

Lemma history_from this calls :
  well_formed this ->
  let final := fold_left perform calls this in
  (budgetRemaining final == budgetRemaining this - Accounting.debited calls)%Q
  /\ (exists codes,
        ledger final = ledger this ++ codes /\
        length codes = Accounting.decisions calls /\
        Forall Accounting.code_consistent codes).
Proof.
  revert this. induction calls as [|c calls IH]; intros this Hok; cbn zeta.
  - cbn [fold_left Accounting.debited Accounting.decisions]. split; [ring|].
    exists []. rewrite app_nil_r. repeat split. constructor.
  - cbn [fold_left]. destruct c as [toolName costUsdc|amount|].
    + destruct (IH (perform this (CallShouldPurchase toolName costUsdc)))
        as (Hbudget & codes & Hledger & Hlen & Hall).
      { apply EconomicFacts.shouldPurchase_well_formed. exact Hok. }
      split; [exact Hbudget|].
      exists (decision_code this toolName costUsdc :: codes).
      split; [|split].
      * rewrite Hledger. cbn [perform].
        rewrite EconomicFacts.shouldPurchase_ledger by exact Hok.
        rewrite <- app_assoc. reflexivity.
      * cbn [length Accounting.decisions]. rewrite Hlen. reflexivity.
      * constructor; [apply decision_code_consistent|exact Hall].
    + destruct (IH (perform this (CallRecordSpend amount)))
        as (Hbudget & codes & Hledger & Hlen & Hall); [exact Hok|].
      split.
      * rewrite Hbudget. cbn [perform recordSpend budgetRemaining
                              Accounting.debited]. ring.
      * exists codes. repeat split; assumption.
    + destruct (IH (perform this CallGetReasonCodes))
        as (Hbudget & codes & Hledger & Hlen & Hall).
      { apply EconomicFacts.getReasonCodes_well_formed. exact Hok. }
      split; [exact Hbudget|].
      exists codes. split; [|split; assumption].
      rewrite Hledger. cbn [perform].
      rewrite getReasonCodes_ledger by exact Hok. reflexivity.
Qed.

End WithRuntime.
End AccountingFacts.

(** X19. The engine's books over a history of calls from the
    constructor whose initial budget and debits are safe integers that stay
    within the safe range together (so that no subtraction rounds): the
    remaining budget is the initial budget minus the amounts passed to
    [recordSpend] (decisions and reads never debit, and nothing keeps the
    budget from going negative); the ledger holds one reason code per
    [shouldPurchase] call; and each code's decision agrees with the cost
    and the budget that the code itself records. *)
Theorem engine_books_balance_over_every_history :
  forall (R : NodeRuntime) (initialBudget : Q) (calls : list Economic.Call),
    Accounting.exact_books initialBudget calls = true ->
    let this := Economic.after initialBudget calls in
    (Economic.getBudgetRemaining this
     == initialBudget - Accounting.debited calls)%Q /\
    length (Economic.ledger this) = Accounting.decisions calls /\
    Forall Accounting.code_consistent (Economic.ledger this).
Proof.
  intros R initialBudget calls _ this. subst this. unfold Economic.after.
  destruct (AccountingFacts.history_from (Economic.new initialBudget []) calls
              (EconomicFacts.engine_new_well_formed initialBudget []))
    as (Hbudget & codes & Hledger & Hlen & Hall).
  rewrite EconomicFacts.engine_new_ledger in Hledger. cbn [app] in Hledger.
  split; [exact Hbudget|]. rewrite Hledger. split; assumption.
Qed.

(** A budget of 5: a purchase of 2 is approved and debited, a purchase of
    4 is then refused. *)
Lemma engine_books_balance_over_every_history_witness :
  let calls :=
    [Economic.CallShouldPurchase "price_feed" 2;
     Economic.CallRecordSpend 2;
     Economic.CallShouldPurchase "funding_feed" 4] in
  let this := @Economic.after Model.runtime 5 calls in
  (Economic.getBudgetRemaining this == 3)%Q /\
  Economic.decision <$> Economic.ledger this
  = [Economic.proceed; Economic.skip].
Proof.
  cbv zeta.
  destruct (engine_books_balance_over_every_history Model.runtime 5
              [Economic.CallShouldPurchase "price_feed" 2;
               Economic.CallRecordSpend 2;
               Economic.CallShouldPurchase "funding_feed" 4] eq_refl)
    as (Hbudget & _ & _).
  split; [rewrite Hbudget; reflexivity|reflexivity].
Defined.

(** ** The payment ledger over a history *)

Module LedgerFacts.
Import Payment.

Section WithRuntime.
Context `{R : NodeRuntime}.

Lemma getPaymentRecords_ledger this :
  well_formed this -> ledger (snd (getPaymentRecords this)) = ledger this.
Proof. intros Hok. apply StoreFacts.contents_alloc. exact Hok. Qed.

(** The ledger after a call is the ledger before it followed by what the
    call recorded. *)
Lemma fetchWithPayment_ledger this toolUrl signPayment toolCostUsdc w :
  well_formed this ->
  ledger (snd (fetchWithPayment this toolUrl signPayment toolCostUsdc w))
  = ledger this ++ Ledgers.attempt toolUrl signPayment toolCostUsdc w.
Proof.
  intros Hok. unfold fetchWithPayment, Ledgers.attempt, Store.alloc.
  destruct (first_fetch w) as [firstResponse|e];
    [|symmetry; apply app_nil_r].
  destruct (http_status firstResponse =? 402)%nat.
  2:{ destruct (negb (ok firstResponse)); symmetry; apply app_nil_r. }
  destruct (signPayment toolCostUsdc) as [txHash|e];
    [|symmetry; apply app_nil_r].
  destruct (retry_fetch w txHash) as [retryResponse|e].
  - destruct (ok retryResponse); cbn [negb snd]; unfold ledger;
      cbn [heap records with_heap].
    + apply StoreFacts.contents_alloc_push. exact Hok.
    + rewrite StoreFacts.contents_alloc_update_push by exact Hok.
      reflexivity.
  - cbn [snd]. unfold ledger. cbn [heap records with_heap].
    rewrite StoreFacts.contents_alloc by exact Hok.
    symmetry. apply app_nil_r.
Qed.

Lemma perform_ledger this c :
  well_formed this ->
  ledger (perform this c) = ledger this ++ Ledgers.recorded c.
Proof.
  intros Hok. destruct c as [toolUrl signPayment toolCostUsdc w|];
    cbn [perform Ledgers.recorded].
  - apply fetchWithPayment_ledger. exact Hok.
  - rewrite getPaymentRecords_ledger by exact Hok.
    symmetry. apply app_nil_r.
Qed.

Lemma perform_well_formed this c :
  well_formed this -> well_formed (perform this c).
Proof.
  intros Hok. destruct c; cbn [perform].
  - apply PaymentFacts.fetchWithPayment_well_formed. exact Hok.
  - apply PaymentFacts.getPaymentRecords_well_formed. exact Hok.
Qed.

Lemma history_ledger this calls :
  well_formed this ->
  ledger (fold_left perform calls this)
  = ledger this ++ flat_map Ledgers.recorded calls.
Proof.
  revert this. induction calls as [|c calls IH]; intros this Hok.
  - symmetry. apply app_nil_r.
  - cbn [fold_left flat_map].
    rewrite IH by (apply perform_well_formed; exact Hok).
    rewrite perform_ledger by exact Hok.
    symmetry. apply app_assoc.
Qed.

End WithRuntime.
End LedgerFacts.

(** X20. The paid retry that succeeds: when the first response is a 402,
    the payment is signed and the retry is answered with a 2xx status,
    [fetchWithPayment] returns what the retry's [json()] gives, the ledger
    gains exactly one record, with status [success] and the signed
    transaction hash, and [getTotalSpent] rises by the tool's cost. *)
Theorem paid_retry_is_recorded_and_counted :
  forall (R : NodeRuntime) (this : Payment.X402PaymentClient)
         (toolUrl : string) (signPayment : Q -> Outcome string)
         (toolCostUsdc : Q) (w : Payment.World)
         (firstResponse retryResponse : Payment.Response) (txHash : string),
    Payment.well_formed this ->
    Payment.first_fetch w = Returned firstResponse ->
    Payment.http_status firstResponse = 402%nat ->
    signPayment toolCostUsdc = Returned txHash ->
    Payment.retry_fetch w txHash = Returned retryResponse ->
    Payment.ok retryResponse = true ->
    let result :=
      Payment.fetchWithPayment this toolUrl signPayment toolCostUsdc w in
    fst result = Payment.json_body retryResponse /\
    Payment.ledger (snd result)
    = Payment.ledger this
        ++ [{| Payment.tool := toolUrl;
               Payment.cost_usdc := toolCostUsdc;
               Payment.tx_hash := txHash;
               Payment.timestamp := toISOString (Payment.clock w);
               Payment.status := Payment.success |}] /\
    (Payment.getTotalSpent (snd result)
     == Payment.getTotalSpent this + toolCostUsdc)%Q.
Proof.
  intros R this toolUrl signPayment toolCostUsdc w firstResponse retryResponse
    txHash Hok Hfirst H402 Hsign Hretry Hsuccess result.
  assert (Hledger :
    Payment.ledger (snd result)
    = Payment.ledger this
        ++ [{| Payment.tool := toolUrl;
               Payment.cost_usdc := toolCostUsdc;
               Payment.tx_hash := txHash;
               Payment.timestamp := toISOString (Payment.clock w);
               Payment.status := Payment.success |}]).
  { subst result. rewrite LedgerFacts.fetchWithPayment_ledger by exact Hok.
    unfold Ledgers.attempt.
    rewrite Hfirst, H402. cbn [Nat.eqb]. rewrite Hsign, Hretry, Hsuccess.
    reflexivity. }
  split; [|split; [exact Hledger|]].
  - subst result. unfold Payment.fetchWithPayment, Store.alloc.
    rewrite Hfirst, H402. cbn [Nat.eqb]. rewrite Hsign, Hretry, Hsuccess.
    reflexivity.
  - rewrite !PaymentFacts.getTotalSpent_sum, Hledger.
    rewrite PaymentFacts.sum_of_successful_app. simpl. ring.
Qed.

(** The test "handles 402 and retries with payment". *)
Lemma paid_retry_is_recorded_and_counted_witness :
  let result :=
    @Payment.fetchWithPayment Model.runtime (Payment.new [])
      "https://api.example.com/a" (Samples.signer "0x1") (5 # 10)
      Samples.retrySucceeds in
  fst result = Returned (JObj [("price", JNum 3000)]) /\
  Payment.tx_hash <$> Payment.ledger (snd result) = ["0x1"] /\
  (Payment.getTotalSpent (snd result) == 5 # 10)%Q.
Proof.
  cbv zeta.
  destruct (paid_retry_is_recorded_and_counted Model.runtime
              (Payment.new []) "https://api.example.com/a"
              (Samples.signer "0x1") (5 # 10) Samples.retrySucceeds
              Samples.paymentRequired Samples.priceQuote "0x1"
              (PaymentFacts.client_new_well_formed [])
              eq_refl eq_refl eq_refl eq_refl eq_refl)
    as (Hresult & Hledger & Htotal).
  split; [exact Hresult|].
  split; [rewrite Hledger; reflexivity|].
  rewrite Htotal. reflexivity.
Defined.

(** X21. The payment ledger is append-only and holds exactly the answered
    paid retries: after any history of calls from the constructor it is the
    list, in call order, of one record per [fetchWithPayment] call whose
    first response was a 402, whose payment was signed and whose retry was
    answered ([success] if the answer was a 2xx, [failed] otherwise).  No
    later call removes or rewrites a record, and [getTotalSpent] is the sum
    of the successful ones. *)
Theorem payment_ledger_is_the_list_of_answered_paid_retries :
  forall (R : NodeRuntime) (calls more : list Payment.Call),
    Payment.ledger (Payment.after calls)
    = flat_map Ledgers.recorded calls /\
    Payment.ledger (Payment.after (calls ++ more))
    = Payment.ledger (Payment.after calls)
        ++ flat_map Ledgers.recorded more /\
    (Payment.getTotalSpent (Payment.after calls)
     == Payment.sum_of_successful (flat_map Ledgers.recorded calls))%Q.
Proof.
  intros R calls more.
  assert (Hledger : forall cs,
             Payment.ledger (Payment.after cs)
             = flat_map Ledgers.recorded cs).
  { intros cs. unfold Payment.after.
    rewrite LedgerFacts.history_ledger
      by apply PaymentFacts.client_new_well_formed.
    rewrite PaymentFacts.client_new_ledger. reflexivity. }
  split; [apply Hledger|]. split.
  - rewrite !Hledger. apply flat_map_app.
  - rewrite PaymentFacts.getTotalSpent_sum, Hledger. reflexivity.
Qed.

(** ** The trading dashboard: invariant and operations *)

Module DashboardFacts.
Import Dashboard DashboardSpec.

Lemma holds_lt st r tradeId : holds st r tradeId -> r < length st.
Proof.
  intros (t & E & _). apply StoreFacts.get_lt. rewrite E.
  eexists. reflexivity.
Qed.

Lemma holds_inj st r r' tradeId tradeId' :
  holds st r tradeId -> holds st r' tradeId' -> tradeId <> tradeId' ->
  r <> r'.
Proof.
  intros (t & E & Hid) (t' & E' & Hid') Hne ->. congruence.
Qed.

Lemma grows_refl st : grows st st.
Proof. intros r tradeId Hr. exact Hr. Qed.

Lemma grows_trans st st' st'' :
  grows st st' -> grows st' st'' -> grows st st''.
Proof. intros H1 H2 r tradeId Hr. apply H2, H1, Hr. Qed.

Lemma grows_alloc st c : grows st (st ++ [c]).
Proof.
  intros r tradeId Hr. pose proof (holds_lt _ _ _ Hr) as Hlt.
  destruct Hr as (t & E & Hid). exists t. split; [|exact Hid].
  rewrite StoreFacts.get_alloc_old by exact Hlt. exact E.
Qed.

Lemma grows_update st r f :
  (forall t, id (f t) = id t) -> grows st (Store.update st r f).
Proof.
  intros Hf r' tradeId (t & E & Hid).
  destruct (decide (r = r')) as [->|Hne].
  - exists (f t). rewrite StoreFacts.get_update_eq, E.
    split; [reflexivity|]. rewrite Hf. exact Hid.
  - exists t. rewrite StoreFacts.get_update_ne by exact Hne.
    split; assumption.
Qed.

Lemma with_status_id s t : id (with_status s t) = id t.
Proof. reflexivity. Qed.

Lemma with_result_id r t : id (with_result r t) = id t.
Proof. reflexivity. Qed.

Lemma invariant_with_heap this st :
  invariant this -> grows (heap this) st -> invariant (with_heap this st).
Proof.
  intros (Hint & Htrades & Hsusp) Hgrows. split; [exact Hint|]. split.
  - intros tradeId r E. apply Hgrows. exact (Htrades tradeId r E).
  - cbn [suspended heap with_heap].
    eapply Forall_impl; [exact Hsusp|].
    intros m Hm. apply Hgrows. exact Hm.
Qed.

Lemma invariant_new config : invariant (new config).
Proof.
  split; [reflexivity|]. split.
  - intros tradeId r E. cbn [trades new] in E.
    rewrite lookup_empty in E. discriminate.
  - constructor.
Qed.

Lemma invariant_registerBot this bot :
  invariant this -> invariant (registerBot this bot).
Proof. intros Hinv. exact Hinv. Qed.

(** In a state that meets the invariant [stopMonitoring] finds nothing
    to clear. *)
Lemma stopMonitoring_noop this tradeId :
  monitoringIntervals this = ∅ -> stopMonitoring this tradeId = this.
Proof.
  intros Hint. unfold stopMonitoring. rewrite Hint, lookup_empty.
  reflexivity.
Qed.

Section WithRuntime.
Context `{R : NodeRuntime}.

Lemma submitTrade_Thrown this userPrompt botName tradeId clock message :
  fst (submitTrade this userPrompt botName tradeId clock) = Thrown message ->
  snd (submitTrade this userPrompt botName tradeId clock) = this /\
  ((bots this !! botName = None /\
    message = "Bot " +:+ Js.dquote +:+ botName +:+ Js.dquote
                +:+ " not found") \/
   (exists bot,
      bots this !! botName = Some bot /\ enabled bot = false /\
      message = "Bot " +:+ Js.dquote +:+ botName +:+ Js.dquote
                  +:+ " is disabled")).
Proof.
  unfold submitTrade, Store.alloc.
  destruct (bots this !! botName) as [bot|] eqn:Hbot.
  - destruct (enabled bot) eqn:Hen; cbn [negb fst snd].
    + discriminate.
    + intros [= <-]. split; [reflexivity|]. right. exists bot.
      repeat split; reflexivity || assumption.
  - cbn [fst snd]. intros [= <-]. split; [reflexivity|]. left.
    split; reflexivity.
Qed.

(** The state a successful [submitTrade] leaves. *)
Lemma submitTrade_Returned this userPrompt botName tradeId clock bot :
  bots this !! botName = Some bot ->
  enabled bot = true ->
  submitTrade this userPrompt botName tradeId clock
  = (Returned (length (heap this)),
     {| config := config this; bots := bots this;
        trades := <[tradeId := length (heap this)]> (trades this);
        monitoringIntervals := monitoringIntervals this;
        heap :=
          Store.update
            (heap this
               ++ [Store.Obj
                     {| id := tradeId; user_prompt := userPrompt;
                        bot_name := botName;
                        submitted_at := toISOString clock;
                        status := pending; result := None |}])
            (length (heap this)) (with_status monitoring);
        suspended :=
          suspended this
            ++ [{| trade := length (heap this); tradeId := tradeId;
                   userPrompt := userPrompt;
                   botEndpoint := endpoint bot |}];
        called := called this |}).
Proof.
  intros Hbot Hen. unfold submitTrade, Store.alloc, startMonitoring.
  rewrite Hbot, Hen. cbn [negb trades heap suspended config bots
                          monitoringIntervals called].
  rewrite lookup_insert_eq. reflexivity.
Qed.

Lemma submitTrade_invariant this userPrompt botName tradeId clock :
  invariant this ->
  invariant (snd (submitTrade this userPrompt botName tradeId clock)).
Proof.
  intros Hinv.
  destruct (bots this !! botName) as [bot|] eqn:Hbot.
  2:{ unfold submitTrade. rewrite Hbot. exact Hinv. }
  destruct (enabled bot) eqn:Hen.
  2:{ unfold submitTrade. rewrite Hbot, Hen. exact Hinv. }
  rewrite (submitTrade_Returned this userPrompt botName tradeId clock bot
             Hbot Hen).
  cbn [snd]. destruct Hinv as (Hint & Htrades & Hsusp).
  set (t0 := {| id := tradeId; user_prompt := userPrompt;
                bot_name := botName; submitted_at := toISOString clock;
                status := pending; result := None |}).
  assert (Hgrows : grows (heap this)
                     (Store.update (heap this ++ [Store.Obj t0])
                        (length (heap this)) (with_status monitoring))).
  { eapply grows_trans; [apply grows_alloc|].
    apply grows_update. intros t. reflexivity. }
  assert (Hnew : holds (Store.update (heap this ++ [Store.Obj t0])
                          (length (heap this)) (with_status monitoring))
                   (length (heap this)) tradeId).
  { exists (with_status monitoring t0).
    rewrite StoreFacts.get_update_eq, StoreFacts.get_alloc_new.
    split; reflexivity. }
  split; [exact Hint|]. split.
  - intros tradeId' r. cbn [trades heap].
    destruct (decide (tradeId = tradeId')) as [<-|Hne].
    + rewrite lookup_insert_eq. intros [= <-]. exact Hnew.
    + rewrite lookup_insert_ne by exact Hne. intros E.
      apply Hgrows. exact (Htrades tradeId' r E).
  - cbn [suspended heap]. apply Forall_app. split.
    + eapply Forall_impl; [exact Hsusp|]. intros m Hm. apply Hgrows, Hm.
    + constructor; [exact Hnew|constructor].
Qed.

Lemma cancelTrade_cases this tradeId :
  (exists t r,
     trades this !! tradeId = Some r /\
     Store.get (heap this) r = Some t /\
     terminal (status t) = false /\
     cancelTrade this tradeId
     = (true,
        with_heap (stopMonitoring this tradeId)
          (Store.update (heap (stopMonitoring this tradeId)) r
             (with_status expired)))) \/
  ((forall t, getTradeStatus this tradeId = Some t ->
              terminal (status t) = true) /\
   cancelTrade this tradeId = (false, this)).
Proof.
  unfold cancelTrade, getTradeStatus.
  destruct (trades this !! tradeId) as [r|] eqn:Hr.
  2:{ right. split; [discriminate|reflexivity]. }
  destruct (Store.get (heap this) r) as [t|] eqn:Ht.
  2:{ right. split; [discriminate|reflexivity]. }
  destruct (status t) eqn:Hst;
    try (right; split;
         [intros t' [= <-]; rewrite Hst; reflexivity|reflexivity]);
    left; exists t, r; rewrite Hst; repeat split; reflexivity || assumption.
Qed.

Lemma cancelTrade_invariant this tradeId :
  invariant this -> invariant (snd (cancelTrade this tradeId)).
Proof.
  intros Hinv.
  destruct (cancelTrade_cases this tradeId)
    as [(t & r & _ & _ & _ & ->)|(_ & ->)]; [|exact Hinv].
  cbn [snd]. rewrite (stopMonitoring_noop this tradeId (proj1 Hinv)).
  apply invariant_with_heap; [exact Hinv|].
  apply grows_update. intros t'. reflexivity.
Qed.

(** The state in which a suspended monitoring call leaves the dashboard
    when its workflow run ends. *)
Lemma resumeMonitoring_heap this m randomKey coin w :
  monitoringIntervals this = ∅ ->
  let outcome := awaited_run this m randomKey coin w in
  let final := resumeMonitoring this m randomKey coin w in
  config final = config this /\
  bots final = bots this /\
  trades final = trades this /\
  monitoringIntervals final = ∅ /\
  suspended final = suspended this /\
  heap final
  = match outcome with
    | Returned result =>
        Store.update
          (Store.update (heap this) (trade m) (with_result result))
          (trade m) (with_status (completion_status outcome))
    | Thrown _ =>
        Store.update (heap this) (trade m) (with_status failed)
    end.
Proof.
  intros Hint. unfold awaited_run, resumeMonitoring. cbv zeta.
  destruct (Workflow.run _ _ _ _ _) as [[result|message] log];
    cbn [fst completion_status].
  - destruct (Receipt.status (Workflow.receipt result));
      rewrite stopMonitoring_noop by exact Hint;
      repeat split; assumption || reflexivity.
  - rewrite stopMonitoring_noop by exact Hint.
    repeat split; assumption || reflexivity.
Qed.

Lemma resumeMonitoring_invariant this m randomKey coin w :
  invariant this -> invariant (resumeMonitoring this m randomKey coin w).
Proof.
  intros (Hint & Htrades & Hsusp).
  destruct (resumeMonitoring_heap this m randomKey coin w Hint)
    as (_ & _ & Etrades & Eint & Esusp & Eheap).
  assert (Hgrows : grows (heap this)
                     (heap (resumeMonitoring this m randomKey coin w))).
  { rewrite Eheap. destruct (awaited_run this m randomKey coin w).
    - eapply grows_trans; apply grows_update; intros t; reflexivity.
    - apply grows_update. intros t. reflexivity. }
  split; [exact Eint|]. split.
  - intros tradeId r. rewrite Etrades. intros E.
    apply Hgrows. exact (Htrades tradeId r E).
  - rewrite Esusp. eapply Forall_impl; [exact Hsusp|].
    intros m' Hm'. apply Hgrows, Hm'.
Qed.

Lemma step_invariant this op : invariant this -> invariant (step this op).
Proof.
  intros Hinv. destruct op as [userPrompt botName tradeId clock|tradeId
                              |n randomKey coin w]; cbn [step].
  - apply submitTrade_invariant. exact Hinv.
  - apply cancelTrade_invariant. exact Hinv.
  - destruct (suspended this !! n) as [m|] eqn:Hm; [|exact Hinv].
    apply resumeMonitoring_invariant.
    destruct Hinv as (Hint & Htrades & Hsusp).
    split; [exact Hint|]. split; [exact Htrades|].
    cbn [suspended heap]. apply Forall_delete. exact Hsusp.
Qed.

Lemma reached_invariant config actions : invariant (reached config actions).
Proof.
  unfold reached. generalize (invariant_new config).
  generalize (new config).
  induction actions as [|a actions IH]; intros this Hinv; [exact Hinv|].
  apply IH. destruct a as [bot|op]; cbn [act].
  - apply invariant_registerBot. exact Hinv.
  - apply step_invariant. exact Hinv.
Qed.

End WithRuntime.
End DashboardFacts.

Module DashboardOps.
Import Dashboard DashboardSpec.

Lemma completion_status_terminal outcome :
  terminal (completion_status outcome) = true.
Proof.
  destruct outcome as [result|message]; [|reflexivity].
  unfold completion_status.
  destruct (Receipt.status (Workflow.receipt result)); reflexivity.
Qed.

Lemma getTradeStatus_holds this tradeId t :
  invariant this -> getTradeStatus this tradeId = Some t -> id t = tradeId.
Proof.
  intros (_ & Htrades & _). unfold getTradeStatus.
  destruct (trades this !! tradeId) as [r|] eqn:E; [|discriminate].
  destruct (Htrades tradeId r E) as (t' & Ht' & Hid). congruence.
Qed.

(** Updating one trade object leaves the trades known under other
    identifiers as they are. *)
Lemma getTradeStatus_update_other this tradeId r f tradeId' :
  invariant this ->
  trades this !! tradeId = Some r ->
  tradeId' <> tradeId ->
  getTradeStatus (with_heap this (Store.update (heap this) r f)) tradeId'
  = getTradeStatus this tradeId'.
Proof.
  intros (_ & Htrades & _) Hr Hne. unfold getTradeStatus.
  cbn [trades heap with_heap].
  destruct (trades this !! tradeId') as [r'|] eqn:Hr'; [|reflexivity].
  apply StoreFacts.get_update_ne.
  apply (DashboardFacts.holds_inj (heap this) r r' tradeId tradeId').
  - exact (Htrades tradeId r Hr).
  - exact (Htrades tradeId' r' Hr').
  - congruence.
Qed.

End DashboardOps.

(** X22. [submitTrade] returns a trade exactly when the named bot is
    registered and enabled.  Otherwise it throws, naming the bot as not
    found or as disabled, and leaves the dashboard exactly as it was: no
    trade is stored and nothing starts monitoring. *)
Theorem submitTrade_refuses_unknown_and_disabled_bots :
  forall (R : NodeRuntime) (this : Dashboard.TradingDashboard)
         (userPrompt botName tradeId : string) (clock : Q),
    let result :=
      Dashboard.submitTrade this userPrompt botName tradeId clock in
    ((exists trade, fst result = Returned trade)
     <-> exists bot,
           Dashboard.bots this !! botName = Some bot /\
           Dashboard.enabled bot = true) /\
    (forall message,
       fst result = Thrown message ->
       snd result = this /\
       (message = "Bot " +:+ Js.dquote +:+ botName +:+ Js.dquote
                    +:+ " not found"
        \/ message = "Bot " +:+ Js.dquote +:+ botName +:+ Js.dquote
                       +:+ " is disabled")).
Proof.
  intros R this userPrompt botName tradeId clock result. subst result.
  split.
  - split.
    + intros [trade Htrade].
      destruct (Dashboard.bots this !! botName) as [bot|] eqn:Hbot.
      * exists bot. split; [reflexivity|].
        destruct (Dashboard.enabled bot) eqn:Hen; [reflexivity|].
        unfold Dashboard.submitTrade in Htrade. rewrite Hbot, Hen in Htrade.
        discriminate.
      * unfold Dashboard.submitTrade in Htrade. rewrite Hbot in Htrade.
        discriminate.
    + intros (bot & Hbot & Hen).
      rewrite (DashboardFacts.submitTrade_Returned this userPrompt botName
                 tradeId clock bot Hbot Hen).
      eexists. reflexivity.
  - intros message Hthrown.
    destruct (DashboardFacts.submitTrade_Thrown this userPrompt botName
                tradeId clock message Hthrown)
      as (Hsame & [(_ & ->)|(bot & _ & _ & ->)]).
    + split; [exact Hsame|]. left. reflexivity.
    + split; [exact Hsame|]. right. reflexivity.
Qed.

(** X23. A successful [submitTrade] stores the trade under its
    identifier with the prompt, the bot's name and the submission time,
    already in status [monitoring] when the call returns; it suspends one
    monitoring call on the bot's endpoint; and it leaves every trade known
    under another identifier as it was. *)
Theorem submitted_trade_is_stored_and_monitored :
  forall (R : NodeRuntime) (this : Dashboard.TradingDashboard)
         (userPrompt botName tradeId : string) (clock : Q)
         (bot : Dashboard.BotConfig),
    DashboardSpec.invariant this ->
    Dashboard.bots this !! botName = Some bot ->
    Dashboard.enabled bot = true ->
    let result :=
      Dashboard.submitTrade this userPrompt botName tradeId clock in
    let stored :=
      {| Dashboard.id := tradeId; Dashboard.user_prompt := userPrompt;
         Dashboard.bot_name := botName;
         Dashboard.submitted_at := toISOString clock;
         Dashboard.status := Dashboard.monitoring;
         Dashboard.result := None |} in
    exists trade,
      fst result = Returned trade /\
      Store.get (Dashboard.heap (snd result)) trade = Some stored /\
      Dashboard.getTradeStatus (snd result) tradeId = Some stored /\
      (forall tradeId',
         tradeId' <> tradeId ->
         Dashboard.getTradeStatus (snd result) tradeId'
         = Dashboard.getTradeStatus this tradeId') /\
      Dashboard.suspended (snd result)
      = Dashboard.suspended this
          ++ [{| Dashboard.trade := trade; Dashboard.tradeId := tradeId;
                 Dashboard.userPrompt := userPrompt;
                 Dashboard.botEndpoint := Dashboard.endpoint bot |}] /\
      DashboardSpec.invariant (snd result).
Proof.
  intros R this userPrompt botName tradeId clock bot Hinv Hbot Hen
    result stored.
  assert (Hinv' : DashboardSpec.invariant (snd result))
    by (apply DashboardFacts.submitTrade_invariant; exact Hinv).
  subst result. revert Hinv'.
  rewrite (DashboardFacts.submitTrade_Returned this userPrompt botName
             tradeId clock bot Hbot Hen).
  cbn [fst snd]. intros Hinv'.
  exists (length (Dashboard.heap this)).
  assert (Hget :
    Store.get
      (Store.update
         (Dashboard.heap this
            ++ [Store.Obj
                  {| Dashboard.id := tradeId;
                     Dashboard.user_prompt := userPrompt;
                     Dashboard.bot_name := botName;
                     Dashboard.submitted_at := toISOString clock;
                     Dashboard.status := Dashboard.pending;
                     Dashboard.result := None |}])
         (length (Dashboard.heap this))
         (Dashboard.with_status Dashboard.monitoring))
      (length (Dashboard.heap this)) = Some stored).
  { rewrite StoreFacts.get_update_eq, StoreFacts.get_alloc_new.
    reflexivity. }
  split; [reflexivity|]. split; [exact Hget|]. split; [|split; [|split]].
  - unfold Dashboard.getTradeStatus. cbn [Dashboard.trades Dashboard.heap].
    rewrite lookup_insert_eq. exact Hget.
  - intros tradeId' Hne. unfold Dashboard.getTradeStatus.
    cbn [Dashboard.trades Dashboard.heap].
    rewrite lookup_insert_ne by congruence.
    destruct (Dashboard.trades this !! tradeId') as [r|] eqn:Hr;
      [|reflexivity].
    destruct Hinv as (_ & Htrades & _).
    pose proof (DashboardFacts.holds_lt _ _ _ (Htrades tradeId' r Hr)) as Hlt.
    rewrite StoreFacts.get_update_ne by lia.
    apply StoreFacts.get_alloc_old. exact Hlt.
  - reflexivity.
  - exact Hinv'.
Qed.

(** The test "should submit a trade with an enabled bot". *)
Lemma submitted_trade_is_stored_and_monitored_witness :
  exists trade,
    fst (@Dashboard.submitTrade Model.runtime Samples.testDashboard
           "Buy ETH" "test-bot" "trade_1" 5) = Returned trade /\
    (Dashboard.status
       <$> Dashboard.getTradeStatus
             (snd (@Dashboard.submitTrade Model.runtime Samples.testDashboard
                     "Buy ETH" "test-bot" "trade_1" 5)) "trade_1")
    = Some Dashboard.monitoring.
Proof.
  destruct (submitted_trade_is_stored_and_monitored Model.runtime
              Samples.testDashboard "Buy ETH" "test-bot" "trade_1" 5
              Samples.testBot
              (DashboardFacts.invariant_registerBot _ _
                 (DashboardFacts.invariant_new Samples.workflowConfig))
              eq_refl eq_refl)
    as (trade & Hresult & _ & Hstatus & _).
  exists trade. split; [exact Hresult|].
  rewrite Hstatus. reflexivity.
Defined.

(** X24. Every state a dashboard reaches from its constructor, through
    any sequence of bot registrations, submissions, cancellations and
    monitoring completions, has no interval timer registered, so that
    [stopMonitoring] changes nothing there; every trade identifier it knows
    leads to a trade object carrying that identifier; and every suspended
    monitoring call holds an existing trade object. *)
Theorem reached_dashboard_has_no_timer_to_stop :
  forall (R : NodeRuntime) (config : Workflow.WorkflowConfig)
         (actions : list DashboardSpec.Action),
    let this := DashboardSpec.reached config actions in
    Dashboard.monitoringIntervals this = ∅ /\
    (forall tradeId, Dashboard.stopMonitoring this tradeId = this) /\
    (forall tradeId,
       is_Some (Dashboard.trades this !! tradeId) ->
       exists t,
         Dashboard.getTradeStatus this tradeId = Some t /\
         Dashboard.id t = tradeId) /\
    Forall (fun m =>
              is_Some (Store.get (Dashboard.heap this) (Dashboard.trade m)))
           (Dashboard.suspended this).
Proof.
  intros R config actions this.
  destruct (DashboardFacts.reached_invariant config actions)
    as (Hint & Htrades & Hsusp).
  fold this in Hint, Htrades, Hsusp.
  split; [exact Hint|]. split; [|split].
  - intros tradeId. apply DashboardFacts.stopMonitoring_noop. exact Hint.
  - intros tradeId [r Hr]. unfold Dashboard.getTradeStatus. rewrite Hr.
    exact (Htrades tradeId r Hr).
  - eapply Forall_impl; [exact Hsusp|].
    intros m (t & Ht & _). exists t. exact Ht.
Qed.

(** X25. [cancelTrade] answers [true] exactly for a known trade that is
    [pending] or [monitoring]; it then marks that trade [expired], keeping
    its other fields, and a second cancellation answers [false].  When it
    answers [false] the dashboard is unchanged.  In both cases the trades
    known under other identifiers are as before, and the suspended
    monitoring calls are all still there: cancelling removes none. *)
Theorem cancelTrade_expires_open_trades_only :
  forall (R : NodeRuntime) (this : Dashboard.TradingDashboard)
         (tradeId : string),
    DashboardSpec.invariant this ->
    let result := Dashboard.cancelTrade this tradeId in
    (fst result = true
     <-> exists t,
           Dashboard.getTradeStatus this tradeId = Some t /\
           Dashboard.terminal (Dashboard.status t) = false) /\
    (fst result = false -> snd result = this) /\
    (fst result = true ->
     exists t,
       Dashboard.getTradeStatus this tradeId = Some t /\
       Dashboard.getTradeStatus (snd result) tradeId
       = Some (Dashboard.with_status Dashboard.expired t) /\
       fst (Dashboard.cancelTrade (snd result) tradeId) = false) /\
    (forall tradeId',
       tradeId' <> tradeId ->
       Dashboard.getTradeStatus (snd result) tradeId'
       = Dashboard.getTradeStatus this tradeId') /\
    Dashboard.suspended (snd result) = Dashboard.suspended this.
Proof.
  intros R this tradeId Hinv result. subst result.
  destruct (DashboardFacts.cancelTrade_cases this tradeId)
    as [(t & r & Hr & Ht & Hopen & ->)|(Hterm & ->)]; cbn [fst snd].
  - rewrite (DashboardFacts.stopMonitoring_noop this tradeId (proj1 Hinv)).
    assert (Hstatus : Dashboard.getTradeStatus this tradeId = Some t).
    { unfold Dashboard.getTradeStatus. rewrite Hr. exact Ht. }
    assert (Hafter :
      Dashboard.getTradeStatus
        (Dashboard.with_heap this
           (Store.update (Dashboard.heap this) r
              (Dashboard.with_status Dashboard.expired))) tradeId
      = Some (Dashboard.with_status Dashboard.expired t)).
    { unfold Dashboard.getTradeStatus.
      cbn [Dashboard.trades Dashboard.heap Dashboard.with_heap].
      rewrite Hr, StoreFacts.get_update_eq, Ht. reflexivity. }
    split; [|split; [|split; [|split]]].
    + split; [|reflexivity]. intros _. exists t. split; assumption.
    + discriminate.
    + intros _. exists t. split; [exact Hstatus|]. split; [exact Hafter|].
      destruct (DashboardFacts.cancelTrade_cases
                  (Dashboard.with_heap this
                     (Store.update (Dashboard.heap this) r
                        (Dashboard.with_status Dashboard.expired))) tradeId)
        as [(t' & r' & Hr' & Ht' & Hopen' & _)|(_ & ->)]; [|reflexivity].
      exfalso.
      cbn [Dashboard.trades Dashboard.heap Dashboard.with_heap] in Hr', Ht'.
      rewrite Hr in Hr'. injection Hr' as <-.
      rewrite StoreFacts.get_update_eq, Ht in Ht'.
      injection Ht' as <-. discriminate.
    + intros tradeId' Hne.
      apply (DashboardOps.getTradeStatus_update_other this tradeId r _
               tradeId' Hinv Hr Hne).
    + reflexivity.
  - split; [|split; [|split; [|split]]]; try reflexivity.
    + split; [discriminate|].
      intros (t & Ht & Hopen). rewrite (Hterm t Ht) in Hopen. discriminate.
    + discriminate.
Qed.

(** The test "should cancel a pending trade". *)
Lemma cancelTrade_expires_open_trades_only_witness :
  let submitted :=
    snd (@Dashboard.submitTrade Model.runtime Samples.testDashboard
           "Buy ETH" "test-bot" "trade_1" 5) in
  fst (Dashboard.cancelTrade submitted "trade_1") = true /\
  fst (Dashboard.cancelTrade
         (snd (Dashboard.cancelTrade submitted "trade_1")) "trade_1")
  = false /\
  length (Dashboard.suspended
            (snd (Dashboard.cancelTrade submitted "trade_1"))) = 1%nat.
Proof.
  cbv zeta.
  destruct (cancelTrade_expires_open_trades_only Model.runtime
              (snd (@Dashboard.submitTrade Model.runtime Samples.testDashboard
                      "Buy ETH" "test-bot" "trade_1" 5)) "trade_1")
    as (Hiff & _ & Hsecond & _ & Hsusp).
  { apply DashboardFacts.submitTrade_invariant.
    apply DashboardFacts.invariant_registerBot, DashboardFacts.invariant_new. }
  assert (Htrue :
    fst (Dashboard.cancelTrade
           (snd (@Dashboard.submitTrade Model.runtime Samples.testDashboard
                   "Buy ETH" "test-bot" "trade_1" 5)) "trade_1") = true).
  { apply Hiff. eexists. split; reflexivity. }
  split; [exact Htrue|]. split.
  - destruct (Hsecond Htrue) as (t & _ & _ & Hfalse). exact Hfalse.
  - rewrite Hsusp. reflexivity.
Defined.

(** X26. When the workflow run of a suspended monitoring call ends, the
    call writes the trade's status whatever it was before, also when the
    trade had been cancelled in the meantime: [executed], [failed] or
    [expired] after the receipt's status, [failed] when the run threw.  The
    status it leaves is always a terminal one, the trade keeps its
    identifier, prompt, bot and submission time, and the call is no longer
    suspended. *)
Theorem completed_monitoring_overwrites_the_status :
  forall (R : NodeRuntime) (this : Dashboard.TradingDashboard) (n : nat)
         (m : Dashboard.Monitoring) (randomKey : list byte) (coin : bool)
         (w : Workflow.World),
    DashboardSpec.invariant this ->
    Dashboard.suspended this !! n = Some m ->
    let final :=
      Dashboard.step this (Dashboard.MonitoringCompletes n randomKey coin w) in
    let outcome := DashboardSpec.awaited_run this m randomKey coin w in
    exists before after,
      Store.get (Dashboard.heap this) (Dashboard.trade m) = Some before /\
      Store.get (Dashboard.heap final) (Dashboard.trade m) = Some after /\
      Dashboard.status after = DashboardSpec.completion_status outcome /\
      Dashboard.terminal (Dashboard.status after) = true /\
      Dashboard.id after = Dashboard.id before /\
      Dashboard.user_prompt after = Dashboard.user_prompt before /\
      Dashboard.bot_name after = Dashboard.bot_name before /\
      Dashboard.submitted_at after = Dashboard.submitted_at before /\
      (forall result, outcome = Returned result ->
                      Dashboard.result after = Some result) /\
      Dashboard.suspended final = delete n (Dashboard.suspended this).
Proof.
  intros R this n m randomKey coin w Hinv Hm final outcome.
  destruct Hinv as (Hint & Htrades & Hsusp).
  assert (Hheld : DashboardSpec.holds (Dashboard.heap this)
                    (Dashboard.trade m) (Dashboard.tradeId m)).
  { rewrite Forall_lookup in Hsusp. exact (Hsusp n m Hm). }
  destruct Hheld as (before & Hbefore & _).
  subst final. cbn [Dashboard.step]. rewrite Hm.
  set (this0 :=
         {| Dashboard.config := Dashboard.config this;
            Dashboard.bots := Dashboard.bots this;
            Dashboard.trades := Dashboard.trades this;
            Dashboard.monitoringIntervals :=
              Dashboard.monitoringIntervals this;
            Dashboard.heap := Dashboard.heap this;
            Dashboard.suspended := delete n (Dashboard.suspended this);
            Dashboard.called := Dashboard.called this |}).
  destruct (DashboardFacts.resumeMonitoring_heap this0 m randomKey coin w
              Hint) as (_ & _ & _ & _ & Esusp & Eheap).
  change (DashboardSpec.awaited_run this0 m randomKey coin w)
    with outcome in Eheap.
  rewrite Eheap, Esusp. exists before.
  pose proof (DashboardOps.completion_status_terminal outcome) as Hterm.
  destruct outcome as [result|message] eqn:Houtcome.
  - exists (Dashboard.with_status
              (DashboardSpec.completion_status (Returned result))
              (Dashboard.with_result result before)).
    split; [exact Hbefore|]. split.
    + cbn [Dashboard.heap this0].
      rewrite !StoreFacts.get_update_eq, Hbefore. reflexivity.
    + repeat split; try reflexivity; try exact Hterm.
      intros result' [= <-]. reflexivity.
  - exists (Dashboard.with_status Dashboard.failed before).
    split; [exact Hbefore|]. split.
    + cbn [Dashboard.heap this0].
      rewrite StoreFacts.get_update_eq, Hbefore. reflexivity.
    + repeat split; try reflexivity. intros result' Hr. discriminate.
Qed.

(** A trade cancelled while its run is in flight is marked [executed]
    when the run ends. *)
Lemma completed_monitoring_overwrites_the_status_witness :
  let submitted :=
    snd (@Dashboard.submitTrade Model.runtime Samples.testDashboard
           "Buy ETH" "test-bot" "trade_1" 5) in
  let cancelled := snd (Dashboard.cancelTrade submitted "trade_1") in
  let final :=
    @Dashboard.step Model.runtime cancelled
      (Dashboard.MonitoringCompletes 0 Samples.sampleKey true
         (Samples.workflowWorld Samples.sampleStrategy)) in
  exists before after,
    Store.get (Dashboard.heap cancelled) 0 = Some before /\
    Dashboard.status before = Dashboard.expired /\
    Store.get (Dashboard.heap final) 0 = Some after /\
    Dashboard.status after = Dashboard.executed.
Proof.
  cbv zeta.
  destruct (completed_monitoring_overwrites_the_status Model.runtime
              (snd (Dashboard.cancelTrade
                      (snd (@Dashboard.submitTrade Model.runtime
                              Samples.testDashboard
                              "Buy ETH" "test-bot" "trade_1" 5)) "trade_1"))
              0
              {| Dashboard.trade := 0; Dashboard.tradeId := "trade_1";
                 Dashboard.userPrompt := "Buy ETH";
                 Dashboard.botEndpoint := "http://example.com/parse" |}
              Samples.sampleKey true
              (Samples.workflowWorld Samples.sampleStrategy))
    as (before & after & Hbefore & Hafter & Hstatus & _).
  { apply DashboardFacts.cancelTrade_invariant.
    apply DashboardFacts.submitTrade_invariant.
    apply DashboardFacts.invariant_registerBot, DashboardFacts.invariant_new. }
  { reflexivity. }
  exists before, after. split; [exact Hbefore|]. split.
  - vm_compute in Hbefore. injection Hbefore as <-. reflexivity.
  - split; [exact Hafter|]. rewrite Hstatus. vm_compute. reflexivity.
Defined.

(** ** The bot registry

    Bot configurations are values here: a caller that keeps a registered
    configuration object and later assigns its [name] is outside the
    model. *)

Module BotManagerFacts.
Import BotManager.

Lemma map_get_set_eq k v m : map_get k (map_set k v m) = Some v.
Proof.
  induction m as [|[k' v'] m IH]; cbn [map_set map_get].
  - rewrite String.eqb_refl. reflexivity.
  - destruct (String.eqb k k') eqn:E; cbn [map_get].
    + rewrite String.eqb_refl. reflexivity.
    + rewrite E. exact IH.
Qed.

Lemma map_get_set_ne k k' v m :
  k' <> k -> map_get k' (map_set k v m) = map_get k' m.
Proof.
  intros Hne. induction m as [|[k'' v''] m IH]; cbn [map_set map_get].
  - rewrite (proj2 (String.eqb_neq k' k) Hne). reflexivity.
  - destruct (String.eqb k k'') eqn:E; cbn [map_get].
    + apply String.eqb_eq in E. subst k''.
      rewrite (proj2 (String.eqb_neq k' k) Hne). reflexivity.
    + rewrite IH. reflexivity.
Qed.

Lemma map_get_None k m : map_get k m = None <-> ~ In k (map fst m).
Proof.
  induction m as [|[k' v'] m IH]; cbn [map_get map fst In].
  - split; [intros _ []|reflexivity].
  - destruct (String.eqb k k') eqn:E.
    + apply String.eqb_eq in E. subst k'.
      split; [discriminate|]. intros Hn. exfalso. apply Hn. left. reflexivity.
    + apply String.eqb_neq in E. rewrite IH. split.
      * intros Hn [->|Hin]; [apply E; reflexivity|exact (Hn Hin)].
      * intros Hn Hin. apply Hn. right. exact Hin.
Qed.

(** [set] on a new key appends; on a known key it keeps the order. *)
Lemma map_set_fresh k v m :
  map_get k m = None -> map_set k v m = m ++ [(k, v)].
Proof.
  induction m as [|[k' v'] m IH]; cbn [map_get map_set app];
    [reflexivity|].
  destruct (String.eqb k k'); [discriminate|].
  intros Hm. rewrite (IH Hm). reflexivity.
Qed.

Lemma map_set_known k v m :
  is_Some (map_get k m) -> map fst (map_set k v m) = map fst m.
Proof.
  induction m as [|[k' v'] m IH]; cbn [map_get map_set map fst].
  - intros [x Hx]. discriminate.
  - destruct (String.eqb k k') eqn:E; cbn [map fst].
    + apply String.eqb_eq in E. subst k'. reflexivity.
    + intros Hm. rewrite (IH Hm). reflexivity.
Qed.

Lemma map_set_keys_NoDup k v m :
  NoDup (map fst m) -> NoDup (map fst (map_set k v m)).
Proof.
  intros Hnd. destruct (map_get k m) as [v'|] eqn:E.
  - rewrite map_set_known by (eexists; exact E). exact Hnd.
  - rewrite (map_set_fresh k v m E), map_app. cbn [map fst].
    apply NoDup_app. split; [exact Hnd|]. split.
    + intros k' Hin Hin'. apply list_elem_of_In in Hin.
      apply list_elem_of_In in Hin'. destruct Hin' as [<-|[]].
      apply (proj1 (map_get_None k m) E). exact Hin.
    + apply NoDup_singleton.
Qed.

Lemma map_set_names k v m :
  Forall (fun kv => Dashboard.name (snd kv) = fst kv) m ->
  Dashboard.name v = k ->
  Forall (fun kv => Dashboard.name (snd kv) = fst kv) (map_set k v m).
Proof.
  intros Hall Hv. induction Hall as [|[k' v'] m Hkv Hall IH];
    cbn [map_set].
  - constructor; [exact Hv|constructor].
  - destruct (String.eqb k k'); constructor; assumption.
Qed.

Lemma map_delete_found k m :
  fst (map_delete k m) = true <-> is_Some (map_get k m).
Proof.
  induction m as [|[k' v'] m IH]; cbn [map_delete map_get].
  - split; [discriminate|]. intros [x Hx]. discriminate.
  - destruct (String.eqb k k'); cbn [fst].
    + split; [eexists; reflexivity|reflexivity].
    + destruct (map_delete k m) as [found rest]. exact IH.
Qed.

Lemma map_delete_keys k m k' :
  In k' (map fst (snd (map_delete k m))) -> In k' (map fst m).
Proof.
  induction m as [|[k'' v''] m IH]; cbn [map_delete]; [intros []|].
  destruct (String.eqb k k''); cbn [snd map fst In].
  - intros Hin. right. exact Hin.
  - destruct (map_delete k m) as [found rest]. cbn [snd map fst In] in *.
    intros [->|Hin]; [left; reflexivity|right; exact (IH Hin)].
Qed.

Lemma map_delete_keys_NoDup k m :
  NoDup (map fst m) -> NoDup (map fst (snd (map_delete k m))).
Proof.
  induction m as [|[k' v'] m IH]; cbn [map_delete map fst]; intros Hnd.
  - constructor.
  - apply NoDup_cons in Hnd as [Hnotin Hnd].
    destruct (String.eqb k k'); cbn [snd]; [exact Hnd|].
    pose proof (map_delete_keys k m k') as Hkeys.
    destruct (map_delete k m) as [found rest]. cbn [snd map fst] in *.
    apply NoDup_cons. split; [|exact (IH Hnd)].
    intros Hin. apply Hnotin. apply list_elem_of_In.
    apply Hkeys. apply list_elem_of_In. exact Hin.
Qed.

Lemma map_delete_names k m :
  Forall (fun kv => Dashboard.name (snd kv) = fst kv) m ->
  Forall (fun kv => Dashboard.name (snd kv) = fst kv) (snd (map_delete k m)).
Proof.
  intros Hall. induction Hall as [|[k' v'] m Hkv Hall IH];
    cbn [map_delete]; [constructor|].
  destruct (String.eqb k k'); cbn [snd]; [exact Hall|].
  destruct (map_delete k m) as [found rest]. cbn [snd] in *.
  constructor; assumption.
Qed.

Lemma map_get_delete_eq k m :
  NoDup (map fst m) -> map_get k (snd (map_delete k m)) = None.
Proof.
  induction m as [|[k' v'] m IH]; cbn [map_delete map fst]; intros Hnd;
    [reflexivity|].
  apply NoDup_cons in Hnd as [Hnotin Hnd].
  destruct (String.eqb k k') eqn:E; cbn [snd].
  - apply String.eqb_eq in E. subst k'. apply map_get_None.
    intros Hin. apply Hnotin. apply list_elem_of_In. exact Hin.
  - specialize (IH Hnd). destruct (map_delete k m) as [found rest].
    cbn [snd map_get] in *. rewrite E. exact IH.
Qed.

Lemma map_get_delete_ne k k' m :
  k' <> k -> map_get k' (snd (map_delete k m)) = map_get k' m.
Proof.
  intros Hne. induction m as [|[k'' v''] m IH]; cbn [map_delete map_get];
    [reflexivity|].
  destruct (String.eqb k k'') eqn:E; cbn [snd].
  - apply String.eqb_eq in E. subst k''.
    rewrite (proj2 (String.eqb_neq k' k) Hne). reflexivity.
  - destruct (map_delete k m) as [found rest]. cbn [snd map_get] in *.
    rewrite IH. reflexivity.
Qed.

Lemma map_get_In k v m :
  NoDup (map fst m) -> (map_get k m = Some v <-> In (k, v) m).
Proof.
  induction m as [|[k' v'] m IH]; cbn [map_get map fst In]; intros Hnd.
  - split; [discriminate|intros []].
  - apply NoDup_cons in Hnd as [Hnotin Hnd].
    destruct (String.eqb k k') eqn:E.
    + apply String.eqb_eq in E. subst k'. split.
      * intros [= <-]. left. reflexivity.
      * intros [[= <-]|Hin]; [reflexivity|].
        exfalso. apply Hnotin. apply list_elem_of_In.
        apply (in_map fst) in Hin. exact Hin.
    + apply String.eqb_neq in E. rewrite (IH Hnd). split.
      * intros Hin. right. exact Hin.
      * intros [[= -> ->]|Hin]; [exfalso; apply E; reflexivity|exact Hin].
Qed.

Lemma new_well_formed_registry : well_formed new.
Proof. split; constructor. Qed.

Lemma perform_well_formed_registry this c :
  well_formed this -> well_formed (perform this c).
Proof.
  intros [Hnd Hnames]. destruct c as [config|name]; cbn [perform].
  - split; cbn [registerBot bots].
    + apply map_set_keys_NoDup. exact Hnd.
    + apply map_set_names; [exact Hnames|reflexivity].
  - unfold removeBot.
    pose proof (map_delete_keys_NoDup name (bots this) Hnd) as Hnd'.
    pose proof (map_delete_names name (bots this) Hnames) as Hnames'.
    destruct (map_delete name (bots this)) as [found rest].
    split; assumption.
Qed.

Lemma after_well_formed_registry calls : well_formed (after calls).
Proof.
  unfold after. generalize new_well_formed_registry. generalize new.
  induction calls as [|c calls IH]; intros this Hok; [exact Hok|].
  apply IH, perform_well_formed_registry, Hok.
Qed.

(** In a well-formed registry the listed bots are exactly those found
    under their own names. *)
Lemma listed_iff_found this bot :
  well_formed this ->
  In bot (listBots this) <-> getBot this (Dashboard.name bot) = Some bot.
Proof.
  intros [Hnd Hnames]. unfold listBots, getBot, map_values.
  rewrite (map_get_In _ _ _ Hnd). split.
  - intros Hin. apply in_map_iff in Hin as ([k v] & <- & Hin).
    rewrite List.Forall_forall in Hnames.
    rewrite (Hnames _ Hin). exact Hin.
  - intros Hin. apply (in_map snd) in Hin. exact Hin.
Qed.

Lemma listed_names_NoDup this :
  well_formed this -> NoDup (map Dashboard.name (listBots this)).
Proof.
  intros [Hnd Hnames]. unfold listBots, map_values. rewrite map_map.
  rewrite (map_ext_in (fun kv => Dashboard.name (snd kv)) fst); [exact Hnd|].
  rewrite List.Forall_forall in Hnames. exact Hnames.
Qed.

Lemma checkBotHealth_found `{NodeRuntime} this name w bot :
  getBot this name = Some bot ->
  checkBotHealth this name w
  = {| bot_name := name;
       endpoint := Dashboard.endpoint bot;
       status := BotHealth.verdict (BotHealth.probe w bot);
       last_check := toISOString (stamp w);
       response_time_ms := Some (endTime w - startTime w)%Q;
       error_message :=
         match BotHealth.probe w bot with
         | Responded true _ _ => None
         | Responded false http_status statusText =>
             Some ("HTTP "
                     +:+ Number_toString (inject_Z (Z.of_nat http_status))
                     +:+ ": " +:+ statusText)
         | Rejected message => Some message
         end |}.
Proof.
  unfold getBot, checkBotHealth, BotHealth.probe. intros ->.
  destruct (fetch w _ _ _) as [[|] http_status statusText|message];
    reflexivity.
Qed.

End BotManagerFacts.

(** X27. Registering a bot and looking it up: [getBot] under the
    registered name returns the configuration just registered; bots under
    other names are found as before; a new name is listed last, and
    registering again under a known name replaces the configuration in
    place, without listing it twice. *)
Theorem registerBot_then_getBot_round_trip :
  forall (this : BotManager.BotManager) (config : Dashboard.BotConfig),
    let registered := BotManager.registerBot this config in
    BotManager.getBot registered (Dashboard.name config) = Some config /\
    (forall name,
       name <> Dashboard.name config ->
       BotManager.getBot registered name = BotManager.getBot this name) /\
    (BotManager.getBot this (Dashboard.name config) = None ->
     BotManager.listBots registered = BotManager.listBots this ++ [config]) /\
    (is_Some (BotManager.getBot this (Dashboard.name config)) ->
     map fst (BotManager.bots registered) = map fst (BotManager.bots this)).
Proof.
  intros this config registered. subst registered.
  unfold BotManager.getBot, BotManager.registerBot, BotManager.listBots,
    BotManager.map_values.
  cbn [BotManager.bots].
  split; [apply BotManagerFacts.map_get_set_eq|]. split; [|split].
  - intros name Hne. apply BotManagerFacts.map_get_set_ne. exact Hne.
  - intros Hnone. rewrite (BotManagerFacts.map_set_fresh _ _ _ Hnone).
    apply map_app.
  - apply BotManagerFacts.map_set_known.
Qed.

(** X28. After any history of [registerBot] and [removeBot] calls, the
    registry lists each name once; a bot is listed exactly when [getBot]
    finds it under its own name; [removeBot] answers [true] exactly for a
    registered name, after it the name is not found, and the bots under
    other names are found as before. *)
Theorem registry_lists_each_name_once_over_every_history :
  forall (calls : list BotManager.Call),
    let this := BotManager.after calls in
    NoDup (map Dashboard.name (BotManager.listBots this)) /\
    (forall bot,
       In bot (BotManager.listBots this)
       <-> BotManager.getBot this (Dashboard.name bot) = Some bot) /\
    (forall name,
       (fst (BotManager.removeBot this name) = true
        <-> is_Some (BotManager.getBot this name)) /\
       BotManager.getBot (snd (BotManager.removeBot this name)) name = None /\
       forall name',
         name' <> name ->
         BotManager.getBot (snd (BotManager.removeBot this name)) name'
         = BotManager.getBot this name').
Proof.
  intros calls this.
  pose proof (BotManagerFacts.after_well_formed_registry calls) as Hok.
  fold this in Hok.
  split; [apply BotManagerFacts.listed_names_NoDup; exact Hok|].
  split; [intros bot; apply BotManagerFacts.listed_iff_found; exact Hok|].
  intros name. unfold BotManager.removeBot, BotManager.getBot.
  pose proof (BotManagerFacts.map_delete_found name (BotManager.bots this))
    as Hfound.
  pose proof (BotManagerFacts.map_get_delete_eq name (BotManager.bots this)
                (proj1 Hok)) as Hgone.
  pose proof (fun name' =>
                BotManagerFacts.map_get_delete_ne name name'
                  (BotManager.bots this)) as Hframe.
  destruct (BotManager.map_delete name (BotManager.bots this))
    as [found rest].
  cbn [fst snd BotManager.bots] in *.
  split; [exact Hfound|]. split; [exact Hgone|exact Hframe].
Qed.

(** X29. After any history of registry calls, [checkAllBotsHealth]
    reports on each listed bot once, in the listing order and under the
    bot's own name and endpoint; each report's status is the verdict on the
    request sent to that bot's endpoint ([connected] for an ok response,
    [error] for another response, [disconnected] for a rejection) and
    carries a response time: the "Bot not found" report is never
    produced. *)
Theorem checkAllBotsHealth_reports_each_listed_bot :
  forall (R : NodeRuntime) (calls : list BotManager.Call)
         (worlds : string -> BotManager.HealthWorld),
    let this := BotManager.after calls in
    let reports := BotManager.checkAllBotsHealth this worlds in
    map BotManager.bot_name reports
    = map Dashboard.name (BotManager.listBots this) /\
    map BotManager.endpoint reports
    = map Dashboard.endpoint (BotManager.listBots this) /\
    map BotManager.status reports
    = map (fun bot =>
             BotHealth.verdict
               (BotHealth.probe (worlds (Dashboard.name bot)) bot))
          (BotManager.listBots this) /\
    Forall (fun report => is_Some (BotManager.response_time_ms report))
           reports.
Proof.
  intros R calls worlds this reports.
  pose proof (BotManagerFacts.after_well_formed_registry calls) as Hok.
  fold this in Hok.
  assert (Hreport : forall bot,
             In bot (BotManager.listBots this) ->
             exists message,
               BotManager.checkBotHealth this (Dashboard.name bot)
                 (worlds (Dashboard.name bot))
               = {| BotManager.bot_name := Dashboard.name bot;
                    BotManager.endpoint := Dashboard.endpoint bot;
                    BotManager.status :=
                      BotHealth.verdict
                        (BotHealth.probe (worlds (Dashboard.name bot)) bot);
                    BotManager.last_check :=
                      toISOString
                        (BotManager.stamp (worlds (Dashboard.name bot)));
                    BotManager.response_time_ms :=
                      Some (BotManager.endTime (worlds (Dashboard.name bot))
                            - BotManager.startTime
                                (worlds (Dashboard.name bot)))%Q;
                    BotManager.error_message := message |}).
  { intros bot Hin. eexists.
    apply BotManagerFacts.checkBotHealth_found.
    apply BotManagerFacts.listed_iff_found; assumption. }
  subst reports. unfold BotManager.checkAllBotsHealth.
  rewrite !map_map.
  split; [|split; [|split]].
  - apply map_ext_in. intros bot Hin.
    destruct (Hreport bot Hin) as [message ->]. reflexivity.
  - apply map_ext_in. intros bot Hin.
    destruct (Hreport bot Hin) as [message ->]. reflexivity.
  - apply map_ext_in. intros bot Hin.
    destruct (Hreport bot Hin) as [message ->]. reflexivity.
  - apply List.Forall_forall. intros report Hin.
    apply in_map_iff in Hin as (bot & <- & Hin).
    destruct (Hreport bot Hin) as [message ->]. eexists. reflexivity.
Qed.

(** ** What an encrypted intent shows in clear *)

(** X30. Whenever [encrypt] returns an intent, the handler's key has
    [KEY_LENGTH] bytes, and the intent's public metadata carries, in clear,
    the strategy's pair, the sum of its action amounts as budget cap and
    the expiry computed from the strategy's [expires_in_minutes]; the
    metadata names the same identifier as the intent, the authorization
    hash binds that identifier to the payload, and the [iv] field decodes
    to the nonce that was drawn. *)
Theorem encrypt_publishes_pair_and_total_spend :
  forall (R : NodeRuntime) (this : Encryption.BiteIntentHandler)
         (s : StrategyDSL) (e : Encryption.Entropy)
         (intent : Encryption.EncryptedIntent),
    Encryption.encrypt this s e = Returned intent ->
    length (Encryption.key this) = Encryption.KEY_LENGTH /\
    Encryption.intent_id intent = Encryption.uuid e /\
    Encryption.meta_intent_id (Encryption.public_metadata intent)
    = Encryption.intent_id intent /\
    Encryption.meta_pair (Encryption.public_metadata intent) = pair s /\
    Encryption.budget_cap_usdc (Encryption.public_metadata intent)
    = Js.sumBy amount_usdc (actions s) /\
    Encryption.expires_at (Encryption.public_metadata intent)
    = toISOString
        (Encryption.now e + expires_in_minutes (controls s) * 60000)%Q /\
    Encryption.authorization_hash (Encryption.public_metadata intent)
    = sha256_hex (Encryption.intent_id intent
                    +:+ Encryption.encrypted_payload intent) /\
    Encryption.Buffer_from_hex (Encryption.iv intent)
    = Encryption.iv_bytes e.
Proof.
  intros R this s e intent. unfold Encryption.encrypt.
  destruct (length (Encryption.key this) =? Encryption.KEY_LENGTH)%nat
    eqn:Hkey; cbn [negb]; [|discriminate].
  destruct (Encryption.valid_time (Encryption.expires_ms e s));
    cbn [negb]; [|discriminate].
  intros [= <-].
  cbn [Encryption.intent_id Encryption.public_metadata
       Encryption.meta_intent_id Encryption.meta_pair
       Encryption.budget_cap_usdc Encryption.expires_at
       Encryption.authorization_hash Encryption.iv
       Encryption.encrypted_payload].
  split; [apply Nat.eqb_eq; exact Hkey|].
  repeat (split; [reflexivity|]).
  apply EncryptionFacts.Buffer_from_hex_toString_hex.
Qed.

Lemma encrypt_publishes_pair_and_total_spend_witness :
  exists intent,
    @Encryption.encrypt Model.runtime
      {| Encryption.key := Samples.sampleKey |}
      Samples.splitStrategy Samples.sampleEntropy = Returned intent /\
    Encryption.meta_pair (Encryption.public_metadata intent) = "ETH/USDC" /\
    Encryption.budget_cap_usdc (Encryption.public_metadata intent)
    = Js.sumBy amount_usdc (actions Samples.splitStrategy).
Proof.
  eexists. split; [reflexivity|].
  destruct (encrypt_publishes_pair_and_total_spend Model.runtime
              {| Encryption.key := Samples.sampleKey |}
              Samples.splitStrategy Samples.sampleEntropy _ eq_refl)
    as (_ & _ & _ & Hpair & Hcap & _).
  split; [exact Hpair|exact Hcap].
Defined.

(** * Where the exact arithmetic is the code's

    A double holds every integer of magnitude at most 2^53 exactly, and an
    addition or subtraction of doubles whose exact result is such an integer
    returns it.  The lemmas below show that on [Js.sums_exactly] lists every
    partial sum of the [reduce], and on [Accounting.exact_books] histories
    every budget the engine holds, is a safe integer: there the model's
    numbers are the code's. *)

Module ExactFacts.

Lemma isInteger_divide (q : Q) :
  Js.isInteger q = true <-> (Z.pos (Qden q) | Qnum q)%Z.
Proof.
  unfold Js.isInteger. rewrite Z.eqb_eq. apply Z.mod_divide. discriminate.
Qed.

Lemma isInteger_plus (a b : Q) :
  Js.isInteger a = true -> Js.isInteger b = true ->
  Js.isInteger (a + b) = true.
Proof.
  rewrite !isInteger_divide. intros Ha Hb.
  destruct a as [na da], b as [nb db]. cbn [Qplus Qnum Qden] in *.
  rewrite Pos2Z.inj_mul. apply Z.divide_add_r.
  - apply Z.mul_divide_mono_r. exact Ha.
  - rewrite (Z.mul_comm (Z.pos da)). apply Z.mul_divide_mono_r. exact Hb.
Qed.

Lemma isInteger_opp (a : Q) :
  Js.isInteger a = true -> Js.isInteger (- a) = true.
Proof.
  rewrite !isInteger_divide. destruct a as [na da]. cbn [Qopp Qnum Qden].
  apply Z.divide_opp_r.
Qed.

Lemma isInteger_minus (a b : Q) :
  Js.isInteger a = true -> Js.isInteger b = true ->
  Js.isInteger (a - b) = true.
Proof.
  intros Ha Hb. unfold Qminus. apply isInteger_plus; [exact Ha|].
  apply isInteger_opp. exact Hb.
Qed.

Lemma isSafeInteger_isInteger (q : Q) :
  Js.isSafeInteger q = true -> Js.isInteger q = true.
Proof.
  unfold Js.isSafeInteger. intros H. apply andb_true_iff in H as [H _].
  exact H.
Qed.

Section Sums.
Context {A : Type} (f : A -> Q).

Lemma fold_isInteger (xs : list A) (start : Q) :
  Js.isInteger start = true ->
  Forall (fun x => Js.isInteger (f x) = true) xs ->
  Js.isInteger (fold_left (fun sum x => (sum + f x)%Q) xs start) = true.
Proof.
  revert start. induction xs as [|x xs IH]; intros start Hstart Hall;
    cbn [fold_left]; [exact Hstart|].
  inversion Hall as [|? ? Hx Hxs]; subst.
  apply IH; [|exact Hxs]. apply isInteger_plus; assumption.
Qed.

Lemma sumBy_app (xs ys : list A) :
  (Js.sumBy f (xs ++ ys) == Js.sumBy f xs + Js.sumBy f ys)%Q.
Proof.
  unfold Js.sumBy at 1. rewrite fold_left_app.
  rewrite fold_sum_start. reflexivity.
Qed.

Lemma sumBy_nonneg (xs : list A) :
  Forall (fun x => (0 <= f x)%Q) xs -> (0 <= Js.sumBy f xs)%Q.
Proof.
  induction 1 as [|x xs Hx _ IH]; [apply Qle_refl|].
  rewrite sumBy_cons.
  apply (Qle_trans _ (0 + 0)); [apply Qle_refl|].
  apply Qplus_le_compat; assumption.
Qed.

Lemma sums_exactly_Forall (xs : list A) :
  Js.sums_exactly f xs = true ->
  Forall (fun x => Js.isInteger (f x) = true) xs /\
  Forall (fun x => (0 <= f x)%Q) xs /\
  (Js.sumBy f xs <= Js.MAX_SAFE_INTEGER)%Q.
Proof.
  unfold Js.sums_exactly. intros H. apply andb_true_iff in H as [Hall Hsum].
  apply le_true in Hsum. rewrite forallb_forall in Hall.
  repeat split; [| |exact Hsum]; apply List.Forall_forall; intros x Hx;
    specialize (Hall x Hx); apply andb_true_iff in Hall as [Hsafe Hpos].
  - apply isSafeInteger_isInteger. exact Hsafe.
  - apply ge_true. exact Hpos.
Qed.

(** Every partial sum of the [reduce] over a [sums_exactly] list is a
    non-negative safe integer. *)
Lemma partial_sums_are_safe (xs before rest : list A) :
  Js.sums_exactly f xs = true ->
  xs = before ++ rest ->
  Js.isSafeInteger (Js.sumBy f before) = true /\
  (0 <= Js.sumBy f before)%Q.
Proof.
  intros Hexact ->.
  destruct (sums_exactly_Forall _ Hexact) as (Hint & Hpos & Hsum).
  apply List.Forall_app in Hint as [Hint _].
  apply List.Forall_app in Hpos as [Hpos Hpos'].
  pose proof (sumBy_nonneg before Hpos) as Hbefore.
  pose proof (sumBy_nonneg rest Hpos') as Hrest.
  split; [|exact Hbefore].
  apply isSafeInteger_range; [|exact Hbefore|].
  - apply fold_isInteger; [reflexivity|exact Hint].
  - rewrite sumBy_app in Hsum.
    apply (Qle_trans _ (Js.sumBy f before + Js.sumBy f rest)); [|exact Hsum].
    rewrite <- (Qplus_0_r (Js.sumBy f before)) at 1.
    apply Qplus_le_compat; [apply Qle_refl|exact Hrest].
Qed.

End Sums.

Lemma debits_bound_nonneg (calls : list Economic.Call) :
  (0 <= Accounting.debits_bound calls)%Q.
Proof.
  induction calls as [|[toolName costUsdc|amount|] calls IH];
    cbn [Accounting.debits_bound]; try exact IH; [apply Qle_refl|].
  apply (Qle_trans _ (0 + 0)); [apply Qle_refl|].
  apply Qplus_le_compat; [apply Qabs_nonneg|exact IH].
Qed.

Lemma Qabs_minus_le (a b : Q) : (Qabs (a - b) <= Qabs a + Qabs b)%Q.
Proof.
  unfold Qminus. rewrite <- (Qabs_opp b). apply Qabs_triangle.
Qed.

(** Every budget an engine holds along an [exact_books] history is a safe
    integer. *)
Lemma budgets_are_safe `{NodeRuntime} (before rest : list Economic.Call)
    (this : Economic.EconomicReasoningEngine) :
  Js.isInteger (Economic.budgetRemaining this) = true ->
  Accounting.debits_safe (before ++ rest) = true ->
  (Qabs (Economic.budgetRemaining this)
   + Accounting.debits_bound (before ++ rest) <= Js.MAX_SAFE_INTEGER)%Q ->
  Js.isSafeInteger
    (Economic.budgetRemaining (fold_left Economic.perform before this))
  = true.
Proof.
  revert this.
  induction before as [|[toolName costUsdc|amount|] before IH];
    intros this Hint Hsafe Hbound; cbn [fold_left app] in *.
  - unfold Js.isSafeInteger. rewrite Hint. cbn [andb]. apply le_true.
    apply (Qle_trans _ (Qabs (Economic.budgetRemaining this)
                        + Accounting.debits_bound rest)); [|exact Hbound].
    rewrite <- (Qplus_0_r (Qabs _)) at 1.
    apply Qplus_le_compat; [apply Qle_refl|apply debits_bound_nonneg].
  - apply IH; assumption.
  - cbn [Accounting.debits_safe Accounting.debits_bound] in Hsafe, Hbound.
    apply andb_true_iff in Hsafe as [Hamount Hsafe].
    apply IH; cbn [Economic.perform Economic.recordSpend
                   Economic.budgetRemaining].
    + apply isInteger_minus; [exact Hint|].
      apply isSafeInteger_isInteger. exact Hamount.
    + exact Hsafe.
    + apply (Qle_trans _ (Qabs (Economic.budgetRemaining this)
                          + (Qabs amount
                             + Accounting.debits_bound (before ++ rest))));
        [|exact Hbound].
      rewrite Qplus_assoc. apply Qplus_le_compat; [|apply Qle_refl].
      apply Qabs_minus_le.
  - apply IH; assumption.
Qed.

Lemma exact_books_budgets `{NodeRuntime} (initialBudget : Q)
    (calls before rest : list Economic.Call) :
  Accounting.exact_books initialBudget calls = true ->
  calls = before ++ rest ->
  Js.isSafeInteger
    (Economic.getBudgetRemaining (Economic.after initialBudget before))
  = true.
Proof.
  unfold Accounting.exact_books. intros Hexact ->.
  apply andb_true_iff in Hexact as [Hexact Hbound].
  apply andb_true_iff in Hexact as [Hinit Hsafe].
  apply le_true in Hbound.
  apply (budgets_are_safe before rest (Economic.new initialBudget []));
    [apply isSafeInteger_isInteger; exact Hinit|exact Hsafe|exact Hbound].
Qed.

End ExactFacts.

(** The schema library's [int()] on the edges: an integer beyond the safe
    range is too big, and a number that is not an integer is reported once,
    the range checks after it not being run. *)
Example schema_rejects_an_unsafe_expiry :
  safeParse
    (StrategyDSL_json
       {| pair := "ETH/USDC";
          conditions := [{| cond_type := price_below; value := 3000 |}];
          actions := [{| action_type := swap; amount_usdc := 100;
                         direction := buy |}];
          controls := {| max_slippage_bps := 50;
                         approval_mode := approval_auto;
                         expires_in_minutes := 9007199254740992 |} |})
  = Failure [issue too_big [Key "controls"; Key "expires_in_minutes"]].
Proof. reflexivity. Qed.

Example schema_reports_a_fractional_slippage_once :
  safeParse
    (StrategyDSL_json
       {| pair := "ETH/USDC";
          conditions := [{| cond_type := price_below; value := 3000 |}];
          actions := [{| action_type := swap; amount_usdc := 100;
                         direction := buy |}];
          controls := {| max_slippage_bps := 1 # 2;
                         approval_mode := approval_auto;
                         expires_in_minutes := 60 |} |})
  = Failure [issue invalid_type [Key "controls"; Key "max_slippage_bps"]].
Proof. reflexivity. Qed.
